(** * OctoBot plan limits: a shallow embedding of [octobot/limits.py]

    The configuration tree is a Python dict of dicts.  Dicts iterate in
    insertion order and the limiters depend on that order, so a mapping is an
    association list here.  Python integers are [Z], strings are [string],
    a missing dict key is [None].  The limiters mutate the configuration in
    place and may raise; every limiter therefore returns the configuration it
    leaves behind together with either its message or the exception. *)

From Stdlib Require Import ZArith List String Ascii Bool Lia Arith.
From Stdlib Require Import DecimalString Permutation Sorted.
From Stdlib Require Floats.
Import ListNotations.

Open Scope Z_scope.

Notation "s1 +++ s2" := (String.append s1 s2)
  (at level 60, right associativity).

(** ** Python values *)

(** [str(n)] for an int. *)
Definition str_int (z : Z) : string := NilZero.string_of_int (Z.to_int z).

(** [len(l)] *)
Definition len {A : Type} (l : list A) : Z := Z.of_nat (List.length l).

(** [sep.join(l)] *)
Definition join (sep : string) (l : list string) : string :=
  String.concat sep l.

(** Truth value of a string: [if message]. *)
Definition truthy (s : string) : bool :=
  match s with EmptyString => false | _ => true end.

(** [l[k:]], with Python's reading of a negative start. *)
Definition slice_from {A : Type} (k : Z) (l : list A) : list A :=
  if k <? 0 then skipn (Z.to_nat (Z.max 0 (len l + k))) l
  else skipn (Z.to_nat k) l.

(** [x in l] / [x not in l] over strings and over any type with a boolean
    equality. *)
Fixpoint mem {A : Type} (eqb : A -> A -> bool) (x : A) (l : list A) : bool :=
  match l with
  | [] => false
  | y :: l' => eqb x y || mem eqb x l'
  end.

(** Exceptions the limiters can raise: a missing dict key, or a failure
    inside one of the tentacle collaborators. *)
Inductive exn : Type :=
| KeyError (key : string)
| CollaboratorError (what : string).

Inductive result (A : Type) : Type :=
| Ok (a : A)
| Raise (e : exn).
Arguments Ok {A} a.
Arguments Raise {A} e.

(** [str(err)] *)
Definition exn_str (e : exn) : string :=
  match e with
  | KeyError k => "'" +++ k +++ "'"
  | CollaboratorError w => w
  end.

(** ** The configuration tree *)

Definition CONFIG_EXCHANGES : string := "exchanges".
Definition CONFIG_CRYPTO_CURRENCIES : string := "crypto-currencies".
Definition CONFIG_CRYPTO_PAIRS : string := "pairs".
Definition CONFIG_EXCHANGE_SPOT : string := "spot".

(** An exchange entry.  [enabled] and [exchange-type] may be absent. *)
Record ExchangeConfig : Type := {
  ex_enabled : option bool;
  ex_type : option string
}.

(** A currency entry.  [enabled] may be absent; [pairs] is read with
    [data[CONFIG_CRYPTO_PAIRS]], which raises when the key is missing. *)
Record CurrencyData : Type := {
  cur_enabled : option bool;
  cur_pairs : option (list string)
}.

Definition exchanges_map : Type := list (string * ExchangeConfig).
Definition currencies_map : Type := list (string * CurrencyData).

(** [configuration.config] *)
Record dict_config : Type := {
  exchanges : option exchanges_map;
  crypto_currencies : option currencies_map
}.

(** [config.get(CONFIG_ENABLED_OPTION, True)] *)
Definition get_enabled (flag : option bool) : bool :=
  match flag with Some b => b | None => true end.

(** [config[CONFIG_ENABLED_OPTION] = False] *)
Definition disable_exchange (c : ExchangeConfig) : ExchangeConfig :=
  {| ex_enabled := Some false; ex_type := ex_type c |}.

Definition disable_currency (d : CurrencyData) : CurrencyData :=
  {| cur_enabled := Some false; cur_pairs := cur_pairs d |}.

(** [data[CONFIG_CRYPTO_PAIRS] = updated_symbols] *)
Definition set_pairs (d : CurrencyData) (l : list string) : CurrencyData :=
  {| cur_enabled := cur_enabled d; cur_pairs := Some l |}.

Definition set_exchanges (c : dict_config) (m : exchanges_map) : dict_config :=
  {| exchanges := Some m; crypto_currencies := crypto_currencies c |}.

Definition set_currencies (c : dict_config) (m : currencies_map) : dict_config :=
  {| exchanges := exchanges c; crypto_currencies := Some m |}.

(** ** Exchange limiter *)

(** The list comprehension of lines 25-29: one key [name[type]] per enabled
    entry. *)
Definition exchange_key (item : string * ExchangeConfig) : string :=
  fst item +++ "[" +++
  match ex_type (snd item) with Some t => t | None => CONFIG_EXCHANGE_SPOT end
  +++ "]".

Definition enabled_exchange_keys (m : exchanges_map) : list string :=
  map exchange_key (filter (fun item => get_enabled (ex_enabled (snd item))) m).

(** The loop of lines 32-38.  [enabled_exchanges] is the list built so far;
    the result is the mapping after the loop, the final [enabled_exchanges]
    and the lines sent to [logger.error]. *)
Fixpoint exchanges_loop (limit : Z) (enabled_exchanges : list string)
    (items : exchanges_map) : exchanges_map * list string * list string :=
  match items with
  | [] => ([], enabled_exchanges, [])
  | (exchange, config) :: rest =>
      if get_enabled (ex_enabled config) then
        if len enabled_exchanges <? limit then
          let '(rest', final, lines) :=
            exchanges_loop limit (enabled_exchanges ++ [exchange]) rest in
          ((exchange, config) :: rest', final, lines)
        else
          let '(rest', final, lines) :=
            exchanges_loop limit enabled_exchanges rest in
          ((exchange, disable_exchange config) :: rest', final,
           ("Disabled " +++ exchange) :: lines)
      else
        let '(rest', final, lines) :=
          exchanges_loop limit enabled_exchanges rest in
        ((exchange, config) :: rest', final, lines)
  end.

Definition exchanges_message (limit : Z) (enabled_exchanges : list string)
    : string :=
  "Reached maximum allowed simultaneous exchanges for this plan, maximum is "
  +++ str_int limit +++ ". "
  +++ "Your OctoBot will trade on the following exchanges: "
  +++ join ", " enabled_exchanges.

(** [_apply_exchanges_limits(dict_config, logger, limit)]: the configuration
    left behind, the lines logged, and the message or the exception. *)
Definition _apply_exchanges_limits (cfg : dict_config) (limit : Z)
    : dict_config * list string * result string :=
  match exchanges cfg with
  | None => (cfg, [], Raise (KeyError CONFIG_EXCHANGES))
  | Some m =>
      if len (enabled_exchange_keys m) >? limit then
        let '(m', enabled_exchanges, lines) := exchanges_loop limit [] m in
        (set_exchanges cfg m', lines,
         Ok (exchanges_message limit enabled_exchanges))
      else (cfg, [], Ok ""%string)
  end.

(** ** Time frames *)

(** Modelled from the spec: the [TimeFrames] enumeration of
    [octobot_commons.enums] (not under src/), the values the timeframe
    limiter sorts, compares and prints with [tf.value].  Section 4.1 orders
    them by duration; [TimeFramesMinutes] gives the duration. *)
Inductive TimeFrames : Type :=
| ONE_MINUTE | THREE_MINUTES | FIVE_MINUTES | FIFTEEN_MINUTES
| THIRTY_MINUTES | ONE_HOUR | TWO_HOURS | THREE_HOURS | FOUR_HOURS
| HEIGHT_HOURS | TWELVE_HOURS | ONE_DAY | THREE_DAYS | ONE_WEEK | ONE_MONTH.

Definition tf_value (tf : TimeFrames) : string :=
  match tf with
  | ONE_MINUTE => "1m" | THREE_MINUTES => "3m" | FIVE_MINUTES => "5m"
  | FIFTEEN_MINUTES => "15m" | THIRTY_MINUTES => "30m" | ONE_HOUR => "1h"
  | TWO_HOURS => "2h" | THREE_HOURS => "3h" | FOUR_HOURS => "4h"
  | HEIGHT_HOURS => "8h" | TWELVE_HOURS => "12h" | ONE_DAY => "1d"
  | THREE_DAYS => "3d" | ONE_WEEK => "1w" | ONE_MONTH => "1M"
  end.

Definition TimeFramesMinutes (tf : TimeFrames) : Z :=
  match tf with
  | ONE_MINUTE => 1 | THREE_MINUTES => 3 | FIVE_MINUTES => 5
  | FIFTEEN_MINUTES => 15 | THIRTY_MINUTES => 30 | ONE_HOUR => 60
  | TWO_HOURS => 120 | THREE_HOURS => 180 | FOUR_HOURS => 240
  | HEIGHT_HOURS => 480 | TWELVE_HOURS => 720 | ONE_DAY => 1440
  | THREE_DAYS => 4320 | ONE_WEEK => 10080 | ONE_MONTH => 43200
  end.

Definition TimeFrames_eq_dec (a b : TimeFrames) : {a = b} + {a <> b}.
Proof. decide equality. Defined.

Definition tf_eqb (a b : TimeFrames) : bool :=
  if TimeFrames_eq_dec a b then true else false.

(** [tf in l] *)
Definition tf_in (tf : TimeFrames) (l : list TimeFrames) : bool :=
  mem tf_eqb tf l.

(** Modelled from the spec: [time_frame_manager.sort_time_frames] of
    [octobot_commons] (not under src/): a new list, ascending by duration.
    Python's [sorted] is stable, and so is this insertion sort. *)
Fixpoint insert_time_frame (tf : TimeFrames) (l : list TimeFrames)
    : list TimeFrames :=
  match l with
  | [] => [tf]
  | x :: l' =>
      if TimeFramesMinutes tf <=? TimeFramesMinutes x then tf :: x :: l'
      else x :: insert_time_frame tf l'
  end.

Fixpoint sort_time_frames (l : list TimeFrames) : list TimeFrames :=
  match l with
  | [] => []
  | tf :: l' => insert_time_frame tf (sort_time_frames l')
  end.

(** ** Effects on the collaborators

    What a pass does to the outside world, in order: lines sent to the
    logger and calls of [evaluators_api.update_time_frames_config]. *)

Inductive event : Type :=
| LogError (line : string)
| LogException (err : exn) (line : string)
| UpdateTimeFramesConfig (strategy : string) (time_frames : list TimeFrames).

(** The activated strategies, in the order
    [get_activated_strategies_classes] lists them, each with the time frames
    [get_time_frames_from_strategy] reads for it;
    [update_time_frames_config] rewrites a strategy's entry. *)
Definition strategies_map : Type := list (string * list TimeFrames).

(** The configuration object: [configuration.config] and what the tentacle
    collaborators answer for it.  [None] stands for a collaborator that
    raises while the activated strategies are resolved. *)
Record Configuration : Type := {
  config : dict_config;
  tentacles : option strategies_map
}.

Definition limiter_result : Type :=
  (Configuration * list event * result string)%type.

Section Limits.

(** The constants the limiters read from modules that are not under src/. *)

(** [common_constants.CONFIG_SYMBOLS_WILDCARD[0]], the wildcard token.  Pairs
    are strings, so the second comparison of line 58, against the constant
    itself, is either this comparison again (a one-character string) or
    false (a list holding the token). *)
Variable CONFIG_WILDCARD : string.

(** [octobot.constants]: the sentinel and the three ceilings. *)
Variable UNLIMITED_ALLOWED : Z.
Variable MAX_ALLOWED_EXCHANGES : Z.
Variable MAX_ALLOWED_SYMBOLS : Z.
Variable MAX_ALLOWED_TIME_FRAMES : Z.

(** [list(s)] for a Python set [s]: the iteration order of a set is fixed by
    hashes, not by the program.  The set is given by its distinct members;
    the function lists them in the order the interpreter would. *)
Variable list_of_set : list TimeFrames -> list TimeFrames.

(** ** Symbol limiter *)

Definition is_wildcard (symbol : string) : bool :=
  String.eqb symbol CONFIG_WILDCARD.

(** The local variables of [_apply_symbols_limits] that survive an iteration
    of the outer loop, and the lines logged so far. *)
Record symbols_state : Type := {
  enabled_symbols : list string;
  has_disabled_symbols : bool;
  message : string;
  symbols_lines : list string
}.

(** What the inner loop (lines 56-69) leaves: the state, [updated_symbols],
    and whether it left through [break]. *)
Record scan_result : Type := {
  scan_state : symbols_state;
  updated_symbols : list string;
  wildcard_found : bool
}.

Fixpoint scan_pairs (limit : Z) (currency : string) (pairs : list string)
    (st : symbols_state) (updated : list string) : scan_result :=
  match pairs with
  | [] => {| scan_state := st; updated_symbols := updated;
             wildcard_found := false |}
  | symbol :: rest =>
      if is_wildcard symbol then
        {| scan_state :=
             {| enabled_symbols := enabled_symbols st;
                has_disabled_symbols := true;
                message := "Disabled wildcard symbol for " +++ currency +++ ". ";
                symbols_lines := symbols_lines st |};
           updated_symbols := updated;
           wildcard_found := true |}
      else if len (enabled_symbols st) <? limit then
        scan_pairs limit currency rest
          {| enabled_symbols := enabled_symbols st ++ [symbol];
             has_disabled_symbols := has_disabled_symbols st;
             message := message st;
             symbols_lines := symbols_lines st |}
          (updated ++ [symbol])
      else
        scan_pairs limit currency rest
          {| enabled_symbols := enabled_symbols st;
             has_disabled_symbols := true;
             message := message st;
             symbols_lines := symbols_lines st ++
               ["Disabled " +++ symbol +++ " trading pair from " +++ currency] |}
          updated
  end.

(** The outer loop (lines 48-70).  It stops at the first currency whose
    [pairs] key is missing; the currencies before it keep their changes and
    the ones after it are not reached. *)
Fixpoint symbols_loop (limit : Z) (items : currencies_map) (st : symbols_state)
    : currencies_map * symbols_state * option exn :=
  match items with
  | [] => ([], st, None)
  | (currency, data) :: rest =>
      if get_enabled (cur_enabled data) then
        if len (enabled_symbols st) >=? limit then
          let '(rest', final, err) :=
            symbols_loop limit rest
              {| enabled_symbols := enabled_symbols st;
                 has_disabled_symbols := true;
                 message := message st;
                 symbols_lines := symbols_lines st ++
                   ["Disabled all " +++ currency +++ " trading pairs"] |} in
          ((currency, disable_currency data) :: rest', final, err)
        else
          match cur_pairs data with
          | None => ((currency, data) :: rest, st,
                     Some (KeyError CONFIG_CRYPTO_PAIRS))
          | Some pairs =>
              let r := scan_pairs limit currency pairs st [] in
              let data' :=
                set_pairs
                  (if wildcard_found r then disable_currency data else data)
                  (updated_symbols r) in
              let '(rest', final, err) :=
                symbols_loop limit rest (scan_state r) in
              ((currency, data') :: rest', final, err)
          end
      else
        let '(rest', final, err) := symbols_loop limit rest st in
        ((currency, data) :: rest', final, err)
  end.

Definition symbols_init : symbols_state :=
  {| enabled_symbols := []; has_disabled_symbols := false;
     message := ""; symbols_lines := [] |}.

(** Lines 71-74. *)
Definition symbols_message (limit : Z) (st : symbols_state) : string :=
  if has_disabled_symbols st then
    message st +++
    "Reached maximum allowed simultaneous trading pairs for this plan, maximum is "
    +++ str_int limit +++ ". "
    +++ "Your OctoBot will trade following pairs: "
    +++ join ", " (enabled_symbols st) +++ "."
  else message st.

(** [_apply_symbols_limits(dict_config, logger, limit)] *)
Definition _apply_symbols_limits (cfg : dict_config) (limit : Z)
    : dict_config * list string * result string :=
  match crypto_currencies cfg with
  | None => (cfg, [], Raise (KeyError CONFIG_CRYPTO_CURRENCIES))
  | Some m =>
      let '(m', st, err) := symbols_loop limit m symbols_init in
      (set_currencies cfg m', symbols_lines st,
       match err with
       | Some e => Raise e
       | None => Ok (symbols_message limit st)
       end)
  end.

(** ** Timeframe limiter *)

(** [set(l)], given by its distinct members. *)
Definition set_of_list (l : list TimeFrames) : list TimeFrames :=
  nodup TimeFrames_eq_dec l.

(** Lines 86-106: the new [all_enabled_time_frames] and
    [has_disabled_time_frames] after one strategy's requirements. *)
Definition admit_time_frames (limit : Z)
    (all_enabled_time_frames : list TimeFrames)
    (has_disabled_time_frames : bool)
    (config_time_frames : list TimeFrames) : list TimeFrames * bool :=
  let combined_time_frames :=
    set_of_list (all_enabled_time_frames ++ config_time_frames) in
  if len combined_time_frames <? limit then
    (sort_time_frames (list_of_set combined_time_frames),
     has_disabled_time_frames)
  else if len combined_time_frames >? limit then
    if len all_enabled_time_frames =? limit then
      (all_enabled_time_frames, true)
    else
      let missing_tf :=
        sort_time_frames
          (filter (fun tf => negb (tf_in tf all_enabled_time_frames))
                  config_time_frames) in
      let added_time_frames :=
        slice_from (limit - len all_enabled_time_frames) missing_tf in
      (sort_time_frames (all_enabled_time_frames ++ added_time_frames), true)
  else (list_of_set combined_time_frames, has_disabled_time_frames).

(** Lines 109-113. *)
Definition strategy_enabled_time_frames
    (config_time_frames all_enabled_time_frames : list TimeFrames)
    : list TimeFrames :=
  filter (fun tf => tf_in tf all_enabled_time_frames) config_time_frames.

(** Lines 114-117: the time frames reported as disabled, one per iteration
    that logs. *)
Definition disabled_time_frames
    (config_time_frames enabled : list TimeFrames) : list TimeFrames :=
  filter (fun tf => negb (tf_in tf enabled)) config_time_frames.

Definition disabled_line (strategy : string) (tf : TimeFrames) : event :=
  LogError ("Disabled " +++ tf_value tf +++ " time frame for " +++ strategy).

(** [should_update_config] after the loop of lines 114-117. *)
Definition should_update_config
    (config_time_frames enabled : list TimeFrames) : bool :=
  existsb (fun tf => negb (tf_in tf enabled)) config_time_frames.

(** Lines 107-121 for one strategy: its entry afterwards and the effects. *)
Definition prune_strategy (all_enabled_time_frames : list TimeFrames)
    (strategy : string * list TimeFrames)
    : (string * list TimeFrames) * list event :=
  let '(name, config_time_frames) := strategy in
  let enabled :=
    strategy_enabled_time_frames config_time_frames all_enabled_time_frames in
  let lines :=
    map (disabled_line name) (disabled_time_frames config_time_frames enabled) in
  if should_update_config config_time_frames enabled then
    ((name, enabled), lines ++ [UpdateTimeFramesConfig name enabled])
  else (strategy, lines).

(** One iteration of the loop of lines 82-121: the strategy's entry
    afterwards, the effects, and the two loop variables. *)
Definition strategy_step (limit : Z)
    (all_enabled_time_frames : list TimeFrames)
    (has_disabled_time_frames : bool) (strategy : string * list TimeFrames)
    : (string * list TimeFrames) * list event * list TimeFrames * bool :=
  let '(all', flag') :=
    admit_time_frames limit all_enabled_time_frames
      has_disabled_time_frames (snd strategy) in
  let '(strategy', effects) :=
    if flag' then prune_strategy all' strategy else (strategy, []) in
  (strategy', effects, all', flag').

Fixpoint time_frames_loop (limit : Z) (strategies : strategies_map)
    (all_enabled_time_frames : list TimeFrames)
    (has_disabled_time_frames : bool)
    : strategies_map * list event * list TimeFrames * bool :=
  match strategies with
  | [] => ([], [], all_enabled_time_frames, has_disabled_time_frames)
  | strategy :: rest =>
      let '(strategy', effects, all', flag') :=
        strategy_step limit all_enabled_time_frames
          has_disabled_time_frames strategy in
      let '(rest', effects', final, final_flag) :=
        time_frames_loop limit rest all' flag' in
      (strategy' :: rest', effects ++ effects', final, final_flag)
  end.

(** Lines 122-126. *)
Definition time_frames_message (limit : Z)
    (all_enabled_time_frames : list TimeFrames) (flag : bool) : string :=
  if flag then
    "Reached maximum allowed simultaneous time frames for this plan, maximum is "
    +++ str_int limit +++ ". "
    +++ "Your OctoBot will trade using following time frames: "
    +++ join ", " (map tf_value all_enabled_time_frames) +++ "."
  else "".

(** [_apply_time_frames_limits(full_config, logger, limit)] *)
Definition _apply_time_frames_limits (full_config : Configuration) (limit : Z)
    : limiter_result :=
  match tentacles full_config with
  | None =>
      (full_config, [],
       Raise (CollaboratorError "get_activated_strategies_classes"))
  | Some strategies =>
      let '(strategies', effects, final, flag) :=
        time_frames_loop limit strategies [] false in
      ({| config := config full_config; tentacles := Some strategies' |},
       effects, Ok (time_frames_message limit final flag))
  end.

(** ** Orchestrator *)

(** The exchange and symbol limiters receive [configuration.config]. *)
Definition on_dict_config
    (limiter : dict_config -> Z -> dict_config * list string * result string)
    (limit : Z) (configuration : Configuration) : limiter_result :=
  let '(cfg', lines, r) := limiter (config configuration) limit in
  ({| config := cfg'; tentacles := tentacles configuration |},
   map LogError lines, r).

(** What the body of the [try] has reached: the configuration, the effects
    so far and [limit_warning_messages]. *)
Record pass_state : Type := {
  pass_configuration : Configuration;
  pass_effects : list event;
  limit_warning_messages : list string
}.

(** One guarded statement of the [try] body (lines 133-135, 136-138 and
    139-141): run the limiter unless its ceiling is the sentinel, append a
    message that is not empty.  An exception leaves the body. *)
Definition guarded_limiter (ceiling : Z)
    (limiter : Z -> Configuration -> limiter_result) (s : pass_state)
    : pass_state * option exn :=
  if ceiling =? UNLIMITED_ALLOWED then (s, None)
  else
    let '(configuration', effects, r) :=
      limiter ceiling (pass_configuration s) in
    match r with
    | Ok msg =>
        ({| pass_configuration := configuration';
            pass_effects := pass_effects s ++ effects;
            limit_warning_messages :=
              if truthy msg then limit_warning_messages s ++ [msg]
              else limit_warning_messages s |}, None)
    | Raise err =>
        ({| pass_configuration := configuration';
            pass_effects := pass_effects s ++ effects;
            limit_warning_messages := limit_warning_messages s |}, Some err)
    end.

(** Lines 132-141: the three statements in sequence; the first exception
    skips what follows it. *)
Definition try_body (s : pass_state) : pass_state * option exn :=
  let '(s1, e1) :=
    guarded_limiter MAX_ALLOWED_EXCHANGES
      (on_dict_config _apply_exchanges_limits) s in
  match e1 with
  | Some err => (s1, Some err)
  | None =>
      let '(s2, e2) :=
        guarded_limiter MAX_ALLOWED_SYMBOLS
          (on_dict_config _apply_symbols_limits) s1 in
      match e2 with
      | Some err => (s2, Some err)
      | None =>
          guarded_limiter MAX_ALLOWED_TIME_FRAMES
            (fun limit c => _apply_time_frames_limits c limit) s2
      end
  end.

(** [apply_config_limits(configuration)]: the configuration afterwards, the
    effects of the pass and the returned list. *)
Definition apply_config_limits (configuration : Configuration)
    : Configuration * list event * list string :=
  let '(s, raised) :=
    try_body {| pass_configuration := configuration; pass_effects := [];
                limit_warning_messages := [] |} in
  let handled :=
    match raised with
    | Some err =>
        [LogException err ("Error when applying limits: " +++ exn_str err)]
    | None => []
    end in
  (pass_configuration s,
   pass_effects s ++ handled ++ map LogError (limit_warning_messages s),
   limit_warning_messages s).

End Limits.

(** * Command-line arguments: [octobot/cli.py]

    [update_config_with_args] writes into sections of [configuration.config]
    that the limiters do not read.  For it the configuration dict is a dict
    of JSON-like values; a missing section raises [KeyError] and a section
    that is not a dict raises [TypeError], in both cases after the earlier
    assignments have been made. *)

Set Warnings "-register-all".

Inductive value : Type :=
| VNone
| VBool (b : bool)
| VInt (n : Z)
| VFloat (f : PrimFloat.float)
| VStr (s : string)
| VList (l : list value)
| VDict (d : list (string * value)).

Definition pydict : Type := list (string * value).

(** [d.get(key)], [None] for a missing key. *)
Fixpoint dict_get (key : string) (d : pydict) : option value :=
  match d with
  | [] => None
  | (k, v) :: d' => if String.eqb key k then Some v else dict_get key d'
  end.

(** [d[key] = v]: an existing key keeps its place, a new key goes last. *)
Fixpoint dict_set (key : string) (v : value) (d : pydict) : pydict :=
  match d with
  | [] => [(key, v)]
  | (k, v') :: d' =>
      if String.eqb key k then (k, v) :: d' else (k, v') :: dict_set key v d'
  end.

Inductive config_exn : Type :=
| ConfigKeyError (key : string)
| ConfigTypeError (key : string).

(** A statement on the configuration: the configuration it leaves, and
    whether it raised. *)
Definition statement : Type := pydict -> pydict * option config_exn.

Definition skip : statement := fun cfg => (cfg, None).

(** [first] then [second]; an exception ends the sequence. *)
Definition then_do (first second : statement) : statement :=
  fun cfg =>
    match first cfg with
    | (cfg', None) => second cfg'
    | (cfg', Some err) => (cfg', Some err)
    end.

Notation "s1 ;; s2" := (then_do s1 s2) (at level 61, right associativity).

Definition when (condition : bool) (body : statement) : statement :=
  if condition then body else skip.

(** [config.config[section][key] = v] *)
Definition assign (section key : string) (v : value) : statement :=
  fun cfg =>
    match dict_get section cfg with
    | None => (cfg, Some (ConfigKeyError section))
    | Some (VDict d) =>
        (dict_set section (VDict (dict_set key v d)) cfg, None)
    | Some _ => (cfg, Some (ConfigTypeError section))
    end.

(** [config.config[section][key]] read back, where there is such a cell. *)
Definition cell (section key : string) (cfg : pydict) : option value :=
  match dict_get section cfg with
  | Some (VDict d) => dict_get key d
  | _ => None
  end.

(** The attributes of [starting_args] that [update_config_with_args]
    reads. *)
Record starting_args : Type := {
  args_backtesting : bool;
  args_backtesting_files : option (list string);
  args_simulate : bool;
  args_risk : option PrimFloat.float
}.

(** [0 < risk <= 1] on Python floats (IEEE 754 doubles). *)
Definition risk_in_range (risk : PrimFloat.float) : bool :=
  PrimFloat.ltb PrimFloat.zero risk && PrimFloat.leb risk PrimFloat.one.

Section CommandLine.

(** Keys of [octobot_commons.constants] and
    [octobot_backtesting.constants], which are not under src/. *)
Variable CONFIG_BACKTESTING : string.
Variable CONFIG_BACKTESTING_DATA_FILES : string.
Variable CONFIG_ENABLED_OPTION : string.
Variable CONFIG_TRADER : string.
Variable CONFIG_SIMULATOR : string.
Variable CONFIG_TRADING : string.
Variable CONFIG_TRADER_RISK : string.

(** Lines 55-56 and 59-60. *)
Definition simulator_only : statement :=
  assign CONFIG_TRADER CONFIG_ENABLED_OPTION (VBool false) ;;
  assign CONFIG_SIMULATOR CONFIG_ENABLED_OPTION (VBool true).

(** [update_config_with_args(starting_args, config, logger)] *)
Definition update_config_with_args (args : starting_args) : statement :=
  when (args_backtesting args)
    (match args_backtesting_files args with
     | Some (file :: files) =>
         assign CONFIG_BACKTESTING CONFIG_BACKTESTING_DATA_FILES
           (VList (map VStr (file :: files)))
     | _ => skip
     end ;;
     assign CONFIG_BACKTESTING CONFIG_ENABLED_OPTION (VBool true) ;;
     simulator_only) ;;
  when (args_simulate args) simulator_only ;;
  match args_risk args with
  | Some risk =>
      when (risk_in_range risk)
        (assign CONFIG_TRADING CONFIG_TRADER_RISK (VFloat risk))
  | None => skip
  end.

End CommandLine.

(** ** Vocabulary of the properties *)

(** *** Exchanges and currencies *)

Definition exchange_enabled (item : string * ExchangeConfig) : bool :=
  get_enabled (ex_enabled (snd item)).

(** The enabled entries of an exchange mapping, in iteration order. *)
Definition enabled_entries (m : exchanges_map) : exchanges_map :=
  filter exchange_enabled m.

Definition currency_enabled (item : string * CurrencyData) : bool :=
  get_enabled (cur_enabled (snd item)).

Definition pairs_of (d : CurrencyData) : list string :=
  match cur_pairs d with Some l => l | None => [] end.

(** Total number of pairs of the currencies that are enabled. *)
Fixpoint enabled_pairs_count (m : currencies_map) : Z :=
  match m with
  | [] => 0
  | item :: m' =>
      (if currency_enabled item then len (pairs_of (snd item)) else 0)
      + enabled_pairs_count m'
  end.

Definition has_wildcard (wildcard : string) (d : CurrencyData) : bool :=
  existsb (is_wildcard wildcard) (pairs_of d).

(** Every currency entry carries its [pairs] key (the data model of the
    configuration tree). *)
Definition has_pairs (item : string * CurrencyData) : Prop :=
  cur_pairs (snd item) <> None.

(** An entry keeps its name, and a false flag stays false. *)
Definition exchange_not_reenabled (a b : string * ExchangeConfig) : Prop :=
  fst a = fst b /\
  (ex_enabled (snd a) = Some false -> ex_enabled (snd b) = Some false).

Definition currency_not_reenabled (a b : string * CurrencyData) : Prop :=
  fst a = fst b /\
  (cur_enabled (snd a) = Some false -> cur_enabled (snd b) = Some false).

(** Entry by entry, over a key that may be missing. *)
Definition entrywise {A : Type} (R : A -> A -> Prop)
    (before after : option (list A)) : Prop :=
  match before, after with
  | Some m, Some m' => Forall2 R m m'
  | None, None => True
  | _, _ => False
  end.

Definition no_reenable (before after : dict_config) : Prop :=
  entrywise exchange_not_reenabled (exchanges before) (exchanges after) /\
  entrywise currency_not_reenabled
    (crypto_currencies before) (crypto_currencies after).

(** *** The scan of a pair list *)

(** The pairs of a pair list that the scan meets before the first wildcard
    token. *)
Fixpoint before_wildcard (wildcard : string) (pairs : list string)
    : list string :=
  match pairs with
  | [] => []
  | symbol :: rest =>
      if is_wildcard wildcard symbol then []
      else symbol :: before_wildcard wildcard rest
  end.

(** The line logged for a pair that does not fit (line 69). *)
Definition rejected_pair_line (currency symbol : string) : string :=
  "Disabled " +++ symbol +++ " trading pair from " +++ currency.

(** The note left by a wildcard (line 60). *)
Definition wildcard_note (currency : string) : string :=
  "Disabled wildcard symbol for " +++ currency +++ ". ".

Definition is_nil {A : Type} (l : list A) : bool :=
  match l with [] => true | _ => false end.

(** Lines 72-73, around the list of accepted symbols. *)
Definition symbols_summary (limit : Z) (accepted : list string) : string :=
  "Reached maximum allowed simultaneous trading pairs for this plan, maximum is "
  +++ str_int limit +++ ". "
  +++ "Your OctoBot will trade following pairs: "
  +++ join ", " accepted +++ ".".

(** The pairs scanned before a wildcard, for a currency reached in state
    [st], read without regard to the ceiling: all of them are accepted, and
    they are the stored pair list afterwards. *)
Definition prefix_admitted (wildcard : string) (limit : Z)
    (currency : string) (pairs : list string) (st : symbols_state) : Prop :=
  let r := scan_pairs wildcard limit currency pairs st [] in
  enabled_symbols (scan_state r) =
    enabled_symbols st ++ before_wildcard wildcard pairs /\
  updated_symbols r = before_wildcard wildcard pairs.

(** *** Time frames *)

(** Ascending duration order. *)
Definition duration_le (a b : TimeFrames) : Prop :=
  TimeFramesMinutes a <= TimeFramesMinutes b.

Definition in_duration_order (l : list TimeFrames) : Prop :=
  Sorted duration_le l.

(** The missing list of lines 96-100. *)
Definition missing_time_frames (all config_time_frames : list TimeFrames)
    : list TimeFrames :=
  sort_time_frames
    (filter (fun tf => negb (tf_in tf all)) config_time_frames).

(** What line 101 admits. *)
Definition admitted_by_code (limit : Z)
    (all config_time_frames : list TimeFrames) : list TimeFrames :=
  slice_from (limit - len all) (missing_time_frames all config_time_frames).

(** The last [n] elements of a list. *)
Definition last_n {A : Type} (n : nat) (l : list A) : list A :=
  skipn (List.length l - n) l.

(** What the specification admits: the tail of the ascending missing list
    of length [ceiling - |aggregate|]. *)
Definition admitted_per_spec (limit : Z)
    (all config_time_frames : list TimeFrames) : list TimeFrames :=
  last_n (Z.to_nat (limit - len all))
    (missing_time_frames all config_time_frames).

(** Two iteration orders a set may have: the order in which [set_of_list]
    holds the members, and the reverse of the duration order. *)
Definition stored_order (s : list TimeFrames) : list TimeFrames := s.

Definition longest_first (s : list TimeFrames) : list TimeFrames :=
  rev (sort_time_frames s).

(** *** A pass *)

(** The sentinel of [octobot.constants]. *)
Definition unlimited : Z := -1.

(** The line of [logger.exception] (line 143). *)
Definition exception_line (err : exn) : event :=
  LogException err ("Error when applying limits: " +++ exn_str err).

(** What the specification says when the exchange limiter raises: the
    symbol limiter has still been applied to the configuration and its
    message is among the returned ones. *)
Definition symbols_still_enforced (wildcard : string)
    (unlimited max_exchanges max_symbols max_time_frames : Z)
    (order : list TimeFrames -> list TimeFrames)
    (configuration : Configuration) : Prop :=
  let '(after, _, messages) :=
    apply_config_limits wildcard unlimited max_exchanges max_symbols
      max_time_frames order configuration in
  let '(cfg', _, r) :=
    _apply_symbols_limits wildcard (config configuration) max_symbols in
  config after = cfg' /\
  forall msg : string, r = Ok msg -> truthy msg = true -> In msg messages.

(** A limiter that has nothing left to do on a configuration. *)
Definition settled
    (limiter : dict_config -> Z -> dict_config * list string * result string)
    (ceiling : Z) (cfg : dict_config) : Prop :=
  fst (limiter cfg ceiling) = (cfg, []) /\
  (snd (limiter cfg ceiling) = Ok ""%string \/
   exists err : exn, snd (limiter cfg ceiling) = Raise err).

(** ** Concrete configurations *)

Definition enabled_exchange : ExchangeConfig :=
  {| ex_enabled := Some true; ex_type := None |}.

(** Scenario 1: three enabled exchanges. *)
Definition three_exchanges : exchanges_map :=
  [("A"%string, enabled_exchange); ("B"%string, enabled_exchange);
   ("C"%string, enabled_exchange)].

Definition three_exchanges_config : dict_config :=
  {| exchanges := Some three_exchanges; crypto_currencies := None |}.

(** Scenario 2: one enabled currency with three pairs. *)
Definition btc_three_pairs : currencies_map :=
  [("BTC"%string,
    {| cur_enabled := Some true;
       cur_pairs := Some ["BTC/USD"; "BTC/EUR"; "BTC/JPY"]%string |})].

Definition btc_three_pairs_config : dict_config :=
  {| exchanges := None; crypto_currencies := Some btc_three_pairs |}.

(** One enabled currency: two pairs, then the wildcard. *)
Definition btc_then_wildcard : currencies_map :=
  [("BTC"%string,
    {| cur_enabled := Some true;
       cur_pairs := Some ["BTC/USD"; "BTC/EUR"; "*"]%string |})].

Definition btc_then_wildcard_config : dict_config :=
  {| exchanges := None; crypto_currencies := Some btc_then_wildcard |}.

(** A configuration without the [exchanges] key and with more pairs than a
    ceiling of 2 allows. *)
Definition no_exchanges_key : Configuration :=
  {| config := btc_three_pairs_config; tentacles := Some [] |}.

(** Scenario 4: [S1] requires 1m and 1h, [S2] requires 1h, 1d and 1w. *)
Definition two_strategies : strategies_map :=
  [("S1"%string, [ONE_MINUTE; ONE_HOUR]);
   ("S2"%string, [ONE_HOUR; ONE_DAY; ONE_WEEK])].

Definition empty_dict_config : dict_config :=
  {| exchanges := None; crypto_currencies := None |}.

(** One activated strategy, [S1], with the time frames it requires. *)
Definition one_strategy (time_frames : list TimeFrames) : Configuration :=
  {| config := empty_dict_config;
     tentacles := Some [("S1"%string, time_frames)] |}.

(** [S1] requires 1m and 1h, [S2] requires 1d. *)
Definition short_then_long : Configuration :=
  {| config := empty_dict_config;
     tentacles := Some [("S1"%string, [ONE_MINUTE; ONE_HOUR]);
                        ("S2"%string, [ONE_DAY])] |}.

(** Three exchanges, one currency with three pairs, one strategy. *)
Definition over_provisioned (time_frames : list TimeFrames) : Configuration :=
  {| config := {| exchanges := Some three_exchanges;
                  crypto_currencies := Some btc_three_pairs |};
     tentacles := Some [("S1"%string, time_frames)] |}.

(** [over_provisioned] once the exchange ceiling 2 and the symbol ceiling 2
    have been applied. *)
Definition trimmed (time_frames : list TimeFrames) : Configuration :=
  {| config :=
       {| exchanges :=
            Some [("A"%string, enabled_exchange);
                  ("B"%string, enabled_exchange);
                  ("C"%string, disable_exchange enabled_exchange)];
          crypto_currencies :=
            Some [("BTC"%string,
                   {| cur_enabled := Some true;
                      cur_pairs := Some ["BTC/USD"; "BTC/EUR"]%string |})] |};
     tentacles := Some [("S1"%string, time_frames)] |}.

(** ** Vocabulary of the further properties *)

(** The line logged for an exchange that is switched off (line 38). *)
Definition disabled_exchange_line (item : string * ExchangeConfig) : string :=
  "Disabled " +++ fst item.

(** Same name and same market type. *)
Definition same_exchange (a b : string * ExchangeConfig) : Prop :=
  fst a = fst b /\ ex_type (snd a) = ex_type (snd b).

(** The line logged for a currency switched off at full capacity
    (line 52). *)
Definition disabled_currency_line (item : string * CurrencyData) : string :=
  "Disabled all " +++ fst item +++ " trading pairs".

Definition disable_if_enabled (item : string * CurrencyData)
    : string * CurrencyData :=
  if currency_enabled item then (fst item, disable_currency (snd item))
  else item.

(** Same name, and the pair list afterwards is a prefix of the pair list
    before (a missing [pairs] key stays missing). *)
Definition pairs_prefix (a b : string * CurrencyData) : Prop :=
  fst a = fst b /\
  match cur_pairs (snd a), cur_pairs (snd b) with
  | Some before, Some after => exists dropped, before = after ++ dropped
  | None, None => True
  | _, _ => False
  end.

(** An enabled currency with a pair list that holds no wildcard. *)
Definition clean_currency (wildcard : string)
    (item : string * CurrencyData) : Prop :=
  currency_enabled item = true ->
  exists pairs,
    cur_pairs (snd item) = Some pairs /\
    existsb (is_wildcard wildcard) pairs = false.

(** Same name, and the time frames afterwards are those of before that
    pass some test, in the same order. *)
Definition time_frames_filtered (a b : string * list TimeFrames) : Prop :=
  fst a = fst b /\
  exists keep : TimeFrames -> bool, snd b = filter keep (snd a).

(** Every time frame some strategy requires. *)
Definition all_required (strategies : strategies_map) : list TimeFrames :=
  List.concat (map snd strategies).

(** The aggregate and the flag once the requirements of [strategies] have
    been admitted one after the other (lines 86-106 only), starting from the
    empty aggregate with the flag not set. *)
Definition aggregate_state
    (list_of_set : list TimeFrames -> list TimeFrames) (limit : Z)
    (strategies : strategies_map) : list TimeFrames * bool :=
  fold_left
    (fun state strategy =>
       admit_time_frames list_of_set limit (fst state) (snd state)
         (snd strategy))
    strategies ([], false).


(** Three currencies, the second without its [pairs] key. *)
Definition eth_without_pairs : currencies_map :=
  [("BTC"%string,
    {| cur_enabled := Some true;
       cur_pairs := Some ["BTC/USD"; "BTC/EUR"]%string |});
   ("ETH"%string, {| cur_enabled := None; cur_pairs := None |});
   ("XRP"%string,
    {| cur_enabled := None; cur_pairs := Some ["XRP/USD"; "*"]%string |})].

Definition eth_without_pairs_config : dict_config :=
  {| exchanges := None; crypto_currencies := Some eth_without_pairs |}.


(** A statement that changes no cell outside [cells], whether it returns or
    raises. *)
Definition writes_only (st : statement) (cells : list (string * string))
    : Prop :=
  forall (cfg cfg' : pydict) (raised : option config_exn)
         (section key : string),
    st cfg = (cfg', raised) ->
    ~ In (section, key) cells ->
    cell section key cfg' = cell section key cfg.

(** A statement that keeps the sections of the configuration in place and
    leaves every section outside [sections] as it was. *)
Definition keeps_sections (st : statement) (sections : list string) : Prop :=
  forall (cfg cfg' : pydict) (raised : option config_exn),
    st cfg = (cfg', raised) ->
    map fst cfg' = map fst cfg /\
    forall section, ~ In section sections ->
      dict_get section cfg' = dict_get section cfg.

(** The keys of [octobot_commons] and [octobot_backtesting] as those
    libraries define them. *)
Definition real_update (args : starting_args) : statement :=
  update_config_with_args "backtesting" "files" "enabled" "trader"
    "trader-simulator" "trading" "risk" args.

(** A configuration with the four sections, real trading switched on. *)
Definition live_config : pydict :=
  [("backtesting"%string,
    VDict [("enabled"%string, VBool false);
           ("files"%string, VList [VStr "old.data"])]);
   ("trader"%string, VDict [("enabled"%string, VBool true)]);
   ("trader-simulator"%string, VDict [("enabled"%string, VBool false)]);
   ("trading"%string, VDict [("risk"%string, VFloat PrimFloat.one)]);
   ("exchanges"%string, VDict [])].

(** The same without the [trader] section. *)
Definition no_trader_config : pydict :=
  [("backtesting"%string, VDict [("enabled"%string, VBool false)]);
   ("trader-simulator"%string, VDict [("enabled"%string, VBool false)])].

Definition half : PrimFloat.float :=
  PrimFloat.div PrimFloat.one PrimFloat.two.

Definition backtesting_args : starting_args :=
  {| args_backtesting := true;
     args_backtesting_files := Some ["new.data"%string];
     args_simulate := false;
     args_risk := Some half |}.


(** The cells [simulator_only] and [update_config_with_args] assign to. *)
Definition simulator_cells (enabled trader simulator : string)
    : list (string * string) :=
  [(trader, enabled); (simulator, enabled)].

Definition update_cells
    (backtesting files enabled trader simulator trading risk : string)
    : list (string * string) :=
  [(backtesting, files); (backtesting, enabled); (trader, enabled);
   (simulator, enabled); (trading, risk)].


(** * Properties *)

(** ** Lists and lengths *)

Lemma len_nil {A : Type} : len (@nil A) = 0.
Proof. reflexivity. Qed.

Lemma len_cons {A : Type} (x : A) (l : list A) : len (x :: l) = 1 + len l.
Proof. unfold len. simpl List.length. lia. Qed.

Lemma len_app {A : Type} (l1 l2 : list A) : len (l1 ++ l2) = len l1 + len l2.
Proof. unfold len. rewrite length_app. lia. Qed.

Lemma len_nonneg {A : Type} (l : list A) : 0 <= len l.
Proof. unfold len. lia. Qed.

Lemma len_firstn_le {A : Type} (n : nat) (l : list A) :
  len (firstn n l) <= Z.of_nat n.
Proof. unfold len. pose proof (firstn_le_length n l). lia. Qed.

Lemma Forall2_same {A : Type} (R : A -> A -> Prop) (l : list A) :
  (forall a, R a a) -> Forall2 R l l.
Proof. intros HR. induction l; constructor; auto. Qed.

Lemma Forall2_chain {A : Type} (R : A -> A -> Prop) :
  (forall a b c, R a b -> R b c -> R a c) ->
  forall l1 l2 l3 : list A,
    Forall2 R l1 l2 -> Forall2 R l2 l3 -> Forall2 R l1 l3.
Proof.
  intros HR l1 l2 l3 H12. revert l3.
  induction H12 as [|a b l1 l2 Hab _ IH]; intros l3 H23;
    inversion H23; subst; constructor; eauto.
Qed.

Lemma exchange_not_reenabled_refl (a : string * ExchangeConfig) :
  exchange_not_reenabled a a.
Proof. split; auto. Qed.

Lemma currency_not_reenabled_refl (a : string * CurrencyData) :
  currency_not_reenabled a a.
Proof. split; auto. Qed.

(** ** Exchange limiter *)

Lemma enabled_exchange_keys_len (m : exchanges_map) :
  len (enabled_exchange_keys m) = len (enabled_entries m).
Proof.
  unfold enabled_exchange_keys, enabled_entries, len.
  now rewrite length_map.
Qed.

Lemma enabled_entries_cons (item : string * ExchangeConfig)
    (m : exchanges_map) :
  enabled_entries (item :: m) =
  if exchange_enabled item then item :: enabled_entries m
  else enabled_entries m.
Proof. reflexivity. Qed.

(** What the loop of lines 32-38 computes from any [enabled_exchanges]:
    [room] entries are still admitted, the others are switched off. *)
Lemma exchanges_loop_spec (limit : Z) (items : exchanges_map) :
  forall acc : list string,
    let room := Z.to_nat (limit - len acc) in
    let '(m', final, _) := exchanges_loop limit acc items in
    final = acc ++ map fst (firstn room (enabled_entries items)) /\
    enabled_entries m' = firstn room (enabled_entries items) /\
    List.length m' = List.length items /\
    forall (i : nat) (item : string * ExchangeConfig),
      nth_error items i = Some item ->
      nth_error m' i =
        Some (if exchange_enabled item &&
                 (limit <=? len acc + len (enabled_entries (firstn i items)))
              then (fst item, disable_exchange (snd item))
              else item).
Proof.
  induction items as [|[exchange config] rest IH]; intros acc room.
  - subst room. unfold enabled_entries. simpl.
    rewrite firstn_nil. simpl. rewrite app_nil_r. repeat split; auto.
    intros [|i] item H; discriminate H.
  - simpl exchanges_loop. rewrite enabled_entries_cons.
    change (get_enabled (ex_enabled config))
      with (exchange_enabled (exchange, config)).
    destruct (exchange_enabled (exchange, config)) eqn:Hen.
    + destruct (len acc <? limit) eqn:Hlt.
      * apply Z.ltb_lt in Hlt.
        specialize (IH (acc ++ [exchange])).
        destruct (exchanges_loop limit (acc ++ [exchange]) rest)
          as [[rest' final] lines].
        cbv zeta in IH. rewrite len_app, len_cons, len_nil in IH.
        assert (Hroom : room = S (Z.to_nat (limit - (len acc + (1 + 0))))).
        { subst room. lia. }
        destruct IH as (Hfin & Hent & Hlen & Hnth).
        rewrite Hroom, enabled_entries_cons, Hen, !firstn_cons.
        repeat split.
        -- rewrite Hfin, <- app_assoc. reflexivity.
        -- now rewrite Hent.
        -- simpl. now rewrite Hlen.
        -- intros [|i] item Hi; simpl in Hi.
           ++ injection Hi as <-. simpl nth_error. rewrite firstn_0.
              change (enabled_entries []) with (@nil (string * ExchangeConfig)).
              rewrite len_nil, Hen.
              replace (limit <=? len acc + 0) with false
                by (symmetry; apply Z.leb_gt; lia).
              reflexivity.
           ++ simpl nth_error. rewrite (Hnth i item Hi).
              rewrite firstn_cons, enabled_entries_cons, Hen, len_cons.
              replace (len acc + (1 + 0) + len (enabled_entries (firstn i rest)))
                with (len acc + (1 + len (enabled_entries (firstn i rest))))
                by lia.
              reflexivity.
      * apply Z.ltb_ge in Hlt.
        specialize (IH acc).
        destruct (exchanges_loop limit acc rest) as [[rest' final] lines].
        cbv zeta in IH.
        assert (Hroom : Z.to_nat (limit - len acc) = 0%nat) by lia.
        subst room. rewrite Hroom in *.
        destruct IH as (Hfin & Hent & Hlen & Hnth).
        rewrite firstn_0 in *.
        rewrite enabled_entries_cons.
        change (exchange_enabled (exchange, disable_exchange config))
          with false.
        cbv iota.
        repeat split; auto.
        -- simpl. now rewrite Hlen.
        -- intros [|i] item Hi; simpl in Hi.
           ++ injection Hi as <-. simpl nth_error. rewrite firstn_0.
              change (enabled_entries []) with (@nil (string * ExchangeConfig)).
              rewrite len_nil, Hen.
              replace (limit <=? len acc + 0) with true
                by (symmetry; apply Z.leb_le; lia).
              reflexivity.
           ++ simpl nth_error. rewrite (Hnth i item Hi).
              destruct (exchange_enabled item); [|reflexivity].
              simpl andb.
              repeat match goal with
              | |- context [limit <=? len acc + len ?l] =>
                  replace (limit <=? len acc + len l) with true
                    by (symmetry; apply Z.leb_le;
                        pose proof (len_nonneg l); lia)
              end.
              reflexivity.
    + specialize (IH acc).
      destruct (exchanges_loop limit acc rest) as [[rest' final] lines].
      cbv zeta in IH. fold room in IH.
      destruct IH as (Hfin & Hent & Hlen & Hnth).
      rewrite enabled_entries_cons, Hen.
      repeat split; auto.
      * simpl. now rewrite Hlen.
      * intros [|i] item Hi; simpl in Hi.
        -- injection Hi as <-. simpl nth_error. rewrite Hen. reflexivity.
        -- simpl nth_error. rewrite (Hnth i item Hi).
           rewrite firstn_cons, enabled_entries_cons, Hen. reflexivity.
Qed.

(** C6.  Exchange limiter, for every exchange mapping and every ceiling (in
    particular every ceiling of at least 1).  When the number of enabled
    entries (a missing flag counts as enabled) is at most the ceiling, the
    configuration is unchanged and the message is empty.  Otherwise the
    entries left enabled are exactly the first [limit] entries that were
    enabled, in iteration order; every enabled entry after them is the same
    entry with its flag set to false and every other entry is untouched; the
    message names the ceiling and the retained exchanges in that order. *)
Theorem C6_exchanges_limiter (cfg : dict_config) (m : exchanges_map)
    (limit : Z) :
  exchanges cfg = Some m ->
  (len (enabled_entries m) <= limit ->
   _apply_exchanges_limits cfg limit = (cfg, [], Ok ""%string)) /\
  (limit < len (enabled_entries m) ->
   exists (m' : exchanges_map) (lines : list string),
     _apply_exchanges_limits cfg limit =
       (set_exchanges cfg m', lines,
        Ok (exchanges_message limit
              (map fst (firstn (Z.to_nat limit) (enabled_entries m))))) /\
     enabled_entries m' = firstn (Z.to_nat limit) (enabled_entries m) /\
     List.length m' = List.length m /\
     forall (i : nat) (item : string * ExchangeConfig),
       nth_error m i = Some item ->
       nth_error m' i =
         Some (if exchange_enabled item &&
                  (limit <=? len (enabled_entries (firstn i m)))
               then (fst item, disable_exchange (snd item))
               else item)).
Proof.
  intros Hm. unfold _apply_exchanges_limits. rewrite Hm.
  rewrite enabled_exchange_keys_len. split; intros Hcount.
  - replace (len (enabled_entries m) >? limit) with false; [reflexivity|].
    symmetry. rewrite Z.gtb_ltb. apply Z.ltb_ge. exact Hcount.
  - replace (len (enabled_entries m) >? limit) with true
      by (symmetry; rewrite Z.gtb_ltb; apply Z.ltb_lt; exact Hcount).
    pose proof (exchanges_loop_spec limit m []) as H.
    destruct (exchanges_loop limit [] m) as [[m' final] lines].
    cbv zeta in H. rewrite len_nil, Z.sub_0_r in H.
    destruct H as (Hfin & Hent & Hlen & Hnth).
    exists m', lines. simpl in Hfin. subst final.
    repeat split; auto.
Qed.

(** Scenario 1 of the specification: [A], [B], [C] enabled, ceiling 2. *)
Lemma C6_exchanges_limiter_witness :
  exists (m' : exchanges_map) (lines : list string),
    _apply_exchanges_limits three_exchanges_config 2 =
      (set_exchanges three_exchanges_config m', lines,
       Ok (exchanges_message 2 ["A"; "B"]%string)) /\
    enabled_entries m' = firstn 2 three_exchanges.
Proof.
  destruct (C6_exchanges_limiter three_exchanges_config three_exchanges 2
              eq_refl) as [_ H].
  destruct (H ltac:(reflexivity)) as (m' & lines & H1 & H2 & _).
  exists m', lines. split; [exact H1 | exact H2].
Defined.

(** ** Symbol limiter *)

Section SymbolLimiter.

Variable CONFIG_WILDCARD : string.

(** The inner loop only appends to [enabled_symbols], appends the same
    symbols to [updated_symbols], never goes past the ceiling, and leaves
    through [break] exactly when the pair list holds a wildcard. *)
Lemma scan_pairs_spec (limit : Z) (currency : string) (pairs : list string) :
  forall (st : symbols_state) (updated : list string),
    let r := scan_pairs CONFIG_WILDCARD limit currency pairs st updated in
    exists new : list string,
      enabled_symbols (scan_state r) = enabled_symbols st ++ new /\
      updated_symbols r = updated ++ new /\
      (len (enabled_symbols st) <= limit ->
       len (enabled_symbols st ++ new) <= limit) /\
      wildcard_found r = existsb (is_wildcard CONFIG_WILDCARD) pairs.
Proof.
  induction pairs as [|symbol rest IH]; intros st updated; simpl.
  - exists []. rewrite !app_nil_r. auto.
  - destruct (is_wildcard CONFIG_WILDCARD symbol) eqn:Hw; simpl.
    + exists []. rewrite !app_nil_r. auto.
    + destruct (len (enabled_symbols st) <? limit) eqn:Hlt.
      * apply Z.ltb_lt in Hlt.
        match goal with
        | |- context [scan_pairs CONFIG_WILDCARD limit currency rest ?s ?u] =>
            destruct (IH s u) as (new & H1 & H2 & H3 & H4)
        end.
        simpl in H1, H3. exists (symbol :: new).
        rewrite H1, H2, H4, <- !app_assoc. simpl.
        repeat split; auto.
        intros _. rewrite <- app_assoc in H3. apply H3.
        rewrite len_app, len_cons, len_nil. lia.
      * match goal with
        | |- context [scan_pairs CONFIG_WILDCARD limit currency rest ?s ?u] =>
            destruct (IH s u) as (new & H1 & H2 & H3 & H4)
        end.
        simpl in H1, H3. exists new. auto.
Qed.

Lemma enabled_pairs_count_cons (item : string * CurrencyData)
    (m : currencies_map) :
  enabled_pairs_count (item :: m) =
  (if currency_enabled item then len (pairs_of (snd item)) else 0)
  + enabled_pairs_count m.
Proof. reflexivity. Qed.

(** The outer loop on a mapping whose entries all carry [pairs]: it does not
    raise, [enabled_symbols] grows by at least the pairs left enabled and
    stays within the ceiling, and a currency that held a wildcard ends with
    its flag false. *)
Lemma symbols_loop_spec (limit : Z) (items : currencies_map) :
  Forall has_pairs items ->
  forall st : symbols_state,
    let '(m', final, err) := symbols_loop CONFIG_WILDCARD limit items st in
    err = None /\
    (exists more : list string,
       enabled_symbols final = enabled_symbols st ++ more /\
       enabled_pairs_count m' <= len more) /\
    (len (enabled_symbols st) <= limit ->
     len (enabled_symbols final) <= limit) /\
    Forall2 (fun a b =>
               fst a = fst b /\
               (has_wildcard CONFIG_WILDCARD (snd a) = true ->
                cur_enabled (snd b) = Some false)) items m'.
Proof.
  induction 1 as [|[currency data] rest Hp Hrest IH]; intros st.
  - simpl. repeat split; auto. exists []. rewrite app_nil_r.
    split; [reflexivity | unfold len; simpl; lia].
  - simpl symbols_loop.
    destruct (get_enabled (cur_enabled data)) eqn:Hen.
    + destruct (len (enabled_symbols st) >=? limit) eqn:Hge.
      * match goal with
        | |- context [symbols_loop CONFIG_WILDCARD limit rest ?s] =>
            specialize (IH s)
        end.
        destruct (symbols_loop CONFIG_WILDCARD limit rest _)
          as [[rest' final] err].
        destruct IH as (He & (more & Hm1 & Hm2) & Hlim & Hf).
        simpl in Hm1, Hlim.
        refine (conj He (conj _ (conj Hlim _))).
        -- exists more. split; [exact Hm1|].
           rewrite enabled_pairs_count_cons. unfold currency_enabled.
           simpl. exact Hm2.
        -- constructor; [|exact Hf]. simpl. auto.
      * unfold has_pairs in Hp. simpl in Hp.
        destruct (cur_pairs data) as [pairs|] eqn:Hpairs; [|congruence].
        destruct (scan_pairs_spec limit currency pairs st [])
          as (new & H1 & H2 & H3 & H4).
        cbv zeta in H1, H2, H3, H4. simpl in H2.
        specialize
          (IH (scan_state
                 (scan_pairs CONFIG_WILDCARD limit currency pairs st []))).
        destruct (symbols_loop CONFIG_WILDCARD limit rest _)
          as [[rest' final] err].
        destruct IH as (He & (more & Hm1 & Hm2) & Hlim & Hf).
        refine (conj He (conj _ (conj _ _))).
        -- exists (new ++ more). rewrite Hm1, H1, <- app_assoc.
           split; [reflexivity|].
           rewrite enabled_pairs_count_cons, len_app.
           unfold currency_enabled, pairs_of. simpl. rewrite H2.
           pose proof (len_nonneg new).
           match goal with
           | |- context [if ?b then len new else 0] => destruct b
           end; lia.
        -- intros Hst. apply Hlim. rewrite H1. apply H3. exact Hst.
        -- constructor; [|exact Hf]. simpl. split; [reflexivity|].
           unfold has_wildcard, pairs_of. rewrite Hpairs, H4.
           intros ->. reflexivity.
    + specialize (IH st).
      destruct (symbols_loop CONFIG_WILDCARD limit rest st)
        as [[rest' final] err].
      destruct IH as (He & (more & Hm1 & Hm2) & Hlim & Hf).
      refine (conj He (conj _ (conj Hlim _))).
      * exists more. split; [exact Hm1|].
        rewrite enabled_pairs_count_cons. unfold currency_enabled.
        simpl. rewrite Hen. exact Hm2.
      * constructor; [|exact Hf]. simpl. split; [reflexivity|].
        intros _. destruct (cur_enabled data) as [[|]|]; try discriminate.
        reflexivity.
Qed.


(** The inner loop in full: with [room] places left under the ceiling, the
    first [room] pairs met before the wildcard are accepted, in order, and
    the other pairs met before it are rejected with one line each. *)
Lemma scan_pairs_before_wildcard (limit : Z) (currency : string)
    (pairs : list string) :
  forall (st : symbols_state) (updated : list string),
    let pre := before_wildcard CONFIG_WILDCARD pairs in
    let room := Z.to_nat (limit - len (enabled_symbols st)) in
    let r := scan_pairs CONFIG_WILDCARD limit currency pairs st updated in
    enabled_symbols (scan_state r) = enabled_symbols st ++ firstn room pre /\
    updated_symbols r = updated ++ firstn room pre /\
    symbols_lines (scan_state r) =
      symbols_lines st ++ map (rejected_pair_line currency) (skipn room pre) /\
    wildcard_found r = existsb (is_wildcard CONFIG_WILDCARD) pairs /\
    message (scan_state r) =
      (if wildcard_found r then wildcard_note currency else message st) /\
    has_disabled_symbols (scan_state r) =
      has_disabled_symbols st || wildcard_found r
      || negb (is_nil (skipn room pre)).
Proof.
  induction pairs as [|symbol rest IH]; intros st updated; cbv zeta.
  - simpl. rewrite firstn_nil, skipn_nil, !app_nil_r. simpl.
    rewrite !orb_false_r. auto 6.
  - simpl. destruct (is_wildcard CONFIG_WILDCARD symbol) eqn:Hw; simpl.
    + rewrite firstn_nil, skipn_nil, !app_nil_r. simpl.
      rewrite orb_true_r. auto 6.
    + destruct (len (enabled_symbols st) <? limit) eqn:Hlt.
      * apply Z.ltb_lt in Hlt.
        match goal with
        | |- context [scan_pairs CONFIG_WILDCARD limit currency rest ?s ?u] =>
            destruct (IH s u) as (H1 & H2 & H3 & H4 & H5 & H6)
        end.
        simpl in H1, H2, H3, H5, H6.
        assert (Hl : len (enabled_symbols st ++ [symbol]) =
                     len (enabled_symbols st) + 1)
          by (rewrite len_app, len_cons, len_nil; lia).
        rewrite Hl in H1, H2, H3, H6.
        replace (Z.to_nat (limit - len (enabled_symbols st)))
          with (S (Z.to_nat (limit - (len (enabled_symbols st) + 1))))
          by lia.
        rewrite firstn_cons, skipn_cons.
        rewrite H1, H2, H3, H5, H6, !H4, <- !app_assoc.
        simpl. auto 6.
      * apply Z.ltb_ge in Hlt.
        match goal with
        | |- context [scan_pairs CONFIG_WILDCARD limit currency rest ?s ?u] =>
            destruct (IH s u) as (H1 & H2 & H3 & H4 & H5 & H6)
        end.
        simpl in H1, H2, H3, H5, H6.
        replace (Z.to_nat (limit - len (enabled_symbols st))) with 0%nat
          in * by lia.
        rewrite firstn_0, skipn_0 in *.
        rewrite H1, H2, H3, H5, H6, !H4, <- !app_assoc.
        simpl. rewrite !orb_true_r. auto 6.
Qed.


(** Whatever the mapping holds, and also when the loop stops on a missing
    [pairs] key: [enabled_symbols] only grows, [has_disabled_symbols] never
    goes back to false, and no currency is enabled again. *)
Lemma symbols_loop_grows (limit : Z) (items : currencies_map) :
  forall st : symbols_state,
    let '(m', final, _) := symbols_loop CONFIG_WILDCARD limit items st in
    (exists more : list string,
       enabled_symbols final = enabled_symbols st ++ more) /\
    (has_disabled_symbols st = true -> has_disabled_symbols final = true) /\
    Forall2 currency_not_reenabled items m'.
Proof.
  induction items as [|[currency data] rest IH]; intros st.
  - simpl. split; [exists []; now rewrite app_nil_r | auto].
  - simpl symbols_loop.
    destruct (get_enabled (cur_enabled data)) eqn:Hen.
    + destruct (len (enabled_symbols st) >=? limit).
      * match goal with
        | |- context [symbols_loop CONFIG_WILDCARD limit rest ?s] =>
            specialize (IH s)
        end.
        destruct (symbols_loop CONFIG_WILDCARD limit rest _)
          as [[rest' final] err].
        destruct IH as ((more & Hm) & Hd & Hf). simpl in Hm, Hd.
        split; [exists more; exact Hm|].
        split; [auto|].
        constructor; [|exact Hf]. split; reflexivity.
      * destruct (cur_pairs data) as [pairs|] eqn:Hpairs.
        -- destruct (scan_pairs_before_wildcard limit currency pairs st [])
             as (H1 & _ & _ & _ & _ & H6).
           specialize
             (IH (scan_state
                    (scan_pairs CONFIG_WILDCARD limit currency pairs st []))).
           destruct (symbols_loop CONFIG_WILDCARD limit rest _)
             as [[rest' final] err].
           destruct IH as ((more & Hm) & Hd & Hf).
           split.
           ++ eexists. rewrite Hm, H1, <- app_assoc. reflexivity.
           ++ split.
              ** intros Hst. apply Hd. rewrite H6, Hst. reflexivity.
              ** constructor; [|exact Hf]. split; [reflexivity|].
                 simpl. intros Hfalse. rewrite Hfalse in Hen. discriminate.
        -- split; [exists []; now rewrite app_nil_r|].
           split; [auto|].
           apply Forall2_same. exact currency_not_reenabled_refl.
    + specialize (IH st).
      destruct (symbols_loop CONFIG_WILDCARD limit rest st)
        as [[rest' final] err].
      destruct IH as ((more & Hm) & Hd & Hf).
      split; [exists more; exact Hm|].
      split; [exact Hd|].
      constructor; [|exact Hf]. apply currency_not_reenabled_refl.
Qed.

(** C7.  Symbol limiter, for every currency mapping (each entry carrying its
    pair list) and every ceiling of at least 0, hence of at least 1: the
    limiter returns a message, the pairs of the currencies left enabled
    number at most the ceiling, and every currency whose pair list held a
    wildcard token ends with its enabled flag false. *)
Theorem C7_symbols_limiter (cfg : dict_config) (m : currencies_map)
    (limit : Z) :
  crypto_currencies cfg = Some m ->
  Forall has_pairs m ->
  0 <= limit ->
  exists (m' : currencies_map) (lines : list string) (msg : string),
    _apply_symbols_limits CONFIG_WILDCARD cfg limit =
      (set_currencies cfg m', lines, Ok msg) /\
    enabled_pairs_count m' <= limit /\
    Forall2 (fun a b =>
               fst a = fst b /\
               (has_wildcard CONFIG_WILDCARD (snd a) = true ->
                cur_enabled (snd b) = Some false)) m m'.
Proof.
  intros Hm Hwf Hlimit. unfold _apply_symbols_limits. rewrite Hm.
  pose proof (symbols_loop_spec limit m Hwf symbols_init) as H.
  destruct (symbols_loop CONFIG_WILDCARD limit m symbols_init)
    as [[m' final] err].
  destruct H as (He & (more & Hm1 & Hm2) & Hlim & Hf).
  subst err. exists m', (symbols_lines final), (symbols_message limit final).
  split; [reflexivity|]. split; [|exact Hf].
  simpl in Hm1, Hlim. rewrite Hm1 in Hlim.
  specialize (Hlim Hlimit). lia.
Qed.


Lemma symbols_state_eta (s : symbols_state) :
  s = {| enabled_symbols := enabled_symbols s;
         has_disabled_symbols := has_disabled_symbols s;
         message := message s;
         symbols_lines := symbols_lines s |}.
Proof. destruct s; reflexivity. Qed.

(** C10, as amended.  An enabled currency that is reached below the ceiling
    and whose pair list holds a wildcard: of the pairs met before the
    wildcard, the first [room] (the places left under the ceiling) are
    appended to the accepted symbols, so the later currencies are processed
    with that capacity used; these pairs are the stored pair list of the
    currency, which ends with its flag false; they are listed in the
    returned message.  The other pairs met before the wildcard are rejected,
    one line each. *)
Theorem C10_pairs_before_wildcard (limit : Z) (currency : string)
    (data : CurrencyData) (pairs : list string) (items : currencies_map)
    (st : symbols_state) :
  get_enabled (cur_enabled data) = true ->
  cur_pairs data = Some pairs ->
  existsb (is_wildcard CONFIG_WILDCARD) pairs = true ->
  len (enabled_symbols st) < limit ->
  let room := Z.to_nat (limit - len (enabled_symbols st)) in
  let kept := firstn room (before_wildcard CONFIG_WILDCARD pairs) in
  let rejected := skipn room (before_wildcard CONFIG_WILDCARD pairs) in
  let st' :=
    {| enabled_symbols := enabled_symbols st ++ kept;
       has_disabled_symbols := true;
       message := wildcard_note currency;
       symbols_lines :=
         symbols_lines st ++ map (rejected_pair_line currency) rejected |} in
  exists (m' : currencies_map) (final : symbols_state) (err : option exn)
         (more : list string),
    symbols_loop CONFIG_WILDCARD limit items st' = (m', final, err) /\
    symbols_loop CONFIG_WILDCARD limit ((currency, data) :: items) st =
      ((currency, {| cur_enabled := Some false; cur_pairs := Some kept |})
       :: m', final, err) /\
    enabled_symbols final = enabled_symbols st ++ kept ++ more /\
    symbols_message limit final =
      message final +++
      symbols_summary limit (enabled_symbols st ++ kept ++ more).
Proof.
  intros Hen Hpairs Hw Hlt room kept rejected st'.
  destruct (scan_pairs_before_wildcard limit currency pairs st [])
    as (H1 & H2 & H3 & H4 & H5 & H6).
  fold room in H1, H2, H3, H6. fold kept in H1, H2. fold rejected in H3, H6.
  rewrite H4, Hw in H5, H6. rewrite orb_true_r in H6. simpl in H2, H6.
  assert (Hst' : scan_state
                   (scan_pairs CONFIG_WILDCARD limit currency pairs st [])
                 = st').
  { rewrite (symbols_state_eta (scan_state _)).
    rewrite H1, H3, H5, H6. reflexivity. }
  pose proof (symbols_loop_grows limit items st') as Hg.
  destruct (symbols_loop CONFIG_WILDCARD limit items st')
    as [[m' final] err] eqn:Hloop.
  destruct Hg as ((more & Hm) & Hd & _).
  exists m', final, err, more.
  split; [reflexivity|]. split; [|split].
  - simpl symbols_loop. rewrite Hen.
    replace (len (enabled_symbols st) >=? limit) with false
      by (symmetry; rewrite Z.geb_leb; apply Z.leb_gt; exact Hlt).
    rewrite Hpairs. cbv zeta. rewrite Hst', Hloop, H4, Hw, H2.
    reflexivity.
  - rewrite Hm. simpl. now rewrite <- app_assoc.
  - unfold symbols_message. rewrite (Hd eq_refl).
    rewrite Hm. simpl enabled_symbols. rewrite <- app_assoc. reflexivity.
Qed.

End SymbolLimiter.

(** A currency with the pairs [BTC/USD], [BTC/EUR] and then the wildcard,
    ceiling 2: both pairs are accepted, stored and listed. *)
Lemma C10_pairs_before_wildcard_witness :
  exists (m' : currencies_map) (final : symbols_state) (err : option exn),
    symbols_loop "*" 2 btc_then_wildcard symbols_init =
      (("BTC"%string,
        {| cur_enabled := Some false;
           cur_pairs := Some ["BTC/USD"; "BTC/EUR"]%string |}) :: m',
       final, err).
Proof.
  destruct (C10_pairs_before_wildcard "*" 2 "BTC"
              {| cur_enabled := Some true;
                 cur_pairs := Some ["BTC/USD"; "BTC/EUR"; "*"]%string |}
              ["BTC/USD"; "BTC/EUR"; "*"]%string [] symbols_init
              eq_refl eq_refl eq_refl ltac:(reflexivity))
    as (m' & final & err & more & _ & H & _).
  exists m', final, err. exact H.
Defined.

(** C10 as stated fails: with ceiling 1 the pair [BTC/EUR] is scanned before
    the wildcard and is neither accepted, nor stored, nor listed. *)
Lemma C10_counterexample :
  _apply_symbols_limits "*" btc_then_wildcard_config 1 =
    (set_currencies btc_then_wildcard_config
       [("BTC"%string,
         {| cur_enabled := Some false;
            cur_pairs := Some ["BTC/USD"%string] |})],
     ["Disabled BTC/EUR trading pair from BTC"%string],
     Ok ("Disabled wildcard symbol for BTC. " +++
         symbols_summary 1 ["BTC/USD"%string])) /\
  before_wildcard "*" ["BTC/USD"; "BTC/EUR"; "*"]%string =
    ["BTC/USD"; "BTC/EUR"]%string /\
  ~ prefix_admitted "*" 1 "BTC" ["BTC/USD"; "BTC/EUR"; "*"]%string
      symbols_init.
Proof.
  split; [reflexivity|]. split; [reflexivity|].
  intros [H _]. vm_compute in H. discriminate H.
Qed.

(** Scenario 2 of the specification: three pairs, ceiling 2. *)
Lemma C7_symbols_limiter_witness :
  exists (m' : currencies_map) (lines : list string) (msg : string),
    _apply_symbols_limits "*" btc_three_pairs_config 2 =
      (set_currencies btc_three_pairs_config m', lines, Ok msg) /\
    enabled_pairs_count m' <= 2.
Proof.
  destruct (C7_symbols_limiter "*" btc_three_pairs_config btc_three_pairs 2
              eq_refl) as (m' & lines & msg & H1 & H2 & _).
  - repeat constructor; discriminate.
  - lia.
  - exists m', lines, msg. split; [exact H1 | exact H2].
Defined.

(** ** No entry is enabled again *)

Lemma exchange_not_reenabled_trans (a b c : string * ExchangeConfig) :
  exchange_not_reenabled a b -> exchange_not_reenabled b c ->
  exchange_not_reenabled a c.
Proof. intros [H1 H2] [H3 H4]. split; [congruence | auto]. Qed.

Lemma currency_not_reenabled_trans (a b c : string * CurrencyData) :
  currency_not_reenabled a b -> currency_not_reenabled b c ->
  currency_not_reenabled a c.
Proof. intros [H1 H2] [H3 H4]. split; [congruence | auto]. Qed.

Lemma entrywise_refl {A : Type} (R : A -> A -> Prop) (o : option (list A)) :
  (forall a, R a a) -> entrywise R o o.
Proof. intros HR. destruct o; simpl; [now apply Forall2_same | exact I]. Qed.

Lemma entrywise_trans {A : Type} (R : A -> A -> Prop)
    (o1 o2 o3 : option (list A)) :
  (forall a b c, R a b -> R b c -> R a c) ->
  entrywise R o1 o2 -> entrywise R o2 o3 -> entrywise R o1 o3.
Proof.
  intros HR. destruct o1, o2, o3; simpl; try tauto.
  apply Forall2_chain. exact HR.
Qed.

Lemma no_reenable_refl (c : dict_config) : no_reenable c c.
Proof.
  split; apply entrywise_refl;
    [exact exchange_not_reenabled_refl | exact currency_not_reenabled_refl].
Qed.

Lemma no_reenable_trans (c1 c2 c3 : dict_config) :
  no_reenable c1 c2 -> no_reenable c2 c3 -> no_reenable c1 c3.
Proof.
  intros [H1 H2] [H3 H4]. split.
  - eapply entrywise_trans; eauto using exchange_not_reenabled_trans.
  - eapply entrywise_trans; eauto using currency_not_reenabled_trans.
Qed.

Lemma exchanges_loop_not_reenabled (limit : Z) (items : exchanges_map) :
  forall acc : list string,
    let '(m', _, _) := exchanges_loop limit acc items in
    Forall2 exchange_not_reenabled items m'.
Proof.
  induction items as [|[exchange config] rest IH]; intros acc; simpl.
  - constructor.
  - destruct (get_enabled (ex_enabled config)) eqn:Hen.
    + destruct (len acc <? limit).
      * specialize (IH (acc ++ [exchange])).
        destruct (exchanges_loop limit (acc ++ [exchange]) rest)
          as [[rest' final] lines].
        constructor; [apply exchange_not_reenabled_refl | exact IH].
      * specialize (IH acc).
        destruct (exchanges_loop limit acc rest) as [[rest' final] lines].
        constructor; [|exact IH]. split; reflexivity.
    + specialize (IH acc).
      destruct (exchanges_loop limit acc rest) as [[rest' final] lines].
      constructor; [apply exchange_not_reenabled_refl | exact IH].
Qed.

Lemma exchanges_limits_no_reenable (cfg : dict_config) (limit : Z) :
  no_reenable cfg (fst (fst (_apply_exchanges_limits cfg limit))).
Proof.
  unfold _apply_exchanges_limits.
  destruct (exchanges cfg) as [m|] eqn:Hm; [|apply no_reenable_refl].
  destruct (len (enabled_exchange_keys m) >? limit);
    [|apply no_reenable_refl].
  pose proof (exchanges_loop_not_reenabled limit m []) as H.
  destruct (exchanges_loop limit [] m) as [[m' final] lines]. simpl.
  split; simpl.
  - rewrite Hm. exact H.
  - apply entrywise_refl. exact currency_not_reenabled_refl.
Qed.

Lemma symbols_limits_no_reenable (wildcard : string) (cfg : dict_config)
    (limit : Z) :
  no_reenable cfg (fst (fst (_apply_symbols_limits wildcard cfg limit))).
Proof.
  unfold _apply_symbols_limits.
  destruct (crypto_currencies cfg) as [m|] eqn:Hm; [|apply no_reenable_refl].
  pose proof (symbols_loop_grows wildcard limit m symbols_init) as H.
  destruct (symbols_loop wildcard limit m symbols_init)
    as [[m' final] err]. simpl.
  destruct H as (_ & _ & H). split; simpl.
  - apply entrywise_refl. exact exchange_not_reenabled_refl.
  - rewrite Hm. exact H.
Qed.

Lemma time_frames_limits_config (order : list TimeFrames -> list TimeFrames)
    (configuration : Configuration) (limit : Z) :
  config (fst (fst (_apply_time_frames_limits order configuration limit))) =
  config configuration.
Proof.
  unfold _apply_time_frames_limits.
  destruct (tentacles configuration) as [strategies|]; [|reflexivity].
  destruct (time_frames_loop order limit strategies [] false)
    as [[[strategies' effects] final] flag].
  reflexivity.
Qed.

(** ** Orchestrator *)

Section Orchestrator.

Variable CONFIG_WILDCARD : string.
Variable UNLIMITED_ALLOWED : Z.
Variable MAX_ALLOWED_EXCHANGES : Z.
Variable MAX_ALLOWED_SYMBOLS : Z.
Variable MAX_ALLOWED_TIME_FRAMES : Z.
Variable list_of_set : list TimeFrames -> list TimeFrames.

Lemma guarded_limiter_no_reenable (ceiling : Z)
    (limiter : Z -> Configuration -> limiter_result) :
  (forall limit c, no_reenable (config c) (config (fst (fst (limiter limit c))))) ->
  forall s : pass_state,
    no_reenable (config (pass_configuration s))
      (config (pass_configuration
                 (fst (guarded_limiter UNLIMITED_ALLOWED ceiling limiter s)))).
Proof.
  intros H s. unfold guarded_limiter.
  destruct (ceiling =? UNLIMITED_ALLOWED); [apply no_reenable_refl|].
  specialize (H ceiling (pass_configuration s)).
  destruct (limiter ceiling (pass_configuration s)) as [[c' effects] [msg|err]];
    exact H.
Qed.

Lemma try_body_no_reenable (s : pass_state) :
  no_reenable (config (pass_configuration s))
    (config (pass_configuration
               (fst (try_body CONFIG_WILDCARD UNLIMITED_ALLOWED
                       MAX_ALLOWED_EXCHANGES MAX_ALLOWED_SYMBOLS
                       MAX_ALLOWED_TIME_FRAMES list_of_set s)))).
Proof.
  unfold try_body.
  pose proof (guarded_limiter_no_reenable MAX_ALLOWED_EXCHANGES
                (on_dict_config _apply_exchanges_limits)) as H1.
  pose proof (guarded_limiter_no_reenable MAX_ALLOWED_SYMBOLS
                (on_dict_config (_apply_symbols_limits CONFIG_WILDCARD)))
    as H2.
  pose proof (guarded_limiter_no_reenable MAX_ALLOWED_TIME_FRAMES
                (fun limit c => _apply_time_frames_limits list_of_set c limit))
    as H3.
  assert (G1 : forall limit c,
             no_reenable (config c)
               (config (fst (fst (on_dict_config _apply_exchanges_limits
                                    limit c))))).
  { intros limit c. unfold on_dict_config.
    pose proof (exchanges_limits_no_reenable (config c) limit) as H.
    destruct (_apply_exchanges_limits (config c) limit) as [[c' l] r].
    exact H. }
  assert (G2 : forall limit c,
             no_reenable (config c)
               (config (fst (fst (on_dict_config
                                    (_apply_symbols_limits CONFIG_WILDCARD)
                                    limit c))))).
  { intros limit c. unfold on_dict_config.
    pose proof (symbols_limits_no_reenable CONFIG_WILDCARD (config c) limit)
      as H.
    destruct (_apply_symbols_limits CONFIG_WILDCARD (config c) limit)
      as [[c' l] r].
    exact H. }
  assert (G3 : forall limit c,
             no_reenable (config c)
               (config (fst (fst (_apply_time_frames_limits list_of_set
                                    c limit))))).
  { intros limit c. rewrite time_frames_limits_config.
    apply no_reenable_refl. }
  specialize (H1 G1 s).
  destruct (guarded_limiter UNLIMITED_ALLOWED MAX_ALLOWED_EXCHANGES _ s)
    as [s1 [e1|]]; [exact H1|].
  specialize (H2 G2 s1).
  destruct (guarded_limiter UNLIMITED_ALLOWED MAX_ALLOWED_SYMBOLS _ s1)
    as [s2 [e2|]]; simpl in H1, H2 |- *.
  - eapply no_reenable_trans; eassumption.
  - specialize (H3 G3 s2).
    eapply no_reenable_trans; [eassumption|].
    eapply no_reenable_trans; eassumption.
Qed.

(** C9.  For every configuration and every ceiling, neither the exchange
    limiter, nor the symbol limiter, nor a whole pass of
    [apply_config_limits] enables an entry again: every exchange entry and
    every currency entry whose enabled flag was false still has it false
    afterwards (entries keep their place and name).  This also holds when a
    limiter raises. *)
Theorem C9_no_entry_reenabled :
  (forall (cfg : dict_config) (limit : Z),
     no_reenable cfg (fst (fst (_apply_exchanges_limits cfg limit)))) /\
  (forall (cfg : dict_config) (limit : Z),
     no_reenable cfg
       (fst (fst (_apply_symbols_limits CONFIG_WILDCARD cfg limit)))) /\
  (forall configuration : Configuration,
     no_reenable (config configuration)
       (config (fst (fst (apply_config_limits CONFIG_WILDCARD
                            UNLIMITED_ALLOWED MAX_ALLOWED_EXCHANGES
                            MAX_ALLOWED_SYMBOLS MAX_ALLOWED_TIME_FRAMES
                            list_of_set configuration))))).
Proof.
  split; [exact exchanges_limits_no_reenable|].
  split; [exact (symbols_limits_no_reenable CONFIG_WILDCARD)|].
  intros configuration. unfold apply_config_limits.
  match goal with
  | |- context [try_body _ _ _ _ _ _ ?s] =>
      pose proof (try_body_no_reenable s) as H;
      destruct (try_body CONFIG_WILDCARD UNLIMITED_ALLOWED
                  MAX_ALLOWED_EXCHANGES MAX_ALLOWED_SYMBOLS
                  MAX_ALLOWED_TIME_FRAMES list_of_set s) as [s' raised]
  end.
  exact H.
Qed.

(** The exchange limiter raises only on the missing key, before it has
    changed or logged anything. *)
Lemma exchanges_limits_raise (limit : Z) (c c1 : Configuration)
    (effects : list event) (err : exn) :
  on_dict_config _apply_exchanges_limits limit c = (c1, effects, Raise err) ->
  c1 = c /\ effects = [] /\ err = KeyError CONFIG_EXCHANGES.
Proof.
  unfold on_dict_config, _apply_exchanges_limits.
  destruct (exchanges (config c)) as [m|].
  - destruct (len (enabled_exchange_keys m) >? limit).
    + destruct (exchanges_loop limit [] m) as [[m' final] lines].
      discriminate.
    + discriminate.
  - intros H. injection H as <- <- <-. destruct c. auto.
Qed.

Lemma time_frames_limits_raise (limit : Z) (c c1 : Configuration)
    (effects : list event) (err : exn) :
  _apply_time_frames_limits list_of_set c limit = (c1, effects, Raise err) ->
  c1 = c /\ effects = [].
Proof.
  unfold _apply_time_frames_limits.
  destruct (tentacles c) as [strategies|].
  - destruct (time_frames_loop list_of_set limit strategies [] false)
      as [[[strategies' ef] final] flag].
    discriminate.
  - intros H. injection H as <- <- _. auto.
Qed.

Lemma guarded_limiter_tentacles (ceiling : Z)
    (limiter : dict_config -> Z -> dict_config * list string * result string)
    (s : pass_state) :
  tentacles
    (pass_configuration
       (fst (guarded_limiter UNLIMITED_ALLOWED ceiling
               (on_dict_config limiter) s))) =
  tentacles (pass_configuration s).
Proof.
  unfold guarded_limiter, on_dict_config.
  destruct (ceiling =? UNLIMITED_ALLOWED); [reflexivity|].
  destruct (limiter (config (pass_configuration s)) ceiling)
    as [[cfg' lines] [msg|err]]; reflexivity.
Qed.

(** C1, as amended.  The three limiters share one [try]: the first limiter
    that raises ends the pass.  Its exception is logged, the limiters after
    it in the sequence are not run, and the messages collected before it
    are returned.
    - The exchange limiter raises: the configuration is untouched and the
      list is empty.
    - The symbol limiter raises: the configuration is as that limiter left
      it, the strategies are untouched, and the list is what the exchange
      statement collected.
    - The timeframe limiter raises: the configuration is as the first two
      statements left it and the list is what they collected. *)
Theorem C1_first_exception_ends_pass (configuration : Configuration) :
  let s0 := {| pass_configuration := configuration; pass_effects := [];
               limit_warning_messages := [] |} in
  let run :=
    apply_config_limits CONFIG_WILDCARD UNLIMITED_ALLOWED
      MAX_ALLOWED_EXCHANGES MAX_ALLOWED_SYMBOLS MAX_ALLOWED_TIME_FRAMES
      list_of_set configuration in
  let exchanges_statement :=
    guarded_limiter UNLIMITED_ALLOWED MAX_ALLOWED_EXCHANGES
      (on_dict_config _apply_exchanges_limits) in
  let symbols_statement :=
    guarded_limiter UNLIMITED_ALLOWED MAX_ALLOWED_SYMBOLS
      (on_dict_config (_apply_symbols_limits CONFIG_WILDCARD)) in
  (forall c1 effects err,
     MAX_ALLOWED_EXCHANGES <> UNLIMITED_ALLOWED ->
     on_dict_config _apply_exchanges_limits MAX_ALLOWED_EXCHANGES
       configuration = (c1, effects, Raise err) ->
     run = (configuration, [exception_line err], [])) /\
  (forall s1 c2 effects err,
     exchanges_statement s0 = (s1, None) ->
     MAX_ALLOWED_SYMBOLS <> UNLIMITED_ALLOWED ->
     on_dict_config (_apply_symbols_limits CONFIG_WILDCARD)
       MAX_ALLOWED_SYMBOLS (pass_configuration s1) =
       (c2, effects, Raise err) ->
     run = (c2,
            (pass_effects s1 ++ effects) ++ [exception_line err] ++
            map LogError (limit_warning_messages s1),
            limit_warning_messages s1) /\
     tentacles c2 = tentacles configuration) /\
  (forall s1 s2 c3 effects err,
     exchanges_statement s0 = (s1, None) ->
     symbols_statement s1 = (s2, None) ->
     MAX_ALLOWED_TIME_FRAMES <> UNLIMITED_ALLOWED ->
     _apply_time_frames_limits list_of_set (pass_configuration s2)
       MAX_ALLOWED_TIME_FRAMES = (c3, effects, Raise err) ->
     run = (pass_configuration s2,
            pass_effects s2 ++ [exception_line err] ++
            map LogError (limit_warning_messages s2),
            limit_warning_messages s2)).
Proof.
  intros s0 run exchanges_statement symbols_statement.
  subst run exchanges_statement symbols_statement s0.
  unfold apply_config_limits, try_body.
  split; [|split].
  - intros c1 effects err Hne Hraise.
    destruct (exchanges_limits_raise _ _ _ _ _ Hraise) as (-> & -> & ->).
    unfold guarded_limiter at 1. cbn [pass_configuration].
    apply Z.eqb_neq in Hne. rewrite Hne, Hraise. reflexivity.
  - intros s1 c2 effects err H1 Hne Hraise. rewrite H1.
    unfold guarded_limiter at 1.
    apply Z.eqb_neq in Hne. rewrite Hne, Hraise. simpl.
    split; [reflexivity|].
    pose proof (guarded_limiter_tentacles MAX_ALLOWED_EXCHANGES
                  _apply_exchanges_limits
                  {| pass_configuration := configuration; pass_effects := [];
                     limit_warning_messages := [] |}) as Ht.
    rewrite H1 in Ht. simpl in Ht. rewrite <- Ht.
    unfold on_dict_config in Hraise.
    destruct (_apply_symbols_limits CONFIG_WILDCARD
                (config (pass_configuration s1)) MAX_ALLOWED_SYMBOLS)
      as [[cfg' lines] r].
    injection Hraise as <- _ _. reflexivity.
  - intros s1 s2 c3 effects err H1 H2 Hne Hraise. rewrite H1, H2.
    destruct (time_frames_limits_raise _ _ _ _ _ Hraise) as (-> & ->).
    unfold guarded_limiter.
    apply Z.eqb_neq in Hne. rewrite Hne, Hraise. simpl.
    rewrite app_nil_r. reflexivity.
Qed.

End Orchestrator.

(** Without the [exchanges] key the exchange limiter raises, and the pass
    ends there. *)
Lemma C1_first_exception_ends_pass_witness :
  apply_config_limits "*" unlimited 1 2 1 stored_order no_exchanges_key =
    (no_exchanges_key, [exception_line (KeyError CONFIG_EXCHANGES)], []).
Proof.
  destruct (C1_first_exception_ends_pass "*" unlimited 1 2 1 stored_order
              no_exchanges_key) as [H _].
  apply (H no_exchanges_key [] (KeyError CONFIG_EXCHANGES)).
  - discriminate.
  - reflexivity.
Defined.

(** C1 as stated fails.  The configuration has no [exchanges] key and three
    pairs under a symbol ceiling of 2.  The exchange limiter raises; the
    symbol limiter, run on this configuration, would drop a pair and return
    a message; the pass leaves the configuration as it was and returns no
    message. *)
Lemma C1_counterexample :
  on_dict_config _apply_exchanges_limits 1 no_exchanges_key =
    (no_exchanges_key, [], Raise (KeyError CONFIG_EXCHANGES)) /\
  _apply_symbols_limits "*" (config no_exchanges_key) 2 =
    (set_currencies btc_three_pairs_config
       [("BTC"%string,
         {| cur_enabled := Some true;
            cur_pairs := Some ["BTC/USD"; "BTC/EUR"]%string |})],
     ["Disabled BTC/JPY trading pair from BTC"%string],
     Ok (symbols_summary 2 ["BTC/USD"; "BTC/EUR"]%string)) /\
  apply_config_limits "*" unlimited 1 2 1 stored_order no_exchanges_key =
    (no_exchanges_key, [exception_line (KeyError CONFIG_EXCHANGES)], []) /\
  ~ symbols_still_enforced "*" unlimited 1 2 1 stored_order
      no_exchanges_key.
Proof.
  split; [reflexivity|]. split; [reflexivity|]. split; [reflexivity|].
  unfold symbols_still_enforced.
  intros [H _]. vm_compute in H. discriminate H.
Qed.

(** ** Time frames: membership and order *)

Lemma tf_in_In (tf : TimeFrames) (l : list TimeFrames) :
  tf_in tf l = true <-> In tf l.
Proof.
  unfold tf_in. induction l as [|x l IH]; simpl.
  - split; [discriminate | tauto].
  - unfold tf_eqb at 1. destruct (TimeFrames_eq_dec tf x) as [->|Hne]; simpl.
    + tauto.
    + rewrite IH. split; [tauto|]. intros [H|H]; [congruence | exact H].
Qed.

Lemma insert_time_frame_In (tf x : TimeFrames) (l : list TimeFrames) :
  In x (insert_time_frame tf l) <-> x = tf \/ In x l.
Proof.
  induction l as [|y l IH]; simpl.
  - intuition.
  - destruct (TimeFramesMinutes tf <=? TimeFramesMinutes y); simpl.
    + intuition.
    + rewrite IH. intuition.
Qed.

Lemma sort_time_frames_In (x : TimeFrames) (l : list TimeFrames) :
  In x (sort_time_frames l) <-> In x l.
Proof.
  induction l as [|y l IH]; simpl; [tauto|].
  rewrite insert_time_frame_In, IH. intuition.
Qed.

Lemma insert_time_frame_sorted (tf : TimeFrames) (l : list TimeFrames) :
  in_duration_order l -> in_duration_order (insert_time_frame tf l).
Proof.
  unfold in_duration_order. induction l as [|y l IH]; intros Hs; simpl.
  - repeat constructor.
  - destruct (TimeFramesMinutes tf <=? TimeFramesMinutes y) eqn:Hle.
    + apply Z.leb_le in Hle. constructor; [exact Hs|].
      constructor. exact Hle.
    + apply Z.leb_gt in Hle. inversion Hs as [|? ? Hs' Hhd]; subst.
      constructor; [apply IH; exact Hs'|].
      destruct l as [|z l]; simpl.
      * constructor. unfold duration_le. lia.
      * destruct (TimeFramesMinutes tf <=? TimeFramesMinutes z);
          constructor; unfold duration_le in *;
          [lia | inversion Hhd; subst; assumption].
Qed.

(** [sort_time_frames] returns its argument in ascending duration order. *)
Lemma sort_time_frames_sorted (l : list TimeFrames) :
  in_duration_order (sort_time_frames l).
Proof.
  induction l as [|tf l IH]; simpl.
  - constructor.
  - apply insert_time_frame_sorted. exact IH.
Qed.

Lemma filter_unchanged {A : Type} (p : A -> bool) (l : list A) :
  filter p l = l <-> forallb p l = true.
Proof.
  induction l as [|x l IH]; simpl; [tauto|].
  destruct (p x) eqn:Hp; simpl.
  - rewrite <- IH. split; [intros H; injection H; auto | intros ->; auto].
  - split; [|discriminate]. intros H.
    assert (Hlen : (List.length (filter p l) <= List.length l)%nat)
      by apply filter_length_le.
    rewrite H in Hlen. simpl in Hlen. lia.
Qed.

(** ** Timeframe limiter *)

Section TimeFrameLimiter.

Variable list_of_set : list TimeFrames -> list TimeFrames.

(** Listing a set yields its members. *)
Hypothesis list_of_set_In :
  forall (s : list TimeFrames) (tf : TimeFrames),
    In tf (list_of_set s) <-> In tf s.

Lemma strategy_enabled_time_frames_In (config_time_frames all : list TimeFrames)
    (tf : TimeFrames) :
  In tf (strategy_enabled_time_frames config_time_frames all) <->
  In tf config_time_frames /\ In tf all.
Proof.
  unfold strategy_enabled_time_frames. rewrite filter_In, tf_in_In. tauto.
Qed.

(** [should_update_config] is set exactly when the filter of lines 109-113
    dropped something. *)
Lemma should_update_config_changed (config_time_frames all : list TimeFrames) :
  let enabled := strategy_enabled_time_frames config_time_frames all in
  should_update_config config_time_frames enabled = true <->
  enabled <> config_time_frames.
Proof.
  cbv zeta. unfold should_update_config.
  destruct (existsb _ config_time_frames) eqn:He.
  - split; [intros _|reflexivity].
    apply existsb_exists in He. destruct He as (tf & Hin & Hout).
    intros Heq. rewrite Heq in Hout.
    apply (proj2 (tf_in_In tf config_time_frames)) in Hin.
    rewrite Hin in Hout. discriminate.
  - split; [discriminate|]. intros Hne. exfalso. apply Hne.
    unfold strategy_enabled_time_frames. apply filter_unchanged.
    apply forallb_forall. intros tf Hin.
    destruct (tf_in tf all) eqn:Hall; [reflexivity|]. exfalso.
    assert (Hex : existsb
                    (fun tf0 => negb (tf_in tf0
                       (strategy_enabled_time_frames config_time_frames all)))
                    config_time_frames = true).
    { apply existsb_exists. exists tf. split; [exact Hin|].
      destruct (tf_in tf (strategy_enabled_time_frames config_time_frames all))
        eqn:Hen; [|reflexivity].
      apply tf_in_In, strategy_enabled_time_frames_In in Hen.
      destruct Hen as [_ Hen]. apply tf_in_In in Hen. congruence. }
    congruence.
Qed.

(** Lines 107-121 in one equation: the entry becomes the intersection, one
    line is logged per requested time frame outside it, and the persist
    call is made exactly when the intersection differs from the request. *)
Lemma prune_strategy_spec (all : list TimeFrames) (name : string)
    (config_time_frames : list TimeFrames) :
  let enabled := strategy_enabled_time_frames config_time_frames all in
  prune_strategy all (name, config_time_frames) =
    ((name, enabled),
     map (disabled_line name)
       (filter (fun tf => negb (tf_in tf enabled)) config_time_frames) ++
     (if list_eq_dec TimeFrames_eq_dec enabled config_time_frames then []
      else [UpdateTimeFramesConfig name enabled])).
Proof.
  cbv zeta. unfold prune_strategy, disabled_time_frames.
  pose proof (should_update_config_changed config_time_frames all) as H.
  cbv zeta in H.
  destruct (should_update_config _ _).
  - destruct (list_eq_dec _ _ _) as [Heq|Hne]; [|reflexivity].
    exfalso. apply (proj1 H eq_refl). exact Heq.
  - destruct (list_eq_dec _ _ _) as [Heq|Hne].
    + rewrite app_nil_r. f_equal. f_equal. symmetry. exact Heq.
    + apply H in Hne. discriminate.
Qed.

(** The aggregate never loses a time frame, and as long as the flag is not
    set it holds everything the strategy requested. *)
Lemma admit_time_frames_grows (limit : Z) (all : list TimeFrames)
    (flag : bool) (config_time_frames : list TimeFrames) :
  let '(all', flag') :=
    admit_time_frames list_of_set limit all flag config_time_frames in
  incl all all' /\
  (flag' = false -> incl config_time_frames all').
Proof.
  unfold admit_time_frames, set_of_list.
  destruct (len (nodup _ (all ++ config_time_frames)) <? limit).
  - split; [|intros _]; intros tf Hin;
      apply sort_time_frames_In, list_of_set_In, nodup_In, in_or_app; auto.
  - destruct (len (nodup _ (all ++ config_time_frames)) >? limit).
    + destruct (len all =? limit).
      * split; [apply incl_refl | discriminate].
      * split; [|discriminate]. intros tf Hin.
        apply sort_time_frames_In, in_or_app. auto.
    + split; [|intros _]; intros tf Hin;
        apply list_of_set_In, nodup_In, in_or_app; auto.
Qed.

Lemma prune_strategy_incl (all : list TimeFrames)
    (strategy : string * list TimeFrames) :
  incl (snd (fst (prune_strategy all strategy))) all.
Proof.
  destruct strategy as [name config_time_frames].
  pose proof (prune_strategy_spec all name config_time_frames) as H.
  cbv zeta in H. rewrite H. simpl. intros tf Hin.
  apply strategy_enabled_time_frames_In in Hin. tauto.
Qed.

(** Every strategy's entry after the loop lies inside the final aggregate. *)
Lemma time_frames_loop_retained (limit : Z) (strategies : strategies_map) :
  forall (all : list TimeFrames) (flag : bool),
    let '(strategies', _, final, _) :=
      time_frames_loop list_of_set limit strategies all flag in
    incl all final /\
    Forall (fun strategy => incl (snd strategy) final) strategies'.
Proof.
  induction strategies as [|strategy rest IH]; intros all flag.
  - simpl. split; [apply incl_refl | constructor].
  - simpl. unfold strategy_step.
    pose proof (admit_time_frames_grows limit all flag (snd strategy)) as Ha.
    destruct (admit_time_frames list_of_set limit all flag (snd strategy))
      as [all' flag'].
    destruct Ha as [Hall Hcfg].
    pose proof (prune_strategy_incl all' strategy) as Hp.
    destruct flag'.
    + destruct (prune_strategy all' strategy) as [strategy' effects].
      specialize (IH all' true).
      destruct (time_frames_loop list_of_set limit rest all' true)
        as [[[rest' effects'] final] final_flag].
      destruct IH as [Hfinal Hrest]. split.
      * eapply incl_tran; eassumption.
      * constructor; [|exact Hrest]. simpl in Hp.
        eapply incl_tran; eassumption.
    + specialize (IH all' false).
      destruct (time_frames_loop list_of_set limit rest all' false)
        as [[[rest' effects'] final] final_flag].
      destruct IH as [Hfinal Hrest]. split.
      * eapply incl_tran; eassumption.
      * constructor; [|exact Hrest].
        eapply incl_tran; [apply Hcfg; reflexivity | exact Hfinal].
Qed.


Lemma admit_time_frames_flag (limit : Z) (all : list TimeFrames)
    (config_time_frames : list TimeFrames) :
  snd (admit_time_frames list_of_set limit all true config_time_frames) = true.
Proof.
  unfold admit_time_frames.
  destruct (len _ <? limit); [reflexivity|].
  destruct (len _ >? limit); [|reflexivity].
  destruct (len all =? limit); reflexivity.
Qed.

(** The loop over [before ++ rest] is the loop over [before] followed by
    the loop over [rest] from the state that [before] leaves. *)
Lemma time_frames_loop_app (limit : Z) (before rest : strategies_map) :
  forall (all : list TimeFrames) (flag : bool),
    time_frames_loop list_of_set limit (before ++ rest) all flag =
    let '(before', effects_before, all', flag') :=
      time_frames_loop list_of_set limit before all flag in
    let '(rest', effects_rest, final, final_flag) :=
      time_frames_loop list_of_set limit rest all' flag' in
    (before' ++ rest', effects_before ++ effects_rest, final, final_flag).
Proof.
  induction before as [|strategy before IH]; intros all flag.
  - simpl.
    destruct (time_frames_loop list_of_set limit rest all flag)
      as [[[rest' effects_rest] final] final_flag].
    reflexivity.
  - simpl.
    destruct (strategy_step list_of_set limit all flag strategy)
      as [[[strategy' effects] all1] flag1].
    rewrite IH.
    destruct (time_frames_loop list_of_set limit before all1 flag1)
      as [[[before' effects_before] all2] flag2].
    destruct (time_frames_loop list_of_set limit rest all2 flag2)
      as [[[rest' effects_rest] final] final_flag].
    simpl. rewrite <- app_assoc. reflexivity.
Qed.

(** The loop variables after the loop are those of the admissions alone. *)
Lemma time_frames_loop_state (limit : Z) (strategies : strategies_map) :
  forall (all : list TimeFrames) (flag : bool),
    let '(_, _, final, final_flag) :=
      time_frames_loop list_of_set limit strategies all flag in
    (final, final_flag) =
    fold_left
      (fun state strategy =>
         admit_time_frames list_of_set limit (fst state) (snd state)
           (snd strategy))
      strategies (all, flag).
Proof.
  induction strategies as [|strategy rest IH]; intros all flag; simpl.
  - reflexivity.
  - unfold strategy_step.
    destruct (admit_time_frames list_of_set limit all flag (snd strategy))
      as [all' flag'].
    destruct (if flag' then prune_strategy all' strategy else (strategy, []))
      as [strategy' effects].
    specialize (IH all' flag').
    destruct (time_frames_loop list_of_set limit rest all' flag')
      as [[[rest' effects'] final] final_flag].
    exact IH.
Qed.

Lemma time_frames_loop_len (limit : Z) (strategies : strategies_map) :
  forall (all : list TimeFrames) (flag : bool),
    let '(strategies', _, _, _) :=
      time_frames_loop list_of_set limit strategies all flag in
    List.length strategies' = List.length strategies.
Proof.
  induction strategies as [|strategy rest IH]; intros all flag; simpl.
  - reflexivity.
  - destruct (strategy_step list_of_set limit all flag strategy)
      as [[[strategy' effects] all'] flag'].
    specialize (IH all' flag').
    destruct (time_frames_loop list_of_set limit rest all' flag')
      as [[[rest' effects'] final] final_flag].
    simpl. f_equal. exact IH.
Qed.

(** One iteration of the loop, on the strategy at the head: its entry and
    its effects come first, and the strategies after it are processed with
    the aggregate and the flag that its admission leaves. *)
Lemma time_frames_loop_head (limit : Z) (name : string)
    (config_time_frames : list TimeFrames) (rest : strategies_map)
    (all all' : list TimeFrames) (flag flag' : bool) :
  admit_time_frames list_of_set limit all flag config_time_frames =
    (all', flag') ->
  time_frames_loop list_of_set limit ((name, config_time_frames) :: rest)
    all flag =
  let enabled := strategy_enabled_time_frames config_time_frames all' in
  let '(rest', effects', final, final_flag) :=
    time_frames_loop list_of_set limit rest all' flag' in
  ((if flag' then (name, enabled) else (name, config_time_frames)) :: rest',
   (if flag' then
      map (disabled_line name)
        (filter (fun tf => negb (tf_in tf enabled)) config_time_frames) ++
      (if list_eq_dec TimeFrames_eq_dec enabled config_time_frames then []
       else [UpdateTimeFramesConfig name enabled])
    else []) ++ effects',
   final, final_flag).
Proof.
  intros Hadmit. simpl. unfold strategy_step. simpl snd. rewrite Hadmit.
  pose proof (prune_strategy_spec all' name config_time_frames) as Hp.
  cbv zeta in Hp.
  destruct flag'.
  - rewrite Hp.
    destruct (time_frames_loop list_of_set limit rest all' true)
      as [[[rest' effects'] final] final_flag].
    reflexivity.
  - destruct (time_frames_loop list_of_set limit rest all' false)
      as [[[rest' effects'] final] final_flag].
    reflexivity.
Qed.

(** C8.  Timeframe limiter, for a strategy at any place among the activated
    ones.  Let [all] and [flag] be the aggregate and
    [has_disabled_time_frames] when the strategy is reached (what the
    admissions of the strategies before it give), and [all'] and [flag']
    what they are once its own requirements have been admitted, which is the
    point where line 107 tests the flag.  A flag that was set stays set.
    When the flag is set, the entry that the limiter leaves for the strategy,
    at its place, is the requested time frames that are in [all'] (the
    intersection, in the order of the request); the effects of the limiter
    hold, after those of the strategies before it and before those of the
    strategies after it, one disable line for each requested time frame
    outside the intersection and then the call of
    [update_time_frames_config], made exactly when the intersection differs
    from the request.  When the flag is not set the entry is left as it was
    and the strategy has no effect.  Consequently every entry that the
    limiter leaves lies inside the final aggregate, the one its message
    lists. *)
Theorem C8_strategy_pruning (limit : Z) (before after : strategies_map)
    (name : string) (config_time_frames : list TimeFrames)
    (before' after' : strategies_map)
    (effects_before effects_after : list event)
    (all all' final : list TimeFrames) (flag flag' final_flag : bool) :
  time_frames_loop list_of_set limit before [] false =
    (before', effects_before, all, flag) ->
  admit_time_frames list_of_set limit all flag config_time_frames =
    (all', flag') ->
  time_frames_loop list_of_set limit after all' flag' =
    (after', effects_after, final, final_flag) ->
  let strategies := before ++ (name, config_time_frames) :: after in
  let enabled := strategy_enabled_time_frames config_time_frames all' in
  let strategy' :=
    if flag' then (name, enabled) else (name, config_time_frames) in
  let effects :=
    if flag' then
      map (disabled_line name)
        (filter (fun tf => negb (tf_in tf enabled)) config_time_frames) ++
      (if list_eq_dec TimeFrames_eq_dec enabled config_time_frames then []
       else [UpdateTimeFramesConfig name enabled])
    else [] in
  let strategies' := before' ++ strategy' :: after' in
  ((all, flag) = aggregate_state list_of_set limit before /\
   (all', flag') =
     aggregate_state list_of_set limit
       (before ++ [(name, config_time_frames)]) /\
   (final, final_flag) = aggregate_state list_of_set limit strategies) /\
  (flag = true -> flag' = true) /\
  (forall tf, In tf enabled <-> In tf config_time_frames /\ In tf all') /\
  List.length before' = List.length before /\
  time_frames_loop list_of_set limit strategies [] false =
    (strategies', effects_before ++ effects ++ effects_after,
     final, final_flag) /\
  (forall full_config : Configuration,
     tentacles full_config = Some strategies ->
     _apply_time_frames_limits list_of_set full_config limit =
       ({| config := config full_config; tentacles := Some strategies' |},
        effects_before ++ effects ++ effects_after,
        Ok (time_frames_message limit final final_flag))) /\
  Forall (fun strategy => incl (snd strategy) final) strategies'.
Proof.
  intros Hbefore Hadmit Hafter strategies enabled strategy' effects
    strategies'.
  assert (Hloop : time_frames_loop list_of_set limit strategies [] false =
                  (strategies', effects_before ++ effects ++ effects_after,
                   final, final_flag)).
  { unfold strategies. rewrite time_frames_loop_app, Hbefore.
    cbv beta iota.
    rewrite (time_frames_loop_head limit name config_time_frames after
               all all' flag flag' Hadmit).
    cbv zeta. rewrite Hafter. reflexivity. }
  pose proof (time_frames_loop_state limit before [] false) as Hstate.
  rewrite Hbefore in Hstate.
  refine (conj _ (conj _ (conj _ (conj _ (conj Hloop (conj _ _)))))).
  - refine (conj Hstate (conj _ _)).
    + unfold aggregate_state. rewrite fold_left_app. rewrite <- Hstate.
      simpl. symmetry. exact Hadmit.
    + pose proof (time_frames_loop_state limit strategies [] false) as Hfinal.
      rewrite Hloop in Hfinal. exact Hfinal.
  - intros ->.
    pose proof (admit_time_frames_flag limit all config_time_frames) as Hflag.
    rewrite Hadmit in Hflag. exact Hflag.
  - intros tf. apply strategy_enabled_time_frames_In.
  - pose proof (time_frames_loop_len limit before [] false) as Hlen.
    rewrite Hbefore in Hlen. exact Hlen.
  - intros full_config Htentacles. unfold _apply_time_frames_limits.
    rewrite Htentacles. cbv beta iota. rewrite Hloop. reflexivity.
  - pose proof (time_frames_loop_retained limit strategies [] false)
      as Hretained.
    rewrite Hloop in Hretained. exact (proj2 Hretained).
Qed.

End TimeFrameLimiter.

(** Scenario 4 of the specification under ceiling 3.  [S1] is admitted in
    full; [S2], reached with the aggregate 1m, 1h, is left with 1h and 1w,
    the line for 1d is logged and the new list is persisted; both entries
    lie inside the final aggregate 1m, 1h, 1w. *)
Lemma C8_strategy_pruning_witness :
  _apply_time_frames_limits stored_order
    {| config := empty_dict_config; tentacles := Some two_strategies |} 3 =
    ({| config := empty_dict_config;
        tentacles :=
          Some [("S1"%string, [ONE_MINUTE; ONE_HOUR]);
                ("S2"%string, [ONE_HOUR; ONE_WEEK])] |},
     [disabled_line "S2" ONE_DAY;
      UpdateTimeFramesConfig "S2" [ONE_HOUR; ONE_WEEK]],
     Ok (time_frames_message 3 [ONE_MINUTE; ONE_HOUR; ONE_WEEK] true)) /\
  Forall (fun strategy => incl (snd strategy) [ONE_MINUTE; ONE_HOUR; ONE_WEEK])
    [("S1"%string, [ONE_MINUTE; ONE_HOUR]);
     ("S2"%string, [ONE_HOUR; ONE_WEEK])].
Proof.
  assert (Horder : forall (s : list TimeFrames) (tf : TimeFrames),
             In tf (stored_order s) <-> In tf s)
    by (intros s tf; reflexivity).
  destruct (C8_strategy_pruning stored_order Horder 3
              [("S1"%string, [ONE_MINUTE; ONE_HOUR])] []
              "S2" [ONE_HOUR; ONE_DAY; ONE_WEEK]
              [("S1"%string, [ONE_MINUTE; ONE_HOUR])] [] [] []
              [ONE_MINUTE; ONE_HOUR] [ONE_MINUTE; ONE_HOUR; ONE_WEEK]
              [ONE_MINUTE; ONE_HOUR; ONE_WEEK] false true true
              eq_refl eq_refl eq_refl)
    as (_ & _ & _ & _ & _ & Hlimiter & Hretained).
  split.
  - pose proof (Hlimiter {| config := empty_dict_config;
                            tentacles := Some two_strategies |} eq_refl)
      as Hresult.
    destruct (list_eq_dec TimeFrames_eq_dec
                (strategy_enabled_time_frames [ONE_HOUR; ONE_DAY; ONE_WEEK]
                   [ONE_MINUTE; ONE_HOUR; ONE_WEEK])
                [ONE_HOUR; ONE_DAY; ONE_WEEK]) as [Hsame|Hchanged].
    + discriminate Hsame.
    + exact Hresult.
  - exact Hretained.
Defined.

(** ** Where the timeframe limiter leaves its ceiling *)

(** Over the ceiling, with an aggregate that is not exactly full, line 101
    admits [missing_tf[limit - len(all):]]. *)
Lemma admit_time_frames_over_limit
    (order : list TimeFrames -> list TimeFrames) (limit : Z)
    (all : list TimeFrames) (flag : bool)
    (config_time_frames : list TimeFrames) :
  limit < len (set_of_list (all ++ config_time_frames)) ->
  len all <> limit ->
  admit_time_frames order limit all flag config_time_frames =
    (sort_time_frames (all ++ admitted_by_code limit all config_time_frames),
     true).
Proof.
  intros Hover Hne. unfold admit_time_frames.
  replace (len (set_of_list (all ++ config_time_frames)) <? limit) with false
    by (symmetry; apply Z.ltb_ge; lia).
  replace (len (set_of_list (all ++ config_time_frames)) >? limit) with true
    by (symmetry; rewrite Z.gtb_ltb; apply Z.ltb_lt; lia).
  replace (len all =? limit) with false
    by (symmetry; apply Z.eqb_neq; exact Hne).
  reflexivity.
Qed.

(** Below the ceiling the slice drops the [limit - len(all)] shortest
    missing time frames and admits all the others. *)
Lemma admitted_by_code_below (limit : Z)
    (all config_time_frames : list TimeFrames) :
  len all <= limit ->
  admitted_by_code limit all config_time_frames =
    skipn (Z.to_nat (limit - len all))
      (missing_time_frames all config_time_frames).
Proof.
  intros Hle. unfold admitted_by_code, slice_from.
  replace (limit - len all <? 0) with false
    by (symmetry; apply Z.ltb_ge; lia).
  reflexivity.
Qed.

(** C2 fails on the code.  Ceiling 1 and one strategy that requires 1m, 1h
    and 1d: the slice of line 101 drops one missing time frame and admits
    the two others, so the aggregate, the strategy's entry and the message
    hold two time frames. *)
Theorem C2_ceiling_exceeded (order : list TimeFrames -> list TimeFrames) :
  time_frames_loop order 1
    [("S1"%string, [ONE_MINUTE; ONE_HOUR; ONE_DAY])] [] false =
    ([("S1"%string, [ONE_HOUR; ONE_DAY])],
     [disabled_line "S1" ONE_MINUTE;
      UpdateTimeFramesConfig "S1" [ONE_HOUR; ONE_DAY]],
     [ONE_HOUR; ONE_DAY], true) /\
  _apply_time_frames_limits order
    (one_strategy [ONE_MINUTE; ONE_HOUR; ONE_DAY]) 1 =
    (one_strategy [ONE_HOUR; ONE_DAY],
     [disabled_line "S1" ONE_MINUTE;
      UpdateTimeFramesConfig "S1" [ONE_HOUR; ONE_DAY]],
     Ok (time_frames_message 1 [ONE_HOUR; ONE_DAY] true)) /\
  1 < len (set_of_list [ONE_HOUR; ONE_DAY]).
Proof. repeat split. Qed.

(** C3 fails on the code.  Ceiling 3, empty aggregate, a strategy that
    requires 1m, 5m, 1h and 1d: the tail of length 3 of the missing list is
    5m, 1h, 1d, and line 101 admits 1d alone.  In scenario 4 the two agree,
    because the missing list has twice the remaining capacity. *)
Theorem C3_admitted_time_frames (order : list TimeFrames -> list TimeFrames) :
  admit_time_frames order 3 [] false
    [ONE_MINUTE; FIVE_MINUTES; ONE_HOUR; ONE_DAY] = ([ONE_DAY], true) /\
  admitted_by_code 3 [] [ONE_MINUTE; FIVE_MINUTES; ONE_HOUR; ONE_DAY] =
    [ONE_DAY] /\
  admitted_per_spec 3 [] [ONE_MINUTE; FIVE_MINUTES; ONE_HOUR; ONE_DAY] =
    [FIVE_MINUTES; ONE_HOUR; ONE_DAY] /\
  admitted_by_code 3 [ONE_MINUTE; ONE_HOUR] [ONE_HOUR; ONE_DAY; ONE_WEEK] =
    [ONE_WEEK] /\
  admitted_per_spec 3 [ONE_MINUTE; ONE_HOUR] [ONE_HOUR; ONE_DAY; ONE_WEEK] =
    [ONE_WEEK].
Proof. repeat split. Qed.

Lemma insert_time_frame_Permutation (tf : TimeFrames) (l : list TimeFrames) :
  Permutation (insert_time_frame tf l) (tf :: l).
Proof.
  induction l as [|x l IH]; simpl.
  - apply Permutation_refl.
  - destruct (TimeFramesMinutes tf <=? TimeFramesMinutes x).
    + apply Permutation_refl.
    + eapply perm_trans; [apply perm_skip; exact IH | apply perm_swap].
Qed.

Lemma sort_time_frames_Permutation (l : list TimeFrames) :
  Permutation (sort_time_frames l) l.
Proof.
  induction l as [|tf l IH]; simpl.
  - constructor.
  - eapply perm_trans; [apply insert_time_frame_Permutation|].
    apply perm_skip. exact IH.
Qed.

(** Away from the branch of line 106 the aggregate stays in duration
    order: lines 88 and 102 sort it and line 93 leaves it alone. *)
Lemma admit_time_frames_sorted (order : list TimeFrames -> list TimeFrames)
    (limit : Z) (all : list TimeFrames) (flag : bool)
    (config_time_frames : list TimeFrames) :
  in_duration_order all ->
  len (set_of_list (all ++ config_time_frames)) <> limit ->
  in_duration_order
    (fst (admit_time_frames order limit all flag config_time_frames)).
Proof.
  intros Hall Hne. unfold admit_time_frames.
  destruct (len (set_of_list (all ++ config_time_frames)) <? limit) eqn:Hlt.
  - apply sort_time_frames_sorted.
  - destruct (len (set_of_list (all ++ config_time_frames)) >? limit) eqn:Hgt.
    + destruct (len all =? limit); [exact Hall|].
      apply sort_time_frames_sorted.
    + apply Z.ltb_ge in Hlt. rewrite Z.gtb_ltb in Hgt.
      apply Z.ltb_ge in Hgt. lia.
Qed.

(** C4 fails on the code.  Ceiling 2, [S1] requires 1m and 1h, [S2]
    requires 1d, and the set of line 86 iterates longest first (a listing of
    its members like any other).  After [S1] the union has exactly 2
    members, line 106 keeps the set's own order, and the aggregate is 1h,
    1m; [S2] goes over the ceiling, and the message lists 1h before 1m. *)
Theorem C4_aggregate_out_of_order :
  (forall s : list TimeFrames, Permutation (longest_first s) s) /\
  admit_time_frames longest_first 2 [] false [ONE_MINUTE; ONE_HOUR] =
    ([ONE_HOUR; ONE_MINUTE], false) /\
  ~ in_duration_order [ONE_HOUR; ONE_MINUTE] /\
  snd (_apply_time_frames_limits longest_first short_then_long 2) =
    Ok (time_frames_message 2 [ONE_HOUR; ONE_MINUTE] true) /\
  time_frames_message 2 [ONE_HOUR; ONE_MINUTE] true =
    ("Reached maximum allowed simultaneous time frames for this plan, "
     +++ "maximum is 2. Your OctoBot will trade using following time frames: "
     +++ "1h, 1m.").
Proof.
  split.
  { intros s. unfold longest_first.
    eapply perm_trans; [apply Permutation_sym, Permutation_rev|].
    apply sort_time_frames_Permutation. }
  split; [reflexivity|]. split; [|split; reflexivity].
  intros Hsorted. inversion Hsorted as [|? ? _ Hhd]; subst.
  inversion Hhd as [|? ? Hle]; subst.
  unfold duration_le in Hle. simpl in Hle. lia.
Qed.

(** C5 fails on the code.  Ceilings 2, 2 and 1 on three exchanges, three
    pairs and one strategy that requires 1m, 1h and 1d.  The first pass
    leaves the strategy with 1h and 1d (one more than the ceiling) and
    returns three messages.  The second pass changes nothing for exchanges
    and symbols, but cuts the strategy down to 1d and returns a message
    again. *)
Theorem C5_second_pass_differs (order : list TimeFrames -> list TimeFrames) :
  let pass := apply_config_limits "*" unlimited 2 2 1 order in
  let first := pass (over_provisioned [ONE_MINUTE; ONE_HOUR; ONE_DAY]) in
  let second := pass (fst (fst first)) in
  fst (fst first) = trimmed [ONE_HOUR; ONE_DAY] /\
  snd first =
    [exchanges_message 2 ["A"; "B"]%string;
     symbols_summary 2 ["BTC/USD"; "BTC/EUR"]%string;
     time_frames_message 1 [ONE_HOUR; ONE_DAY] true] /\
  fst (fst second) = trimmed [ONE_DAY] /\
  snd second = [time_frames_message 1 [ONE_DAY] true] /\
  fst (fst second) <> fst (fst first) /\
  snd second <> [].
Proof.
  cbv zeta. repeat split; discriminate.
Qed.

(** ** A second pass over exchanges and symbols

    The two dictionary limiters are idempotent for every ceiling of at
    least 0: run again on the configuration they left, they change nothing,
    log nothing and return no message (or raise on the same missing key). *)

Lemma exchanges_limits_second_pass (cfg cfg1 : dict_config) (limit : Z) :
  0 <= limit ->
  exchanges cfg1 = exchanges (fst (fst (_apply_exchanges_limits cfg limit))) ->
  fst (_apply_exchanges_limits cfg1 limit) = (cfg1, []) /\
  (snd (_apply_exchanges_limits cfg1 limit) = Ok ""%string \/
   snd (_apply_exchanges_limits cfg1 limit) =
     Raise (KeyError CONFIG_EXCHANGES)).
Proof.
  intros Hlimit.
  destruct (_apply_exchanges_limits cfg limit) as [[cfg' lines'] r']
    eqn:Hfirst.
  simpl fst. unfold _apply_exchanges_limits in Hfirst.
  destruct (exchanges cfg) as [m|] eqn:Hm.
  - rewrite enabled_exchange_keys_len in Hfirst.
    destruct (len (enabled_entries m) >? limit) eqn:Hover.
    + pose proof (exchanges_loop_spec limit m []) as H.
      destruct (exchanges_loop limit [] m) as [[m' final] lines].
      cbv zeta in H. destruct H as (_ & Hent & _).
      rewrite len_nil, Z.sub_0_r in Hent.
      injection Hfirst as <- _ _. simpl exchanges. intros H1.
      unfold _apply_exchanges_limits. rewrite H1.
      rewrite enabled_exchange_keys_len, Hent.
      pose proof (len_firstn_le (Z.to_nat limit) (enabled_entries m)) as Hle.
      replace (len (firstn (Z.to_nat limit) (enabled_entries m)) >? limit)
        with false
        by (symmetry; rewrite Z.gtb_ltb; apply Z.ltb_ge; lia).
      simpl. auto.
    + injection Hfirst as <- _ _. intros H1.
      unfold _apply_exchanges_limits. rewrite H1, Hm.
      rewrite enabled_exchange_keys_len, Hover. simpl. auto.
  - injection Hfirst as <- _ _. intros H1.
    unfold _apply_exchanges_limits. rewrite H1, Hm. simpl. auto.
Qed.

Section SymbolsSecondPass.

Variable CONFIG_WILDCARD : string.

Lemma before_wildcard_clean (pairs : list string) :
  Forall (fun symbol => is_wildcard CONFIG_WILDCARD symbol = false)
    (before_wildcard CONFIG_WILDCARD pairs).
Proof.
  induction pairs as [|symbol rest IH]; simpl; [constructor|].
  destruct (is_wildcard CONFIG_WILDCARD symbol) eqn:Hw; constructor; auto.
Qed.

Lemma before_wildcard_all (pairs : list string) :
  Forall (fun symbol => is_wildcard CONFIG_WILDCARD symbol = false) pairs ->
  before_wildcard CONFIG_WILDCARD pairs = pairs /\
  existsb (is_wildcard CONFIG_WILDCARD) pairs = false.
Proof.
  induction 1 as [|symbol rest Hw _ [IH1 IH2]]; simpl; [auto|].
  rewrite Hw, IH1, IH2. auto.
Qed.

Lemma Forall_firstn {A : Type} (P : A -> Prop) (n : nat) (l : list A) :
  Forall P l -> Forall P (firstn n l).
Proof.
  revert l. induction n as [|n IH]; intros [|x l] H; simpl;
    try constructor; inversion H; subst; auto.
Qed.

(** Pairs without a wildcard that fit under the ceiling are all accepted
    and nothing else happens. *)
Lemma scan_pairs_accepts (limit : Z) (currency : string)
    (pairs : list string) (st : symbols_state) :
  Forall (fun symbol => is_wildcard CONFIG_WILDCARD symbol = false) pairs ->
  len (enabled_symbols st) + len pairs <= limit ->
  scan_pairs CONFIG_WILDCARD limit currency pairs st [] =
    {| scan_state :=
         {| enabled_symbols := enabled_symbols st ++ pairs;
            has_disabled_symbols := has_disabled_symbols st;
            message := message st;
            symbols_lines := symbols_lines st |};
       updated_symbols := pairs;
       wildcard_found := false |}.
Proof.
  intros Hclean Hfit.
  destruct (before_wildcard_all pairs Hclean) as [Hpre Hnone].
  destruct (scan_pairs_before_wildcard CONFIG_WILDCARD limit currency pairs
              st []) as (H1 & H2 & H3 & H4 & H5 & H6).
  rewrite Hpre in *. rewrite Hnone in *. rewrite H4 in *.
  assert (Hroom : (List.length pairs <=
                   Z.to_nat (limit - len (enabled_symbols st)))%nat)
    by (unfold len in *; lia).
  rewrite firstn_all2 in H1, H2 by exact Hroom.
  rewrite skipn_all2 in H3, H6 by exact Hroom.
  simpl in H2, H3, H6. rewrite app_nil_r in H3.
  rewrite !orb_false_r in H6.
  destruct (scan_pairs CONFIG_WILDCARD limit currency pairs st [])
    as [[en hd msg lines] updated wild].
  simpl in *. subst. reflexivity.
Qed.

(** The loop run again on the mapping it left, from a state that has
    accepted no more symbols than the first run had at the same point:
    the mapping and the state's flag, note and lines are unchanged, and
    the same exception, if any, is raised. *)
Lemma symbols_loop_second_pass (limit : Z) (items : currencies_map) :
  forall st1 st2 : symbols_state,
    len (enabled_symbols st2) <= len (enabled_symbols st1) ->
    let '(m1, _, err1) := symbols_loop CONFIG_WILDCARD limit items st1 in
    let '(m2, final2, err2) := symbols_loop CONFIG_WILDCARD limit m1 st2 in
    m2 = m1 /\ err2 = err1 /\
    has_disabled_symbols final2 = has_disabled_symbols st2 /\
    message final2 = message st2 /\
    symbols_lines final2 = symbols_lines st2.
Proof.
  induction items as [|[currency data] rest IH]; intros st1 st2 Hle.
  - simpl. auto.
  - simpl symbols_loop at 1.
    destruct (get_enabled (cur_enabled data)) eqn:Hen.
    + destruct (len (enabled_symbols st1) >=? limit) eqn:Hge.
      * match goal with
        | |- context [symbols_loop CONFIG_WILDCARD limit rest ?s] =>
            specialize (IH s st2 Hle)
        end.
        destruct (symbols_loop CONFIG_WILDCARD limit rest _)
          as [[m1 final1] err1].
        simpl symbols_loop.
        destruct (symbols_loop CONFIG_WILDCARD limit m1 st2)
          as [[m2 final2] err2].
        destruct IH as (-> & -> & IH). auto.
      * rewrite Z.geb_leb in Hge. apply Z.leb_gt in Hge.
        destruct (cur_pairs data) as [pairs|] eqn:Hpairs.
        -- destruct (scan_pairs_before_wildcard CONFIG_WILDCARD limit
                       currency pairs st1 [])
             as (H1 & H2 & _ & H4 & _).
           simpl in H2.
           set (r := scan_pairs CONFIG_WILDCARD limit currency pairs st1 [])
             in *.
           destruct (wildcard_found r) eqn:Hwild.
           ++ assert (Hle' : len (enabled_symbols st2) <=
                             len (enabled_symbols (scan_state r))).
              { rewrite H1, len_app.
                pose proof (len_nonneg
                  (firstn (Z.to_nat (limit - len (enabled_symbols st1)))
                     (before_wildcard CONFIG_WILDCARD pairs))). lia. }
              specialize (IH (scan_state r) st2 Hle').
              destruct (symbols_loop CONFIG_WILDCARD limit rest (scan_state r))
                as [[m1 final1] err1].
              simpl symbols_loop.
              destruct (symbols_loop CONFIG_WILDCARD limit m1 st2)
                as [[m2 final2] err2].
              destruct IH as (-> & -> & IH). auto.
           ++ set (kept := firstn
                             (Z.to_nat (limit - len (enabled_symbols st1)))
                             (before_wildcard CONFIG_WILDCARD pairs)) in *.
              assert (Hclean :
                Forall (fun symbol =>
                          is_wildcard CONFIG_WILDCARD symbol = false) kept)
                by (apply Forall_firstn, before_wildcard_clean).
              assert (Hfit : len (enabled_symbols st2) + len kept <= limit).
              { pose proof (len_firstn_le
                  (Z.to_nat (limit - len (enabled_symbols st1)))
                  (before_wildcard CONFIG_WILDCARD pairs)) as Hk.
                fold kept in Hk. lia. }
              pose proof (scan_pairs_accepts limit currency kept st2
                            Hclean Hfit) as Hscan.
              match type of Hscan with
              | _ = {| scan_state := ?s; updated_symbols := _;
                       wildcard_found := _ |} =>
                  assert (Hle' : len (enabled_symbols s) <=
                                 len (enabled_symbols (scan_state r)))
                    by (simpl; rewrite H1; fold kept;
                        rewrite !len_app; lia);
                  specialize (IH (scan_state r) s Hle')
              end.
              destruct (symbols_loop CONFIG_WILDCARD limit rest (scan_state r))
                as [[m1 final1] err1].
              simpl symbols_loop. rewrite Hen.
              replace (len (enabled_symbols st2) >=? limit) with false
                by (symmetry; rewrite Z.geb_leb; apply Z.leb_gt; lia).
              rewrite H2, Hscan. cbn [wildcard_found updated_symbols scan_state].
              destruct (symbols_loop CONFIG_WILDCARD limit m1 _)
                as [[m2 final2] err2].
              destruct IH as (-> & -> & IH). simpl in IH.
              split; [|auto]. unfold set_pairs. reflexivity.
        -- simpl symbols_loop. rewrite Hen, Hpairs.
           replace (len (enabled_symbols st2) >=? limit) with false
             by (symmetry; rewrite Z.geb_leb; apply Z.leb_gt; lia).
           auto.
    + specialize (IH st1 st2 Hle).
      destruct (symbols_loop CONFIG_WILDCARD limit rest st1)
        as [[m1 final1] err1].
      simpl symbols_loop. rewrite Hen.
      destruct (symbols_loop CONFIG_WILDCARD limit m1 st2)
        as [[m2 final2] err2].
      destruct IH as (-> & -> & IH). auto.
Qed.

Lemma symbols_limits_second_pass (cfg cfg1 : dict_config) (limit : Z) :
  crypto_currencies cfg1 =
    crypto_currencies
      (fst (fst (_apply_symbols_limits CONFIG_WILDCARD cfg limit))) ->
  fst (_apply_symbols_limits CONFIG_WILDCARD cfg1 limit) = (cfg1, []) /\
  (snd (_apply_symbols_limits CONFIG_WILDCARD cfg1 limit) = Ok ""%string \/
   exists err : exn,
     snd (_apply_symbols_limits CONFIG_WILDCARD cfg1 limit) = Raise err).
Proof.
  unfold _apply_symbols_limits at 1.
  destruct (crypto_currencies cfg) as [m|] eqn:Hm.
  - pose proof (symbols_loop_second_pass limit m symbols_init symbols_init
                  (Z.le_refl _)) as H.
    destruct (symbols_loop CONFIG_WILDCARD limit m symbols_init)
      as [[m1 final1] err1].
    simpl. intros H1. unfold _apply_symbols_limits. rewrite H1.
    destruct (symbols_loop CONFIG_WILDCARD limit m1 symbols_init)
      as [[m2 final2] err2].
    destruct H as (-> & -> & Hd & Hmsg & Hlines). simpl in Hd, Hmsg, Hlines.
    rewrite Hlines. simpl. split.
    + destruct cfg1. simpl in H1. subst. reflexivity.
    + destruct err1 as [e|]; [right; eauto|left].
      unfold symbols_message. rewrite Hd, Hmsg. reflexivity.
  - simpl. intros H1. unfold _apply_symbols_limits. rewrite H1, Hm. simpl.
    split; [reflexivity | right; eauto].
Qed.

End SymbolsSecondPass.

(** With the timeframe ceiling unlimited, a pass is idempotent: the second
    pass leaves the configuration of the first and returns no message. *)

Section DictionaryPass.

Variable CONFIG_WILDCARD : string.
Variable UNLIMITED_ALLOWED : Z.
Variable MAX_ALLOWED_EXCHANGES : Z.
Variable MAX_ALLOWED_SYMBOLS : Z.
Variable list_of_set : list TimeFrames -> list TimeFrames.

Hypothesis exchanges_ceiling :
  MAX_ALLOWED_EXCHANGES = UNLIMITED_ALLOWED \/ 0 <= MAX_ALLOWED_EXCHANGES.

Lemma guarded_limiter_settled
    (limiter : dict_config -> Z -> dict_config * list string * result string)
    (ceiling : Z) (s : pass_state) :
  ceiling = UNLIMITED_ALLOWED \/
  settled limiter ceiling (config (pass_configuration s)) ->
  fst (guarded_limiter UNLIMITED_ALLOWED ceiling (on_dict_config limiter) s)
  = s.
Proof.
  unfold guarded_limiter, on_dict_config, settled.
  intros [->|[Hfst Hsnd]]; [rewrite Z.eqb_refl; reflexivity|].
  destruct (ceiling =? UNLIMITED_ALLOWED); [reflexivity|].
  destruct (limiter (config (pass_configuration s)) ceiling)
    as [[cfg' lines] r].
  simpl in Hfst, Hsnd. injection Hfst as -> ->.
  destruct s as [[cfg tent] effects msgs]. simpl.
  destruct Hsnd as [->|[err ->]]; simpl; rewrite app_nil_r; reflexivity.
Qed.

Lemma exchanges_limits_frame (cfg : dict_config) (limit : Z) :
  crypto_currencies (fst (fst (_apply_exchanges_limits cfg limit))) =
  crypto_currencies cfg.
Proof.
  unfold _apply_exchanges_limits.
  destruct (exchanges cfg) as [m|]; [|reflexivity].
  destruct (len (enabled_exchange_keys m) >? limit); [|reflexivity].
  destruct (exchanges_loop limit [] m) as [[m' final] lines]. reflexivity.
Qed.

Lemma symbols_limits_frame (cfg : dict_config) (limit : Z) :
  exchanges (fst (fst (_apply_symbols_limits CONFIG_WILDCARD cfg limit))) =
  exchanges cfg.
Proof.
  unfold _apply_symbols_limits.
  destruct (crypto_currencies cfg) as [m|]; [|reflexivity].
  destruct (symbols_loop CONFIG_WILDCARD limit m symbols_init)
    as [[m' final] err].
  reflexivity.
Qed.

(** The exchange limiter raises exactly on a missing [exchanges] key. *)
Lemma exchanges_limits_raise_iff (cfg : dict_config) (limit : Z) :
  (exists err, snd (_apply_exchanges_limits cfg limit) = Raise err) <->
  exchanges cfg = None.
Proof.
  unfold _apply_exchanges_limits.
  destruct (exchanges cfg) as [m|].
  - split; [|discriminate]. intros [err H]. exfalso.
    destruct (len (enabled_exchange_keys m) >? limit).
    + destruct (exchanges_loop limit [] m) as [[m' final] lines].
      discriminate.
    + discriminate.
  - split; [reflexivity|]. intros _. eexists. reflexivity.
Qed.

(** X17.  A pass under limited exchange and symbol ceilings (the exchange
    ceiling at least 0) and an unlimited timeframe ceiling is idempotent for
    every configuration, well formed or not: a second pass leaves the
    configuration of the first and returns no message. *)
Theorem dictionary_limits_idempotent (configuration : Configuration) :
  let pass :=
    apply_config_limits CONFIG_WILDCARD UNLIMITED_ALLOWED
      MAX_ALLOWED_EXCHANGES MAX_ALLOWED_SYMBOLS UNLIMITED_ALLOWED
      list_of_set in
  let first := pass configuration in
  let second := pass (fst (fst first)) in
  fst (fst second) = fst (fst first) /\ snd second = [].
Proof.
  cbv zeta.
  set (c1 := fst (fst (apply_config_limits CONFIG_WILDCARD UNLIMITED_ALLOWED
                         MAX_ALLOWED_EXCHANGES MAX_ALLOWED_SYMBOLS
                         UNLIMITED_ALLOWED list_of_set configuration))).
  (* what the first pass guarantees *)
  assert (F1 : exchanges (config c1) =
               exchanges (fst (fst (_apply_exchanges_limits
                                      (config configuration)
                                      MAX_ALLOWED_EXCHANGES))) \/
               MAX_ALLOWED_EXCHANGES = UNLIMITED_ALLOWED).
  { subst c1. unfold apply_config_limits, try_body, guarded_limiter,
      on_dict_config.
    cbn [pass_configuration pass_effects limit_warning_messages].
    destruct (MAX_ALLOWED_EXCHANGES =? UNLIMITED_ALLOWED) eqn:He;
      [right; apply Z.eqb_eq; exact He | left].
    destruct (_apply_exchanges_limits (config configuration)
                MAX_ALLOWED_EXCHANGES) as [[cfa la] [ma|ea]];
      [|reflexivity].
    cbn [pass_configuration config fst].
    destruct (MAX_ALLOWED_SYMBOLS =? UNLIMITED_ALLOWED).
    - rewrite Z.eqb_refl. reflexivity.
    - pose proof (symbols_limits_frame cfa MAX_ALLOWED_SYMBOLS) as Hf.
      destruct (_apply_symbols_limits CONFIG_WILDCARD cfa MAX_ALLOWED_SYMBOLS)
        as [[cfb lb] [mb|eb]]; simpl in Hf |- *.
      + rewrite Z.eqb_refl. simpl. exact Hf.
      + exact Hf. }
  assert (F2 : MAX_ALLOWED_SYMBOLS = UNLIMITED_ALLOWED \/
               (MAX_ALLOWED_EXCHANGES <> UNLIMITED_ALLOWED /\
                exchanges (config c1) = None) \/
               exists cfg,
                 crypto_currencies (config c1) =
                 crypto_currencies
                   (fst (fst (_apply_symbols_limits CONFIG_WILDCARD cfg
                                MAX_ALLOWED_SYMBOLS)))).
  { subst c1. unfold apply_config_limits, try_body, guarded_limiter,
      on_dict_config.
    cbn [pass_configuration pass_effects limit_warning_messages].
    destruct (MAX_ALLOWED_SYMBOLS =? UNLIMITED_ALLOWED) eqn:Hs;
      [left; apply Z.eqb_eq; exact Hs | right].
    destruct (MAX_ALLOWED_EXCHANGES =? UNLIMITED_ALLOWED) eqn:He.
    - right. exists (config configuration).
      cbn [pass_configuration config fst].
      destruct (_apply_symbols_limits CONFIG_WILDCARD (config configuration)
                  MAX_ALLOWED_SYMBOLS) as [[cfb lb] [mb|eb]]; simpl.
      + rewrite Z.eqb_refl. reflexivity.
      + reflexivity.
    - pose proof (exchanges_limits_raise_iff (config configuration)
                    MAX_ALLOWED_EXCHANGES) as Hr.
      destruct (_apply_exchanges_limits (config configuration)
                  MAX_ALLOWED_EXCHANGES) as [[cfa la] [ma|ea]] eqn:Hex.
      + right. exists cfa. cbn [pass_configuration config fst].
        destruct (_apply_symbols_limits CONFIG_WILDCARD cfa
                    MAX_ALLOWED_SYMBOLS) as [[cfb lb] [mb|eb]]; simpl.
        * rewrite Z.eqb_refl. reflexivity.
        * reflexivity.
      + left. split; [apply Z.eqb_neq; exact He|].
        assert (Hnone : exchanges (config configuration) = None)
          by (apply (proj1 Hr); exists ea; reflexivity).
        simpl. unfold _apply_exchanges_limits in Hex.
        rewrite Hnone in Hex. injection Hex as <- _ _. exact Hnone. }
  (* the second pass *)
  assert (S1 : MAX_ALLOWED_EXCHANGES = UNLIMITED_ALLOWED \/
               settled _apply_exchanges_limits MAX_ALLOWED_EXCHANGES
                 (config c1)).
  { destruct exchanges_ceiling as [Hu|Hpos]; [left; exact Hu|].
    destruct F1 as [F1|Hu]; [right | left; exact Hu].
    destruct (exchanges_limits_second_pass (config configuration)
                (config c1) MAX_ALLOWED_EXCHANGES Hpos F1) as [Ha Hb].
    split; [exact Ha|]. destruct Hb as [Hb|Hb]; eauto. }
  unfold apply_config_limits at 1 2. unfold try_body.
  match goal with
  | |- context [guarded_limiter _ MAX_ALLOWED_EXCHANGES _ ?s] =>
      pose proof (guarded_limiter_settled _apply_exchanges_limits
                    MAX_ALLOWED_EXCHANGES s S1) as G1;
      destruct (guarded_limiter UNLIMITED_ALLOWED MAX_ALLOWED_EXCHANGES
                  (on_dict_config _apply_exchanges_limits) s)
        as [s1 raised1] eqn:Hg1
  end.
  simpl in G1. subst s1.
  destruct raised1 as [e1|]; [simpl; auto|].
  assert (S2 : MAX_ALLOWED_SYMBOLS = UNLIMITED_ALLOWED \/
               settled (_apply_symbols_limits CONFIG_WILDCARD)
                 MAX_ALLOWED_SYMBOLS (config c1)).
  { destruct F2 as [Hu|[[Hne Hnone]|[cfg Hc]]]; [left; exact Hu | |right].
    - exfalso. unfold guarded_limiter, on_dict_config in Hg1.
      apply Z.eqb_neq in Hne. rewrite Hne in Hg1.
      cbn [pass_configuration] in Hg1.
      apply exchanges_limits_raise_iff with (limit := MAX_ALLOWED_EXCHANGES)
        in Hnone.
      destruct Hnone as [err Herr].
      destruct (_apply_exchanges_limits (config c1) MAX_ALLOWED_EXCHANGES)
        as [[cfa la] ra].
      simpl in Herr. subst ra. discriminate Hg1.
    - exact (symbols_limits_second_pass CONFIG_WILDCARD cfg (config c1)
               MAX_ALLOWED_SYMBOLS Hc). }
  match goal with
  | |- context [guarded_limiter _ MAX_ALLOWED_SYMBOLS _ ?s] =>
      pose proof (guarded_limiter_settled
                    (_apply_symbols_limits CONFIG_WILDCARD)
                    MAX_ALLOWED_SYMBOLS s S2) as G2;
      destruct (guarded_limiter UNLIMITED_ALLOWED MAX_ALLOWED_SYMBOLS
                  (on_dict_config (_apply_symbols_limits CONFIG_WILDCARD)) s)
        as [s2 raised2]
  end.
  simpl in G2. subst s2.
  destruct raised2 as [e2|]; [simpl; auto|].
  unfold guarded_limiter. rewrite Z.eqb_refl. simpl. auto.
Qed.

End DictionaryPass.

(** * Further properties of the limiters *)

(** ** Exchange limiter: log, frame, silence *)

Lemma exchanges_loop_effects (limit : Z) (items : exchanges_map) :
  forall acc : list string,
    let room := Z.to_nat (limit - len acc) in
    let '(m', _, lines) := exchanges_loop limit acc items in
    lines = map disabled_exchange_line (skipn room (enabled_entries items)) /\
    Forall2 same_exchange items m'.
Proof.
  induction items as [|[exchange config] rest IH]; intros acc room.
  - simpl. unfold enabled_entries. simpl. rewrite skipn_nil. auto.
  - simpl exchanges_loop. rewrite enabled_entries_cons.
    change (get_enabled (ex_enabled config))
      with (exchange_enabled (exchange, config)).
    destruct (exchange_enabled (exchange, config)) eqn:Hen.
    + destruct (len acc <? limit) eqn:Hlt.
      * apply Z.ltb_lt in Hlt.
        specialize (IH (acc ++ [exchange])).
        destruct (exchanges_loop limit (acc ++ [exchange]) rest)
          as [[rest' final] lines].
        cbv zeta in IH. rewrite len_app, len_cons, len_nil in IH.
        destruct IH as [Hlines Hsame].
        replace room with (S (Z.to_nat (limit - (len acc + (1 + 0)))))
          by (subst room; lia).
        rewrite skipn_cons. split; [exact Hlines|].
        constructor; [split; reflexivity | exact Hsame].
      * apply Z.ltb_ge in Hlt.
        specialize (IH acc).
        destruct (exchanges_loop limit acc rest) as [[rest' final] lines].
        cbv zeta in IH. destruct IH as [Hlines Hsame].
        replace room with 0%nat by (subst room; lia).
        replace (Z.to_nat (limit - len acc)) with 0%nat in Hlines by lia.
        rewrite skipn_0 in *. simpl map. split.
        -- rewrite Hlines. reflexivity.
        -- constructor; [split; reflexivity | exact Hsame].
    + specialize (IH acc).
      destruct (exchanges_loop limit acc rest) as [[rest' final] lines].
      cbv zeta in IH. destruct IH as [Hlines Hsame].
      split; [exact Hlines|].
      constructor; [split; reflexivity | exact Hsame].
Qed.

(** X1.  Exchange limiter, any mapping and any ceiling: one line
    [Disabled <name>] is logged for each enabled entry beyond the first
    [limit] enabled ones, in iteration order, and nothing else; every entry
    keeps its place, its name and its market type, and the currencies are
    not touched. *)
Theorem X1_exchanges_limiter_log_and_frame (cfg : dict_config)
    (m : exchanges_map) (limit : Z) :
  exchanges cfg = Some m ->
  let '(cfg', lines, _) := _apply_exchanges_limits cfg limit in
  lines = map disabled_exchange_line
            (skipn (Z.to_nat limit) (enabled_entries m)) /\
  (exists m', exchanges cfg' = Some m' /\ Forall2 same_exchange m m') /\
  crypto_currencies cfg' = crypto_currencies cfg.
Proof.
  intros Hm. unfold _apply_exchanges_limits. rewrite Hm.
  rewrite enabled_exchange_keys_len.
  destruct (len (enabled_entries m) >? limit) eqn:Hover.
  - pose proof (exchanges_loop_effects limit m []) as H.
    destruct (exchanges_loop limit [] m) as [[m' final] lines].
    cbv zeta in H. rewrite len_nil, Z.sub_0_r in H.
    destruct H as [Hlines Hsame].
    split; [exact Hlines|]. split; [|reflexivity].
    exists m'. split; [reflexivity | exact Hsame].
  - rewrite Z.gtb_ltb in Hover. apply Z.ltb_ge in Hover.
    split; [|split; [|reflexivity]].
    + rewrite skipn_all2; [reflexivity|]. unfold len in Hover. lia.
    + exists m. split; [exact Hm|].
      apply Forall2_same. intros a. split; reflexivity.
Qed.

(** Scenario 1 under ceiling 2: the only line is for [C]. *)
Lemma X1_exchanges_limiter_log_and_frame_witness :
  snd (fst (_apply_exchanges_limits three_exchanges_config 2)) =
  ["Disabled C"%string].
Proof.
  pose proof (X1_exchanges_limiter_log_and_frame three_exchanges_config
                three_exchanges 2 eq_refl) as H.
  destruct (_apply_exchanges_limits three_exchanges_config 2)
    as [[cfg' lines] r].
  destruct H as [H _]. exact H.
Defined.

Lemma exchanges_message_truthy (limit : Z) (names : list string) :
  truthy (exchanges_message limit names) = true.
Proof. reflexivity. Qed.

(** X2.  Exchange limiter, any ceiling of at least 0: run again on the
    configuration it left, the limiter changes nothing, logs nothing and
    returns the empty message (or raises on the same missing key). *)
Theorem X2_exchanges_limiter_idempotent (cfg : dict_config) (limit : Z) :
  0 <= limit ->
  let first := _apply_exchanges_limits cfg limit in
  let second := _apply_exchanges_limits (fst (fst first)) limit in
  fst second = (fst (fst first), []) /\
  (snd second = Ok ""%string \/
   snd second = Raise (KeyError CONFIG_EXCHANGES)).
Proof.
  intros Hlimit. cbv zeta.
  apply (exchanges_limits_second_pass cfg); [exact Hlimit | reflexivity].
Qed.

(** Scenario 1 under ceiling 2, limited twice. *)
Lemma X2_exchanges_limiter_idempotent_witness :
  let first := _apply_exchanges_limits three_exchanges_config 2 in
  fst (_apply_exchanges_limits (fst (fst first)) 2) = (fst (fst first), []).
Proof.
  cbv zeta.
  destruct (X2_exchanges_limiter_idempotent three_exchanges_config 2
              ltac:(lia)) as [H _].
  exact H.
Defined.

(** X3.  Exchange limiter, any ceiling of at least 0: the returned message
    is empty exactly when the configuration is left as it was, and exactly
    when nothing was logged. *)
Theorem X3_exchanges_limiter_silent_iff_unchanged (cfg : dict_config)
    (m : exchanges_map) (limit : Z) :
  0 <= limit ->
  exchanges cfg = Some m ->
  let '(cfg', lines, r) := _apply_exchanges_limits cfg limit in
  (r = Ok ""%string <-> cfg' = cfg) /\
  (r = Ok ""%string <-> lines = []).
Proof.
  intros Hlimit Hm. unfold _apply_exchanges_limits. rewrite Hm.
  rewrite enabled_exchange_keys_len.
  destruct (len (enabled_entries m) >? limit) eqn:Hover; [|tauto].
  rewrite Z.gtb_ltb in Hover. apply Z.ltb_lt in Hover.
  pose proof (exchanges_loop_spec limit m []) as Hspec.
  pose proof (exchanges_loop_effects limit m []) as Heff.
  destruct (exchanges_loop limit [] m) as [[m' final] lines].
  cbv zeta in Hspec, Heff. rewrite len_nil, Z.sub_0_r in Hspec, Heff.
  destruct Hspec as (_ & Hent & _). destruct Heff as [Hlines _].
  assert (Hmsg : Ok (exchanges_message limit final) <> Ok ""%string).
  { intros H. injection H as H.
    pose proof (exchanges_message_truthy limit final) as Ht.
    rewrite H in Ht. discriminate. }
  split; split; intros H; try (exfalso; apply Hmsg; exact H); exfalso.
  - assert (Hmm : m' = m).
    { destruct cfg as [ex cur]. unfold set_exchanges in H. simpl in *.
      injection H as H. congruence. }
    subst m'. apply (f_equal (@List.length _)) in Hent.
    rewrite length_firstn in Hent. unfold len in Hover. lia.
  - rewrite H in Hlines. symmetry in Hlines. apply map_eq_nil in Hlines.
    apply (f_equal (@List.length _)) in Hlines.
    rewrite length_skipn in Hlines. simpl in Hlines.
    unfold len in Hover. lia.
Qed.

(** Scenario 1 under ceiling 3: silent and unchanged. *)
Lemma X3_exchanges_limiter_silent_iff_unchanged_witness :
  snd (_apply_exchanges_limits three_exchanges_config 3) = Ok ""%string <->
  fst (fst (_apply_exchanges_limits three_exchanges_config 3)) =
    three_exchanges_config.
Proof.
  pose proof (X3_exchanges_limiter_silent_iff_unchanged
                three_exchanges_config three_exchanges 3
                ltac:(lia) eq_refl) as H.
  destruct (_apply_exchanges_limits three_exchanges_config 3)
    as [[cfg' lines] r].
  exact (proj1 H).
Defined.

(** X4.  Exchange limiter under a negative ceiling: every enabled entry is
    switched off, with one line each, and the message, which names no
    exchange, is never empty.  The same message comes back on every further
    call, also once no entry is enabled. *)
Theorem X4_exchanges_limiter_negative_ceiling (cfg : dict_config)
    (m : exchanges_map) (limit : Z) :
  limit < 0 ->
  exchanges cfg = Some m ->
  exists m' : exchanges_map,
    _apply_exchanges_limits cfg limit =
      (set_exchanges cfg m',
       map disabled_exchange_line (enabled_entries m),
       Ok (exchanges_message limit [])) /\
    enabled_entries m' = [] /\
    truthy (exchanges_message limit []) = true.
Proof.
  intros Hlimit Hm. unfold _apply_exchanges_limits. rewrite Hm.
  rewrite enabled_exchange_keys_len.
  pose proof (len_nonneg (enabled_entries m)) as Hlen.
  replace (len (enabled_entries m) >? limit) with true
    by (symmetry; rewrite Z.gtb_ltb; apply Z.ltb_lt; lia).
  pose proof (exchanges_loop_spec limit m []) as Hspec.
  pose proof (exchanges_loop_effects limit m []) as Heff.
  destruct (exchanges_loop limit [] m) as [[m' final] lines].
  cbv zeta in Hspec, Heff. rewrite len_nil, Z.sub_0_r in Hspec, Heff.
  replace (Z.to_nat limit) with 0%nat in Hspec, Heff by lia.
  rewrite firstn_0 in Hspec. rewrite skipn_0 in Heff.
  destruct Hspec as (Hfin & Hent & _). destruct Heff as [Hlines _].
  simpl in Hfin. subst final lines.
  exists m'. split; [reflexivity|]. split; [exact Hent | reflexivity].
Qed.

(** Scenario 1 under ceiling -2. *)
Lemma X4_exchanges_limiter_negative_ceiling_witness :
  exists m' : exchanges_map,
    _apply_exchanges_limits three_exchanges_config (-2) =
      (set_exchanges three_exchanges_config m',
       ["Disabled A"; "Disabled B"; "Disabled C"]%string,
       Ok (exchanges_message (-2) [])).
Proof.
  destruct (X4_exchanges_limiter_negative_ceiling three_exchanges_config
              three_exchanges (-2) ltac:(lia) eq_refl) as (m' & H & _).
  exists m'. exact H.
Defined.

(** ** Symbol limiter: idempotence, prefixes, silence, edges *)

Section SymbolLimiterMore.

Variable CONFIG_WILDCARD : string.

Lemma before_wildcard_prefix (pairs : list string) :
  exists rest, pairs = before_wildcard CONFIG_WILDCARD pairs ++ rest.
Proof.
  induction pairs as [|symbol rest [tail IH]]; simpl.
  - exists []. reflexivity.
  - destruct (is_wildcard CONFIG_WILDCARD symbol).
    + exists (symbol :: rest). reflexivity.
    + exists tail. simpl. congruence.
Qed.

Lemma before_wildcard_length (pairs : list string) :
  (List.length (before_wildcard CONFIG_WILDCARD pairs) <= List.length pairs)%nat.
Proof.
  destruct (before_wildcard_prefix pairs) as [rest H].
  rewrite H at 2. rewrite length_app. lia.
Qed.

Lemma no_wildcard_Forall (pairs : list string) :
  existsb (is_wildcard CONFIG_WILDCARD) pairs = false ->
  Forall (fun symbol => is_wildcard CONFIG_WILDCARD symbol = false) pairs.
Proof.
  induction pairs as [|symbol rest IH]; simpl; intros H; constructor.
  - apply orb_false_iff in H. tauto.
  - apply IH. apply orb_false_iff in H. tauto.
Qed.

Lemma set_pairs_same (data : CurrencyData) (pairs : list string) :
  cur_pairs data = Some pairs -> set_pairs data pairs = data.
Proof. destruct data. simpl. intros ->. reflexivity. Qed.

Lemma set_currencies_same (cfg : dict_config) (m : currencies_map) :
  crypto_currencies cfg = Some m -> set_currencies cfg m = cfg.
Proof. destruct cfg. simpl. intros ->. reflexivity. Qed.

(** X5.  Symbol limiter, any ceiling: run again on the configuration it
    left, the limiter changes nothing and logs nothing; it returns the empty
    message where the first run returned, and raises the same exception
    where the first run raised. *)
Theorem X5_symbols_limiter_idempotent (cfg : dict_config) (limit : Z) :
  let first := _apply_symbols_limits CONFIG_WILDCARD cfg limit in
  let second :=
    _apply_symbols_limits CONFIG_WILDCARD (fst (fst first)) limit in
  fst second = (fst (fst first), []) /\
  snd second =
    match snd first with
    | Ok _ => Ok ""%string
    | Raise err => Raise err
    end.
Proof.
  cbv zeta.
  destruct (_apply_symbols_limits CONFIG_WILDCARD cfg limit)
    as [[cfg1 lines1] r1] eqn:Hfirst.
  cbn [fst snd]. unfold _apply_symbols_limits in Hfirst.
  destruct (crypto_currencies cfg) as [m|] eqn:Hm.
  - pose proof (symbols_loop_second_pass CONFIG_WILDCARD limit m
                  symbols_init symbols_init (Z.le_refl _)) as H.
    destruct (symbols_loop CONFIG_WILDCARD limit m symbols_init)
      as [[m1 final1] err1].
    injection Hfirst as <- _ <-.
    unfold _apply_symbols_limits.
    cbn [crypto_currencies set_currencies].
    destruct (symbols_loop CONFIG_WILDCARD limit m1 symbols_init)
      as [[m2 final2] err2].
    destruct H as (-> & -> & Hd & Hmsg & Hlines). simpl in Hd, Hmsg, Hlines.
    cbn [fst snd]. rewrite Hlines. split; [reflexivity|].
    destruct err1 as [e|]; [reflexivity|].
    unfold symbols_message. rewrite Hd, Hmsg. reflexivity.
  - injection Hfirst as <- _ <-.
    unfold _apply_symbols_limits. rewrite Hm. auto.
Qed.

Lemma pairs_prefix_same (currency : string) (a b : CurrencyData) :
  cur_pairs a = cur_pairs b -> pairs_prefix (currency, a) (currency, b).
Proof.
  intros H. split; [reflexivity|]. simpl. rewrite H.
  destruct (cur_pairs b); [exists []; now rewrite app_nil_r | exact I].
Qed.

Lemma symbols_loop_prefix (limit : Z) (items : currencies_map) :
  forall st : symbols_state,
    let '(m', _, _) := symbols_loop CONFIG_WILDCARD limit items st in
    Forall2 pairs_prefix items m'.
Proof.
  induction items as [|[currency data] rest IH]; intros st.
  - simpl. constructor.
  - simpl symbols_loop.
    destruct (get_enabled (cur_enabled data)).
    + destruct (len (enabled_symbols st) >=? limit).
      * match goal with
        | |- context [symbols_loop CONFIG_WILDCARD limit rest ?s] =>
            specialize (IH s)
        end.
        destruct (symbols_loop CONFIG_WILDCARD limit rest _)
          as [[rest' final] err].
        constructor; [apply pairs_prefix_same; reflexivity | exact IH].
      * destruct (cur_pairs data) as [pairs|] eqn:Hpairs.
        -- destruct (scan_pairs_before_wildcard CONFIG_WILDCARD limit
                       currency pairs st []) as (_ & H2 & _).
           simpl in H2.
           specialize
             (IH (scan_state
                    (scan_pairs CONFIG_WILDCARD limit currency pairs st []))).
           destruct (symbols_loop CONFIG_WILDCARD limit rest _)
             as [[rest' final] err].
           constructor; [|exact IH].
           split; [reflexivity|]. simpl. rewrite Hpairs, H2.
           destruct (before_wildcard_prefix pairs) as [tail Htail].
           exists (skipn (Z.to_nat (limit - len (enabled_symbols st)))
                     (before_wildcard CONFIG_WILDCARD pairs) ++ tail).
           rewrite app_assoc, firstn_skipn. exact Htail.
        -- apply Forall2_same. intros [c d].
           apply pairs_prefix_same. reflexivity.
    + specialize (IH st).
      destruct (symbols_loop CONFIG_WILDCARD limit rest st)
        as [[rest' final] err].
      constructor; [apply pairs_prefix_same; reflexivity | exact IH].
Qed.

(** X6.  Symbol limiter, any mapping and any ceiling, also when it raises:
    every currency keeps its place and its name, its stored pair list is a
    prefix of the pair list it had (pairs are dropped from the end only,
    never added or reordered), and the exchanges are not touched. *)
Theorem X6_symbols_limiter_keeps_prefixes (cfg : dict_config)
    (m : currencies_map) (limit : Z) :
  crypto_currencies cfg = Some m ->
  let cfg' := fst (fst (_apply_symbols_limits CONFIG_WILDCARD cfg limit)) in
  (exists m', crypto_currencies cfg' = Some m' /\ Forall2 pairs_prefix m m') /\
  exchanges cfg' = exchanges cfg.
Proof.
  intros Hm. cbv zeta. unfold _apply_symbols_limits. rewrite Hm.
  pose proof (symbols_loop_prefix limit m symbols_init) as H.
  destruct (symbols_loop CONFIG_WILDCARD limit m symbols_init)
    as [[m' final] err].
  simpl. split; [|reflexivity]. exists m'. auto.
Qed.

Lemma symbols_message_truthy (limit : Z) (st : symbols_state) :
  has_disabled_symbols st = true ->
  truthy (symbols_message limit st) = true.
Proof.
  intros H. unfold symbols_message. rewrite H.
  destruct (message st); reflexivity.
Qed.

(** When nothing was flagged as disabled, the loop has changed nothing. *)
Lemma symbols_loop_quiet (limit : Z) (items : currencies_map) :
  forall st : symbols_state,
    let '(m', final, _) := symbols_loop CONFIG_WILDCARD limit items st in
    has_disabled_symbols final = false ->
    m' = items /\
    symbols_lines final = symbols_lines st /\
    message final = message st.
Proof.
  induction items as [|[currency data] rest IH]; intros st.
  - simpl. auto.
  - simpl symbols_loop.
    destruct (get_enabled (cur_enabled data)) eqn:Hen.
    + destruct (len (enabled_symbols st) >=? limit).
      * match goal with
        | |- context [symbols_loop CONFIG_WILDCARD limit rest ?s] =>
            pose proof (symbols_loop_grows CONFIG_WILDCARD limit rest s) as Hg
        end.
        destruct (symbols_loop CONFIG_WILDCARD limit rest _)
          as [[rest' final] err].
        destruct Hg as (_ & Hd & _). simpl in Hd.
        intros Hq. rewrite (Hd eq_refl) in Hq. discriminate.
      * destruct (cur_pairs data) as [pairs|] eqn:Hpairs; [|auto].
        destruct (scan_pairs_before_wildcard CONFIG_WILDCARD limit
                    currency pairs st []) as (_ & H2 & H3 & H4 & H5 & H6).
        simpl in H2.
        set (r := scan_pairs CONFIG_WILDCARD limit currency pairs st []) in *.
        specialize (IH (scan_state r)).
        pose proof (symbols_loop_grows CONFIG_WILDCARD limit rest
                      (scan_state r)) as Hg.
        destruct (symbols_loop CONFIG_WILDCARD limit rest (scan_state r))
          as [[rest' final] err].
        destruct Hg as (_ & Hd & _). intros Hq.
        destruct (has_disabled_symbols (scan_state r)) eqn:Hr;
          [rewrite (Hd eq_refl) in Hq; discriminate|].
        destruct (IH Hq) as (-> & Hlines & Hmsg).
        symmetry in H6. apply orb_false_iff in H6. destruct H6 as [H6 Hnil].
        apply orb_false_iff in H6. destruct H6 as [_ Hwild].
        rewrite Hwild in *. symmetry in H4.
        destruct (before_wildcard_all CONFIG_WILDCARD pairs
                    (no_wildcard_Forall pairs H4)) as [Hpre _].
        rewrite Hpre in *.
        destruct (skipn (Z.to_nat (limit - len (enabled_symbols st))) pairs)
          as [|x xs] eqn:Hskip; [|discriminate].
        assert (Hfirst : firstn (Z.to_nat (limit - len (enabled_symbols st)))
                           pairs = pairs).
        { rewrite <- (firstn_skipn
                        (Z.to_nat (limit - len (enabled_symbols st))) pairs)
            at 2.
          rewrite Hskip, app_nil_r. reflexivity. }
        rewrite H2, Hfirst, (set_pairs_same data pairs Hpairs).
        simpl in H3. rewrite app_nil_r in H3.
        split; [reflexivity|]. split; congruence.
    + specialize (IH st).
      destruct (symbols_loop CONFIG_WILDCARD limit rest st)
        as [[rest' final] err].
      intros Hq. destruct (IH Hq) as (-> & H). auto.
Qed.

(** When the loop has changed nothing, it has flagged nothing. *)
Lemma symbols_loop_changed (limit : Z) (items : currencies_map) :
  forall st : symbols_state,
    let '(m', final, _) := symbols_loop CONFIG_WILDCARD limit items st in
    m' = items ->
    has_disabled_symbols final = has_disabled_symbols st.
Proof.
  induction items as [|[currency data] rest IH]; intros st.
  - simpl. auto.
  - simpl symbols_loop.
    destruct (get_enabled (cur_enabled data)) eqn:Hen.
    + destruct (len (enabled_symbols st) >=? limit).
      * destruct (symbols_loop CONFIG_WILDCARD limit rest _)
          as [[rest' final] err].
        intros H. injection H as H _. exfalso.
        rewrite <- H in Hen. discriminate.
      * destruct (cur_pairs data) as [pairs|] eqn:Hpairs; [|auto].
        destruct (scan_pairs_before_wildcard CONFIG_WILDCARD limit
                    currency pairs st []) as (_ & H2 & _ & _ & _ & H6).
        simpl in H2.
        set (r := scan_pairs CONFIG_WILDCARD limit currency pairs st []) in *.
        specialize (IH (scan_state r)).
        destruct (symbols_loop CONFIG_WILDCARD limit rest (scan_state r))
          as [[rest' final] err].
        intros H. injection H as Hhead Hrest.
        rewrite (IH Hrest), H6.
        destruct (wildcard_found r).
        -- exfalso. rewrite <- Hhead in Hen. discriminate.
        -- rewrite <- Hhead in Hpairs. simpl in Hpairs.
           injection Hpairs as Hpairs. rewrite H2 in Hpairs.
           pose proof (before_wildcard_length pairs) as Hl.
           assert (Hlen : List.length
                            (firstn (Z.to_nat (limit - len (enabled_symbols st)))
                               (before_wildcard CONFIG_WILDCARD pairs)) =
                          List.length pairs) by (rewrite Hpairs; reflexivity).
           rewrite length_firstn in Hlen.
           rewrite skipn_all2 by lia.
           simpl. rewrite !orb_false_r. reflexivity.
    + specialize (IH st).
      destruct (symbols_loop CONFIG_WILDCARD limit rest st)
        as [[rest' final] err].
      intros H. injection H as H. auto.
Qed.

(** X7.  Symbol limiter, whenever it returns: the message is empty exactly
    when the configuration is left as it was, and then nothing was
    logged. *)
Theorem X7_symbols_limiter_silent_iff_unchanged (cfg cfg' : dict_config)
    (m : currencies_map) (limit : Z) (lines : list string) (msg : string) :
  crypto_currencies cfg = Some m ->
  _apply_symbols_limits CONFIG_WILDCARD cfg limit = (cfg', lines, Ok msg) ->
  (msg = ""%string <-> cfg' = cfg) /\
  (msg = ""%string -> lines = []).
Proof.
  intros Hm. unfold _apply_symbols_limits. rewrite Hm.
  pose proof (symbols_loop_quiet limit m symbols_init) as Hq.
  pose proof (symbols_loop_changed limit m symbols_init) as Hc.
  destruct (symbols_loop CONFIG_WILDCARD limit m symbols_init)
    as [[m' final] [err|]]; [discriminate|].
  intros H. injection H as <- <- <-.
  destruct (has_disabled_symbols final) eqn:Hd.
  - pose proof (symbols_message_truthy limit final Hd) as Ht.
    split; [split|]; intros H.
    + rewrite H in Ht. discriminate.
    + exfalso. assert (Hmm : m' = m).
      { destruct cfg. unfold set_currencies in H. simpl in *.
        injection H as H. congruence. }
      specialize (Hc Hmm). simpl in Hc. congruence.
    + rewrite H in Ht. discriminate.
  - destruct (Hq eq_refl) as (-> & Hlines & Hmsg). simpl in Hlines, Hmsg.
    unfold symbols_message. rewrite Hd, Hmsg, Hlines.
    rewrite (set_currencies_same cfg m Hm). tauto.
Qed.

(** A mapping whose enabled currencies hold no wildcard and, taken
    together, fewer pairs than there is room: the loop accepts every pair
    and changes nothing. *)
Lemma symbols_loop_fits (limit : Z) (items : currencies_map) :
  Forall (clean_currency CONFIG_WILDCARD) items ->
  forall st : symbols_state,
    len (enabled_symbols st) + enabled_pairs_count items < limit ->
    exists accepted : list string,
      symbols_loop CONFIG_WILDCARD limit items st =
        (items,
         {| enabled_symbols := enabled_symbols st ++ accepted;
            has_disabled_symbols := has_disabled_symbols st;
            message := message st;
            symbols_lines := symbols_lines st |},
         None).
Proof.
  induction 1 as [|[currency data] rest Hclean _ IH]; intros st Hroom.
  - exists []. simpl. rewrite app_nil_r. destruct st; reflexivity.
  - rewrite enabled_pairs_count_cons in Hroom. unfold clean_currency in Hclean.
    unfold currency_enabled in Hclean, Hroom. simpl in Hclean, Hroom.
    pose proof (len_nonneg (enabled_symbols st)) as Hst.
    assert (Hcount : forall l, 0 <= enabled_pairs_count l).
    { induction l as [|x l IHl]; [simpl; lia|].
      rewrite enabled_pairs_count_cons.
      pose proof (len_nonneg (pairs_of (snd x))).
      destruct (currency_enabled x); lia. }
    pose proof (Hcount rest) as Hrest.
    simpl symbols_loop.
    destruct (get_enabled (cur_enabled data)) eqn:Hen.
    + destruct (Hclean eq_refl) as (pairs & Hpairs & Hnone).
      unfold pairs_of in Hroom. rewrite Hpairs in Hroom.
      replace (len (enabled_symbols st) >=? limit) with false
        by (symmetry; rewrite Z.geb_leb; apply Z.leb_gt;
            pose proof (len_nonneg pairs); lia).
      rewrite Hpairs. cbv zeta.
      rewrite (scan_pairs_accepts CONFIG_WILDCARD limit currency pairs st
                 (no_wildcard_Forall pairs Hnone)) by lia.
      cbn [scan_state updated_symbols wildcard_found].
      match goal with
      | |- context [symbols_loop CONFIG_WILDCARD limit rest ?s] =>
          destruct (IH s) as [accepted Hloop];
          [simpl; rewrite len_app; lia|]
      end.
      rewrite Hloop. simpl. exists (pairs ++ accepted).
      rewrite (set_pairs_same data pairs Hpairs), <- app_assoc. reflexivity.
    + destruct (IH st ltac:(lia)) as [accepted Hloop].
      rewrite Hloop. exists accepted. reflexivity.
Qed.

(** X8.  Symbol limiter on a configuration within its ceiling: when the
    enabled currencies all carry a pair list without wildcard and hold,
    taken together, fewer pairs than the ceiling, the limiter changes
    nothing, logs nothing and returns the empty message. *)
Theorem X8_symbols_limiter_within_ceiling (cfg : dict_config)
    (m : currencies_map) (limit : Z) :
  crypto_currencies cfg = Some m ->
  Forall (clean_currency CONFIG_WILDCARD) m ->
  enabled_pairs_count m < limit ->
  _apply_symbols_limits CONFIG_WILDCARD cfg limit = (cfg, [], Ok ""%string).
Proof.
  intros Hm Hclean Hcount. unfold _apply_symbols_limits. rewrite Hm.
  destruct (symbols_loop_fits limit m Hclean symbols_init)
    as [accepted Hloop]; [simpl; exact Hcount|].
  rewrite Hloop. simpl. rewrite (set_currencies_same cfg m Hm). reflexivity.
Qed.

(** With no room at all the loop switches every enabled currency off
    without reading its pairs. *)
Lemma symbols_loop_no_room (limit : Z) (items : currencies_map) :
  limit <= 0 ->
  forall st : symbols_state,
    symbols_loop CONFIG_WILDCARD limit items st =
      (map disable_if_enabled items,
       {| enabled_symbols := enabled_symbols st;
          has_disabled_symbols :=
            has_disabled_symbols st || existsb currency_enabled items;
          message := message st;
          symbols_lines :=
            symbols_lines st ++
            map disabled_currency_line (filter currency_enabled items) |},
       None).
Proof.
  intros Hlimit. induction items as [|[currency data] rest IH]; intros st.
  - simpl. rewrite orb_false_r, app_nil_r. destruct st; reflexivity.
  - simpl symbols_loop. unfold disable_if_enabled at 1.
    unfold currency_enabled at 1 2 3. simpl.
    destruct (get_enabled (cur_enabled data)) eqn:Hen.
    + pose proof (len_nonneg (enabled_symbols st)) as Hst.
      replace (len (enabled_symbols st) >=? limit) with true
        by (symmetry; rewrite Z.geb_leb; apply Z.leb_le; lia).
      rewrite IH. simpl. rewrite orb_true_r, <- app_assoc. reflexivity.
    + rewrite IH. reflexivity.
Qed.

(** X9.  Symbol limiter under a ceiling of 0 or less: every enabled
    currency is switched off, with one line each; pair lists are not read
    (so a missing [pairs] key does not raise) and not changed; the message,
    if any currency was enabled, lists no pair. *)
Theorem X9_symbols_limiter_no_room (cfg : dict_config) (m : currencies_map)
    (limit : Z) :
  limit <= 0 ->
  crypto_currencies cfg = Some m ->
  _apply_symbols_limits CONFIG_WILDCARD cfg limit =
    (set_currencies cfg (map disable_if_enabled m),
     map disabled_currency_line (filter currency_enabled m),
     Ok (if existsb currency_enabled m then symbols_summary limit []
         else ""%string)).
Proof.
  intros Hlimit Hm. unfold _apply_symbols_limits. rewrite Hm.
  rewrite (symbols_loop_no_room limit m Hlimit symbols_init).
  unfold symbols_message. simpl.
  destruct (existsb currency_enabled m); reflexivity.
Qed.

(** An exception of the loop comes from an enabled currency without
    [pairs]; that currency and the ones after it are as they were. *)
Lemma symbols_loop_raise (limit : Z) (items : currencies_map) :
  forall st : symbols_state,
    let '(m', _, err) := symbols_loop CONFIG_WILDCARD limit items st in
    forall e : exn,
      err = Some e ->
      e = KeyError CONFIG_CRYPTO_PAIRS /\
      exists before before' currency data after,
        items = before ++ (currency, data) :: after /\
        m' = before' ++ (currency, data) :: after /\
        List.length before' = List.length before /\
        get_enabled (cur_enabled data) = true /\
        cur_pairs data = None.
Proof.
  induction items as [|[currency data] rest IH]; intros st.
  - simpl. discriminate.
  - simpl symbols_loop.
    assert (Hstep : forall (head' : string * CurrencyData) s,
      (let '(m', _, err) := symbols_loop CONFIG_WILDCARD limit rest s in
       forall e, err = Some e ->
         e = KeyError CONFIG_CRYPTO_PAIRS /\
         exists before before' c d after,
           rest = before ++ (c, d) :: after /\
           m' = before' ++ (c, d) :: after /\
           List.length before' = List.length before /\
           get_enabled (cur_enabled d) = true /\ cur_pairs d = None) ->
      let '(m', _, err) :=
        let '(rest', final, err) :=
          symbols_loop CONFIG_WILDCARD limit rest s in
        (head' :: rest', final, err) in
      forall e, err = Some e ->
        e = KeyError CONFIG_CRYPTO_PAIRS /\
        exists before before' c d after,
          (currency, data) :: rest = before ++ (c, d) :: after /\
          m' = before' ++ (c, d) :: after /\
          List.length before' = List.length before /\
          get_enabled (cur_enabled d) = true /\ cur_pairs d = None).
    { intros head' s H.
      destruct (symbols_loop CONFIG_WILDCARD limit rest s)
        as [[rest' final] err].
      intros e He. destruct (H e He) as (-> & before & before' & c & d &
                                           after & -> & -> & Hlen & Hc & Hd).
      split; [reflexivity|].
      exists ((currency, data) :: before), (head' :: before'), c, d, after.
      simpl. auto. }
    destruct (get_enabled (cur_enabled data)) eqn:Hen.
    + destruct (len (enabled_symbols st) >=? limit).
      * apply Hstep, IH.
      * destruct (cur_pairs data) as [pairs|] eqn:Hpairs.
        -- apply Hstep, IH.
        -- intros e He. injection He as <-. split; [reflexivity|].
           exists [], [], currency, data, rest. simpl. auto.
    + apply Hstep, IH.
Qed.

(** X10.  Symbol limiter, when it raises on a configuration that has the
    [crypto-currencies] key: the exception is [KeyError] on [pairs], it
    comes from an enabled currency without that key, and this currency and
    every currency after it are left as they were (the ones before it keep
    what the limiter did to them). *)
Theorem X10_symbols_limiter_raise (cfg cfg' : dict_config)
    (m : currencies_map) (limit : Z) (lines : list string) (e : exn) :
  crypto_currencies cfg = Some m ->
  _apply_symbols_limits CONFIG_WILDCARD cfg limit = (cfg', lines, Raise e) ->
  e = KeyError CONFIG_CRYPTO_PAIRS /\
  exists before before' currency data after,
    m = before ++ (currency, data) :: after /\
    crypto_currencies cfg' = Some (before' ++ (currency, data) :: after) /\
    List.length before' = List.length before /\
    get_enabled (cur_enabled data) = true /\
    cur_pairs data = None.
Proof.
  intros Hm. unfold _apply_symbols_limits. rewrite Hm.
  pose proof (symbols_loop_raise limit m symbols_init) as H.
  destruct (symbols_loop CONFIG_WILDCARD limit m symbols_init)
    as [[m' final] [err|]]; [|discriminate].
  intros Heq. injection Heq as <- <- <-.
  destruct (H err eq_refl) as (He & before & before' & c & d & after &
                                 H1 & H2 & H3 & H4 & H5).
  split; [exact He|].
  exists before, before', c, d, after. simpl. rewrite H2. auto.
Qed.

End SymbolLimiterMore.

(** Scenario 2 under ceiling 2: the stored pairs are the first two. *)
Lemma X6_symbols_limiter_keeps_prefixes_witness :
  exists m',
    crypto_currencies
      (fst (fst (_apply_symbols_limits "*" btc_three_pairs_config 2))) =
      Some m' /\
    Forall2 pairs_prefix btc_three_pairs m'.
Proof.
  exact (proj1 (X6_symbols_limiter_keeps_prefixes "*" btc_three_pairs_config
                  btc_three_pairs 2 eq_refl)).
Defined.

(** Scenario 2 under ceiling 5: silent, and left as it was. *)
Lemma X7_symbols_limiter_silent_iff_unchanged_witness :
  fst (fst (_apply_symbols_limits "*" btc_three_pairs_config 5)) =
  btc_three_pairs_config.
Proof.
  destruct (X7_symbols_limiter_silent_iff_unchanged "*"
              btc_three_pairs_config
              (fst (fst (_apply_symbols_limits "*" btc_three_pairs_config 5)))
              btc_three_pairs 5 [] "" eq_refl eq_refl) as [[H _] _].
  exact (H eq_refl).
Defined.

(** Scenario 2 under ceiling 4. *)
Lemma X8_symbols_limiter_within_ceiling_witness :
  _apply_symbols_limits "*" btc_three_pairs_config 4 =
    (btc_three_pairs_config, [], Ok ""%string).
Proof.
  apply (X8_symbols_limiter_within_ceiling "*" btc_three_pairs_config
           btc_three_pairs 4 eq_refl).
  - repeat constructor. intros _. eexists. split; reflexivity.
  - reflexivity.
Defined.

(** Ceiling 0 with a currency that has no [pairs] key: no exception. *)
Lemma X9_symbols_limiter_no_room_witness :
  _apply_symbols_limits "*" eth_without_pairs_config 0 =
    (set_currencies eth_without_pairs_config
       (map disable_if_enabled eth_without_pairs),
     ["Disabled all BTC trading pairs"; "Disabled all ETH trading pairs";
      "Disabled all XRP trading pairs"]%string,
     Ok (symbols_summary 0 [])).
Proof.
  exact (X9_symbols_limiter_no_room "*" eth_without_pairs_config
           eth_without_pairs 0 ltac:(lia) eq_refl).
Defined.

(** Ceiling 3: BTC is processed, ETH raises, XRP keeps its wildcard. *)
Lemma X10_symbols_limiter_raise_witness :
  exists before before' currency data after,
    eth_without_pairs = before ++ (currency, data) :: after /\
    crypto_currencies
      (fst (fst (_apply_symbols_limits "*" eth_without_pairs_config 3))) =
      Some (before' ++ (currency, data) :: after) /\
    List.length before' = List.length before /\
    get_enabled (cur_enabled data) = true /\
    cur_pairs data = None.
Proof.
  exact (proj2 (X10_symbols_limiter_raise "*" eth_without_pairs_config
                  (fst (fst (_apply_symbols_limits "*"
                               eth_without_pairs_config 3)))
                  eth_without_pairs 3 [] (KeyError CONFIG_CRYPTO_PAIRS)
                  eq_refl eq_refl)).
Defined.

(** ** Timeframe limiter: what it leaves alone *)

Section TimeFrameLimiterMore.

Variable list_of_set : list TimeFrames -> list TimeFrames.

Lemma time_frames_filtered_same (strategy : string * list TimeFrames) :
  time_frames_filtered strategy strategy.
Proof.
  split; [reflexivity|]. exists (fun _ => true).
  symmetry. apply filter_unchanged. apply forallb_forall. reflexivity.
Qed.

Lemma time_frames_loop_filtered (limit : Z) (strategies : strategies_map) :
  forall (all : list TimeFrames) (flag : bool),
    let '(strategies', _, _, _) :=
      time_frames_loop list_of_set limit strategies all flag in
    Forall2 time_frames_filtered strategies strategies'.
Proof.
  induction strategies as [|[name config_time_frames] rest IH];
    intros all flag; simpl.
  - constructor.
  - unfold strategy_step. simpl snd.
    destruct (admit_time_frames list_of_set limit all flag config_time_frames)
      as [all' flag'].
    pose proof (prune_strategy_spec all' name config_time_frames) as Hp.
    cbv zeta in Hp.
    destruct flag'.
    + rewrite Hp. specialize (IH all' true).
      destruct (time_frames_loop list_of_set limit rest all' true)
        as [[[rest' effects'] final] final_flag].
      constructor; [|exact IH]. split; [reflexivity|].
      exists (fun tf => tf_in tf all'). reflexivity.
    + specialize (IH all' false).
      destruct (time_frames_loop list_of_set limit rest all' false)
        as [[[rest' effects'] final] final_flag].
      constructor; [apply time_frames_filtered_same | exact IH].
Qed.

(** X11.  Timeframe limiter, any set order and any ceiling: it only takes
    time frames away.  Every strategy keeps its place and its name, its time
    frames afterwards are some of the requested ones in the requested
    order, and [configuration.config] is not touched. *)
Theorem X11_time_frames_limiter_only_removes (configuration : Configuration)
    (strategies : strategies_map) (limit : Z) :
  tentacles configuration = Some strategies ->
  let c' :=
    fst (fst (_apply_time_frames_limits list_of_set configuration limit)) in
  config c' = config configuration /\
  exists strategies',
    tentacles c' = Some strategies' /\
    Forall2 time_frames_filtered strategies strategies'.
Proof.
  intros Ht. cbv zeta. unfold _apply_time_frames_limits. rewrite Ht.
  pose proof (time_frames_loop_filtered limit strategies [] false) as H.
  destruct (time_frames_loop list_of_set limit strategies [] false)
    as [[[strategies' effects] final] flag].
  simpl. split; [reflexivity|]. exists strategies'. auto.
Qed.

Lemma time_frames_loop_flag (limit : Z) (strategies : strategies_map) :
  forall all : list TimeFrames,
    snd (time_frames_loop list_of_set limit strategies all true) = true.
Proof.
  induction strategies as [|strategy rest IH]; intros all; simpl.
  - reflexivity.
  - unfold strategy_step.
    pose proof (admit_time_frames_flag list_of_set limit all (snd strategy))
      as Hf.
    destruct (admit_time_frames list_of_set limit all true (snd strategy))
      as [all' flag'].
    simpl in Hf. subst flag'.
    destruct (prune_strategy all' strategy) as [strategy' effects].
    specialize (IH all').
    destruct (time_frames_loop list_of_set limit rest all' true)
      as [[[rest' effects'] final] final_flag].
    exact IH.
Qed.

Lemma time_frames_loop_quiet (limit : Z) (strategies : strategies_map) :
  forall (all : list TimeFrames) (flag : bool),
    let '(strategies', effects, _, final_flag) :=
      time_frames_loop list_of_set limit strategies all flag in
    final_flag = false -> strategies' = strategies /\ effects = [].
Proof.
  induction strategies as [|strategy rest IH]; intros all flag; simpl.
  - auto.
  - unfold strategy_step.
    destruct (admit_time_frames list_of_set limit all flag (snd strategy))
      as [all' flag'].
    destruct flag'.
    + destruct (prune_strategy all' strategy) as [strategy' effects].
      pose proof (time_frames_loop_flag limit rest all') as Hf.
      destruct (time_frames_loop list_of_set limit rest all' true)
        as [[[rest' effects'] final] final_flag].
      simpl in Hf. intros H. congruence.
    + specialize (IH all' false).
      destruct (time_frames_loop list_of_set limit rest all' false)
        as [[[rest' effects'] final] final_flag].
      intros H. destruct (IH H) as [-> ->]. auto.
Qed.

(** X12.  Timeframe limiter, any set order and any ceiling: when it returns
    the empty message it has left the configuration as it was, logged
    nothing and persisted nothing. *)
Theorem X12_time_frames_limiter_silent_unchanged
    (configuration c' : Configuration) (limit : Z) (effects : list event)
    (msg : string) :
  _apply_time_frames_limits list_of_set configuration limit =
    (c', effects, Ok msg) ->
  msg = ""%string ->
  c' = configuration /\ effects = [].
Proof.
  unfold _apply_time_frames_limits.
  destruct (tentacles configuration) as [strategies|] eqn:Ht; [|discriminate].
  pose proof (time_frames_loop_quiet limit strategies [] false) as H.
  destruct (time_frames_loop list_of_set limit strategies [] false)
    as [[[strategies' ef] final] flag].
  intros Heq Hmsg. injection Heq as <- <- <-.
  destruct flag; [discriminate Hmsg|].
  destruct (H eq_refl) as [-> ->].
  destruct configuration. simpl in *. subst. auto.
Qed.

(** Listing a set yields its members. *)
Hypothesis list_of_set_In :
  forall (s : list TimeFrames) (tf : TimeFrames),
    In tf (list_of_set s) <-> In tf s.

Lemma set_of_list_len_incl (l1 l2 : list TimeFrames) :
  incl l1 l2 -> len (set_of_list l1) <= len (set_of_list l2).
Proof.
  intros H. unfold len, set_of_list. apply inj_le.
  apply NoDup_incl_length; [apply NoDup_nodup|].
  intros x Hx. apply nodup_In. apply H.
  apply (proj1 (nodup_In _ _ _)) in Hx. exact Hx.
Qed.

Lemma time_frames_loop_fits (limit : Z) (strategies : strategies_map)
    (union : list TimeFrames) :
  len (set_of_list union) <= limit ->
  incl (all_required strategies) union ->
  forall all : list TimeFrames,
    incl all union ->
    exists final,
      time_frames_loop list_of_set limit strategies all false =
        (strategies, [], final, false).
Proof.
  intros Hfit. induction strategies as [|[name config_time_frames] rest IH];
    intros Hreq all Hall.
  - exists all. reflexivity.
  - unfold all_required in Hreq. simpl in Hreq.
    assert (Hcfg : incl config_time_frames union)
      by (intros x Hx; apply Hreq, in_or_app; auto).
    assert (Hrest : incl (all_required rest) union)
      by (intros x Hx; apply Hreq, in_or_app; auto).
    assert (Hcomb : incl (all ++ config_time_frames) union)
      by (apply incl_app; assumption).
    pose proof (set_of_list_len_incl _ _ Hcomb) as Hlen.
    simpl. unfold strategy_step, admit_time_frames. simpl snd.
    destruct (len (set_of_list (all ++ config_time_frames)) <? limit).
    + destruct (IH Hrest
                  (sort_time_frames
                     (list_of_set
                        (set_of_list (all ++ config_time_frames)))))
        as [final Hloop].
      { intros x Hx. apply (proj1 (sort_time_frames_In _ _)) in Hx.
        apply (proj1 (list_of_set_In _ _)) in Hx.
        apply (proj1 (nodup_In _ _ _)) in Hx. apply Hcomb. exact Hx. }
      rewrite Hloop. exists final. reflexivity.
    + replace (len (set_of_list (all ++ config_time_frames)) >? limit)
        with false
        by (symmetry; rewrite Z.gtb_ltb; apply Z.ltb_ge; lia).
      destruct (IH Hrest
                  (list_of_set (set_of_list (all ++ config_time_frames))))
        as [final Hloop].
      { intros x Hx. apply (proj1 (list_of_set_In _ _)) in Hx.
        apply (proj1 (nodup_In _ _ _)) in Hx. apply Hcomb. exact Hx. }
      rewrite Hloop. exists final. reflexivity.
Qed.

(** X13.  Timeframe limiter on a configuration within its ceiling: when the
    strategies require, taken together, no more distinct time frames than
    the ceiling, the limiter changes nothing, has no effect and returns the
    empty message. *)
Theorem X13_time_frames_limiter_within_ceiling
    (configuration : Configuration) (strategies : strategies_map)
    (limit : Z) :
  tentacles configuration = Some strategies ->
  len (set_of_list (all_required strategies)) <= limit ->
  _apply_time_frames_limits list_of_set configuration limit =
    (configuration, [], Ok ""%string).
Proof.
  intros Ht Hfit. unfold _apply_time_frames_limits. rewrite Ht.
  destruct (time_frames_loop_fits limit strategies (all_required strategies)
              Hfit (incl_refl _) [] (incl_nil_l _)) as [final Hloop].
  rewrite Hloop. simpl.
  destruct configuration. simpl in *. subst. reflexivity.
Qed.

End TimeFrameLimiterMore.

(** Scenario 4 under ceiling 3: [S2] keeps 1h and 1w of 1h, 1d, 1w. *)
Lemma X11_time_frames_limiter_only_removes_witness :
  exists strategies',
    tentacles
      (fst (fst (_apply_time_frames_limits stored_order
                   {| config := empty_dict_config;
                      tentacles := Some two_strategies |} 3))) =
      Some strategies' /\
    Forall2 time_frames_filtered two_strategies strategies'.
Proof.
  exact (proj2 (X11_time_frames_limiter_only_removes stored_order
                  {| config := empty_dict_config;
                     tentacles := Some two_strategies |}
                  two_strategies 3 eq_refl)).
Defined.

(** Scenario 4 under ceiling 4: silent. *)
Lemma X12_time_frames_limiter_silent_unchanged_witness :
  fst (fst (_apply_time_frames_limits stored_order
              {| config := empty_dict_config;
                 tentacles := Some two_strategies |} 4)) =
  {| config := empty_dict_config; tentacles := Some two_strategies |}.
Proof.
  exact (proj1 (X12_time_frames_limiter_silent_unchanged stored_order
                  {| config := empty_dict_config;
                     tentacles := Some two_strategies |}
                  _ 4 [] "" eq_refl eq_refl)).
Defined.

(** Scenario 4 requires four distinct time frames: ceiling 4 fits. *)
Lemma X13_time_frames_limiter_within_ceiling_witness :
  _apply_time_frames_limits longest_first
    {| config := empty_dict_config; tentacles := Some two_strategies |} 4 =
    ({| config := empty_dict_config; tentacles := Some two_strategies |},
     [], Ok ""%string).
Proof.
  apply (X13_time_frames_limiter_within_ceiling longest_first)
    with (strategies := two_strategies).
  - intros s tf. unfold longest_first.
    rewrite <- in_rev. apply sort_time_frames_In.
  - exact eq_refl.
  - vm_compute. discriminate.
Defined.

(** ** Orchestrator: sentinels, messages, missing keys *)

Section OrchestratorMore.

Variable CONFIG_WILDCARD : string.
Variable UNLIMITED_ALLOWED : Z.
Variable MAX_ALLOWED_EXCHANGES : Z.
Variable MAX_ALLOWED_SYMBOLS : Z.
Variable MAX_ALLOWED_TIME_FRAMES : Z.
Variable list_of_set : list TimeFrames -> list TimeFrames.

Lemma guarded_limiter_sentinel
    (limiter : Z -> Configuration -> limiter_result) (s : pass_state) :
  guarded_limiter UNLIMITED_ALLOWED UNLIMITED_ALLOWED limiter s = (s, None).
Proof. unfold guarded_limiter. rewrite Z.eqb_refl. reflexivity. Qed.

(** What each statement of the [try] body leaves alone. *)
Lemma exchanges_statement_frame (ceiling : Z) (s : pass_state) :
  let s' :=
    fst (guarded_limiter UNLIMITED_ALLOWED ceiling
           (on_dict_config _apply_exchanges_limits) s) in
  crypto_currencies (config (pass_configuration s')) =
    crypto_currencies (config (pass_configuration s)) /\
  tentacles (pass_configuration s') = tentacles (pass_configuration s).
Proof.
  cbv zeta. unfold guarded_limiter, on_dict_config.
  destruct (ceiling =? UNLIMITED_ALLOWED); [auto|].
  pose proof (exchanges_limits_frame (config (pass_configuration s)) ceiling)
    as H.
  destruct (_apply_exchanges_limits (config (pass_configuration s)) ceiling)
    as [[cfg' lines] [msg|err]]; simpl in *; auto.
Qed.

Lemma symbols_statement_frame (ceiling : Z) (s : pass_state) :
  let s' :=
    fst (guarded_limiter UNLIMITED_ALLOWED ceiling
           (on_dict_config (_apply_symbols_limits CONFIG_WILDCARD)) s) in
  exchanges (config (pass_configuration s')) =
    exchanges (config (pass_configuration s)) /\
  tentacles (pass_configuration s') = tentacles (pass_configuration s).
Proof.
  cbv zeta. unfold guarded_limiter, on_dict_config.
  destruct (ceiling =? UNLIMITED_ALLOWED); [auto|].
  pose proof (symbols_limits_frame CONFIG_WILDCARD
                (config (pass_configuration s)) ceiling) as H.
  destruct (_apply_symbols_limits CONFIG_WILDCARD
              (config (pass_configuration s)) ceiling)
    as [[cfg' lines] [msg|err]]; simpl in *; auto.
Qed.

Lemma time_frames_statement_frame (ceiling : Z) (s : pass_state) :
  let s' :=
    fst (guarded_limiter UNLIMITED_ALLOWED ceiling
           (fun limit c => _apply_time_frames_limits list_of_set c limit) s) in
  config (pass_configuration s') = config (pass_configuration s).
Proof.
  cbv zeta. unfold guarded_limiter.
  destruct (ceiling =? UNLIMITED_ALLOWED); [auto|].
  pose proof (time_frames_limits_config list_of_set (pass_configuration s)
                ceiling) as H.
  destruct (_apply_time_frames_limits list_of_set (pass_configuration s)
              ceiling) as [[c' effects] [msg|err]]; simpl in *; auto.
Qed.

(** X14.  A ceiling equal to the sentinel protects its dimension for every
    configuration, well formed or not: with the exchange ceiling unlimited
    a pass leaves the exchanges as they were, with the symbol ceiling
    unlimited the currencies, with the timeframe ceiling unlimited the
    strategies.  The strategies are changed by no other limiter. *)
Theorem X14_sentinel_protects_dimension (configuration : Configuration) :
  let c' :=
    fst (fst (apply_config_limits CONFIG_WILDCARD UNLIMITED_ALLOWED
                MAX_ALLOWED_EXCHANGES MAX_ALLOWED_SYMBOLS
                MAX_ALLOWED_TIME_FRAMES list_of_set configuration)) in
  (MAX_ALLOWED_EXCHANGES = UNLIMITED_ALLOWED ->
   exchanges (config c') = exchanges (config configuration)) /\
  (MAX_ALLOWED_SYMBOLS = UNLIMITED_ALLOWED ->
   crypto_currencies (config c') =
     crypto_currencies (config configuration)) /\
  (MAX_ALLOWED_TIME_FRAMES = UNLIMITED_ALLOWED ->
   tentacles c' = tentacles configuration).
Proof.
  cbv zeta. unfold apply_config_limits, try_body.
  set (s0 := {| pass_configuration := configuration; pass_effects := [];
                limit_warning_messages := [] |}).
  pose proof (exchanges_statement_frame MAX_ALLOWED_EXCHANGES s0) as F1.
  assert (G1 : MAX_ALLOWED_EXCHANGES = UNLIMITED_ALLOWED ->
               fst (guarded_limiter UNLIMITED_ALLOWED MAX_ALLOWED_EXCHANGES
                      (on_dict_config _apply_exchanges_limits) s0) = s0)
    by (intros ->; rewrite guarded_limiter_sentinel; reflexivity).
  destruct (guarded_limiter UNLIMITED_ALLOWED MAX_ALLOWED_EXCHANGES
              (on_dict_config _apply_exchanges_limits) s0) as [s1 e1].
  cbv zeta in F1. simpl in F1, G1. destruct F1 as [F1c F1t].
  destruct e1 as [err|].
  { simpl. repeat split; intros H; auto. rewrite (G1 H). reflexivity. }
  pose proof (symbols_statement_frame MAX_ALLOWED_SYMBOLS s1) as F2.
  assert (G2 : MAX_ALLOWED_SYMBOLS = UNLIMITED_ALLOWED ->
               fst (guarded_limiter UNLIMITED_ALLOWED MAX_ALLOWED_SYMBOLS
                      (on_dict_config (_apply_symbols_limits CONFIG_WILDCARD))
                      s1) = s1)
    by (intros ->; rewrite guarded_limiter_sentinel; reflexivity).
  destruct (guarded_limiter UNLIMITED_ALLOWED MAX_ALLOWED_SYMBOLS
              (on_dict_config (_apply_symbols_limits CONFIG_WILDCARD)) s1)
    as [s2 e2].
  cbv zeta in F2. simpl in F2, G2. destruct F2 as [F2e F2t].
  destruct e2 as [err|].
  { simpl. repeat split; intros H.
    - rewrite F2e, (G1 H). reflexivity.
    - rewrite (G2 H). exact F1c.
    - congruence. }
  pose proof (time_frames_statement_frame MAX_ALLOWED_TIME_FRAMES s2) as F3.
  assert (G3 : MAX_ALLOWED_TIME_FRAMES = UNLIMITED_ALLOWED ->
               fst (guarded_limiter UNLIMITED_ALLOWED MAX_ALLOWED_TIME_FRAMES
                      (fun limit c =>
                         _apply_time_frames_limits list_of_set c limit) s2)
               = s2)
    by (intros ->; rewrite guarded_limiter_sentinel; reflexivity).
  destruct (guarded_limiter UNLIMITED_ALLOWED MAX_ALLOWED_TIME_FRAMES
              (fun limit c => _apply_time_frames_limits list_of_set c limit)
              s2) as [s3 e3].
  cbv zeta in F3. simpl in F3, G3. simpl.
  repeat split; intros H.
  - rewrite F3, F2e, (G1 H). reflexivity.
  - rewrite F3, (G2 H). exact F1c.
  - rewrite (G3 H). congruence.
Qed.

Lemma app_cons_last {A : Type} (l m : list A) (x : A) :
  l ++ x :: m = (l ++ [x]) ++ m.
Proof. rewrite <- app_assoc. reflexivity. Qed.

Lemma guarded_limiter_messages (ceiling : Z)
    (limiter : Z -> Configuration -> limiter_result) (s : pass_state) :
  let s' := fst (guarded_limiter UNLIMITED_ALLOWED ceiling limiter s) in
  exists added : list string,
    limit_warning_messages s' = limit_warning_messages s ++ added /\
    (List.length added <= 1)%nat /\
    Forall (fun msg => truthy msg = true) added.
Proof.
  cbv zeta. unfold guarded_limiter.
  destruct (ceiling =? UNLIMITED_ALLOWED).
  - exists []. simpl. rewrite app_nil_r. auto.
  - destruct (limiter ceiling (pass_configuration s))
      as [[c' effects] [msg|err]]; simpl.
    + destruct (truthy msg) eqn:Ht.
      * exists [msg]. simpl. auto.
      * exists []. simpl. rewrite app_nil_r. auto.
    + exists []. simpl. rewrite app_nil_r. auto.
Qed.

(** X15.  The list a pass returns holds at most three messages, none of
    them empty, and the effects of the pass end with these messages logged
    in the order of the list. *)
Theorem X15_returned_messages (configuration : Configuration) :
  let '(_, effects, messages) :=
    apply_config_limits CONFIG_WILDCARD UNLIMITED_ALLOWED
      MAX_ALLOWED_EXCHANGES MAX_ALLOWED_SYMBOLS MAX_ALLOWED_TIME_FRAMES
      list_of_set configuration in
  (List.length messages <= 3)%nat /\
  Forall (fun msg => truthy msg = true) messages /\
  exists before, effects = before ++ map LogError messages.
Proof.
  unfold apply_config_limits, try_body.
  set (s0 := {| pass_configuration := configuration; pass_effects := [];
                limit_warning_messages := [] |}).
  destruct (guarded_limiter_messages MAX_ALLOWED_EXCHANGES
              (on_dict_config _apply_exchanges_limits) s0)
    as (a1 & H1 & L1 & T1).
  destruct (guarded_limiter UNLIMITED_ALLOWED MAX_ALLOWED_EXCHANGES
              (on_dict_config _apply_exchanges_limits) s0) as [s1 e1].
  simpl in H1.
  destruct e1 as [err|].
  { cbv beta iota. rewrite H1. simpl app.
    split; [lia|]. split; [exact T1|].
    eexists. apply app_cons_last. }
  destruct (guarded_limiter_messages MAX_ALLOWED_SYMBOLS
              (on_dict_config (_apply_symbols_limits CONFIG_WILDCARD)) s1)
    as (a2 & H2 & L2 & T2).
  destruct (guarded_limiter UNLIMITED_ALLOWED MAX_ALLOWED_SYMBOLS
              (on_dict_config (_apply_symbols_limits CONFIG_WILDCARD)) s1)
    as [s2 e2].
  simpl in H2.
  destruct e2 as [err|].
  { cbv beta iota. rewrite H2, H1. simpl app.
    split; [rewrite length_app; lia|].
    split; [apply Forall_app; auto|].
    eexists. apply app_cons_last. }
  destruct (guarded_limiter_messages MAX_ALLOWED_TIME_FRAMES
              (fun limit c => _apply_time_frames_limits list_of_set c limit)
              s2) as (a3 & H3 & L3 & T3).
  destruct (guarded_limiter UNLIMITED_ALLOWED MAX_ALLOWED_TIME_FRAMES
              (fun limit c => _apply_time_frames_limits list_of_set c limit)
              s2) as [s3 e3].
  simpl in H3.
  destruct e3 as [err|]; cbv beta iota; rewrite H3, H2, H1; simpl app;
    (split; [rewrite !length_app; lia|]);
    (split; [rewrite !Forall_app; auto|]).
  - eexists. apply app_cons_last.
  - eexists. reflexivity.
Qed.

(** X16.  A configuration without its [exchanges] key, under a limited
    exchange ceiling, is not limited at all: the pass logs the [KeyError],
    leaves the configuration as it was (currencies and strategies
    included) and returns no message.  Without the [crypto-currencies]
    key, under limited exchange and symbol ceilings, the strategies are
    left as they were. *)
Theorem X16_missing_key_ends_pass (configuration : Configuration) :
  let run :=
    apply_config_limits CONFIG_WILDCARD UNLIMITED_ALLOWED
      MAX_ALLOWED_EXCHANGES MAX_ALLOWED_SYMBOLS MAX_ALLOWED_TIME_FRAMES
      list_of_set configuration in
  (MAX_ALLOWED_EXCHANGES <> UNLIMITED_ALLOWED ->
   exchanges (config configuration) = None ->
   run = (configuration, [exception_line (KeyError CONFIG_EXCHANGES)], [])) /\
  (MAX_ALLOWED_SYMBOLS <> UNLIMITED_ALLOWED ->
   exchanges (config configuration) <> None ->
   crypto_currencies (config configuration) = None ->
   tentacles (fst (fst run)) = tentacles configuration /\
   In (exception_line (KeyError CONFIG_CRYPTO_CURRENCIES)) (snd (fst run))).
Proof.
  cbv zeta. unfold apply_config_limits, try_body. split.
  - intros Hne Hnone. apply Z.eqb_neq in Hne.
    unfold guarded_limiter at 1, on_dict_config, _apply_exchanges_limits.
    cbn [pass_configuration]. rewrite Hne, Hnone. simpl.
    destruct configuration. reflexivity.
  - intros Hne Hex Hnone. apply Z.eqb_neq in Hne.
    set (s0 := {| pass_configuration := configuration; pass_effects := [];
                  limit_warning_messages := [] |}).
    pose proof (exchanges_statement_frame MAX_ALLOWED_EXCHANGES s0) as F1.
    assert (R1 : forall err,
               snd (guarded_limiter UNLIMITED_ALLOWED MAX_ALLOWED_EXCHANGES
                      (on_dict_config _apply_exchanges_limits) s0)
               <> Some err).
    { intros err. unfold guarded_limiter, on_dict_config.
      destruct (MAX_ALLOWED_EXCHANGES =? UNLIMITED_ALLOWED); [discriminate|].
      pose proof (exchanges_limits_raise_iff (config (pass_configuration s0))
                    MAX_ALLOWED_EXCHANGES) as Hr.
      destruct (_apply_exchanges_limits (config (pass_configuration s0))
                  MAX_ALLOWED_EXCHANGES) as [[cfg' lines] [msg|e]];
        [discriminate|].
      exfalso. apply Hex. apply (proj1 Hr). exists e. reflexivity. }
    destruct (guarded_limiter UNLIMITED_ALLOWED MAX_ALLOWED_EXCHANGES
                (on_dict_config _apply_exchanges_limits) s0) as [s1 e1].
    cbv zeta in F1. simpl in F1, R1. destruct F1 as [F1c F1t].
    destruct e1 as [err|]; [exfalso; apply (R1 err); reflexivity|].
    assert (Hsym :
      guarded_limiter UNLIMITED_ALLOWED MAX_ALLOWED_SYMBOLS
        (on_dict_config (_apply_symbols_limits CONFIG_WILDCARD)) s1 =
        ({| pass_configuration :=
              {| config := config (pass_configuration s1);
                 tentacles := tentacles (pass_configuration s1) |};
            pass_effects := pass_effects s1 ++ [];
            limit_warning_messages := limit_warning_messages s1 |},
         Some (KeyError CONFIG_CRYPTO_CURRENCIES))).
    { unfold guarded_limiter, on_dict_config, _apply_symbols_limits.
      rewrite Hne, F1c, Hnone. reflexivity. }
    rewrite Hsym. cbn [fst snd pass_configuration pass_effects tentacles].
    split; [exact F1t|].
    apply in_or_app. right. left. reflexivity.
Qed.

End OrchestratorMore.

(** The sentinel on all three ceilings: the over-provisioned configuration
    is returned as it is. *)
Lemma X14_sentinel_protects_dimension_witness :
  tentacles
    (fst (fst (apply_config_limits "*" unlimited 2 2 unlimited stored_order
                 (over_provisioned [ONE_MINUTE; ONE_HOUR; ONE_DAY])))) =
  Some [("S1"%string, [ONE_MINUTE; ONE_HOUR; ONE_DAY])].
Proof.
  destruct (X14_sentinel_protects_dimension "*" unlimited 2 2 unlimited
              stored_order
              (over_provisioned [ONE_MINUTE; ONE_HOUR; ONE_DAY]))
    as (_ & _ & H).
  exact (H eq_refl).
Defined.

(** No [exchanges] key, exchange ceiling 1. *)
Lemma X16_missing_key_ends_pass_witness :
  apply_config_limits "*" unlimited 1 2 1 stored_order no_exchanges_key =
    (no_exchanges_key, [exception_line (KeyError CONFIG_EXCHANGES)], []).
Proof.
  destruct (X16_missing_key_ends_pass "*" unlimited 1 2 1 stored_order
              no_exchanges_key) as [H _].
  apply H; [discriminate | reflexivity].
Defined.

(** Ceilings 2 and 2, timeframes unlimited, on the over-provisioned
    configuration. *)
Lemma dictionary_limits_idempotent_witness :
  let pass := apply_config_limits "*" unlimited 2 2 unlimited stored_order in
  let first := pass (over_provisioned [ONE_MINUTE; ONE_HOUR; ONE_DAY]) in
  snd (pass (fst (fst first))) = [].
Proof.
  cbv zeta.
  assert (Hceiling : 2 = unlimited \/ 0 <= 2) by (right; lia).
  exact (proj2 (dictionary_limits_idempotent "*" unlimited 2 2 stored_order
                  Hceiling
                  (over_provisioned [ONE_MINUTE; ONE_HOUR; ONE_DAY]))).
Defined.

(** * Properties of [update_config_with_args] *)

(** ** Dictionaries *)

Lemma dict_get_set_same (key : string) (v : value) (d : pydict) :
  dict_get key (dict_set key v d) = Some v.
Proof.
  induction d as [|[k v'] d IH]; simpl.
  - rewrite String.eqb_refl. reflexivity.
  - destruct (String.eqb_spec key k) as [->|Hne]; simpl.
    + rewrite String.eqb_refl. reflexivity.
    + apply String.eqb_neq in Hne. rewrite Hne. exact IH.
Qed.

Lemma dict_get_set_other (key key' : string) (v : value) (d : pydict) :
  key' <> key -> dict_get key' (dict_set key v d) = dict_get key' d.
Proof.
  intros Hne. induction d as [|[k v'] d IH]; simpl.
  - apply String.eqb_neq in Hne. rewrite Hne. reflexivity.
  - destruct (String.eqb_spec key k) as [->|Hk]; simpl.
    + apply String.eqb_neq in Hne. rewrite Hne. reflexivity.
    + rewrite IH. reflexivity.
Qed.

Lemma dict_set_same (key : string) (v : value) (d : pydict) :
  dict_get key d = Some v -> dict_set key v d = d.
Proof.
  induction d as [|[k v'] d IH]; simpl; [discriminate|].
  destruct (String.eqb_spec key k) as [->|Hk].
  - intros H. injection H as ->. reflexivity.
  - intros H. rewrite (IH H). reflexivity.
Qed.

Lemma dict_set_keys (key : string) (v : value) (d : pydict) :
  dict_get key d <> None -> map fst (dict_set key v d) = map fst d.
Proof.
  induction d as [|[k v'] d IH]; simpl; [congruence|].
  destruct (String.eqb_spec key k) as [->|Hk]; simpl.
  - reflexivity.
  - intros H. rewrite (IH H). reflexivity.
Qed.

(** ** One assignment *)

Lemma assign_cell (section key : string) (v : value) (cfg cfg' : pydict) :
  assign section key v cfg = (cfg', None) ->
  cell section key cfg' = Some v.
Proof.
  unfold assign, cell.
  destruct (dict_get section cfg) as [[| | | | | |d]|]; try discriminate.
  intros H. injection H as <-.
  rewrite dict_get_set_same. apply dict_get_set_same.
Qed.

Lemma assign_other_cell (section key : string) (v : value)
    (cfg cfg' : pydict) (raised : option config_exn)
    (section' key' : string) :
  assign section key v cfg = (cfg', raised) ->
  (section', key') <> (section, key) ->
  cell section' key' cfg' = cell section' key' cfg.
Proof.
  unfold assign, cell.
  destruct (dict_get section cfg) as [[| | | | | |d]|] eqn:Hs;
    intros H; injection H as <- _; try reflexivity.
  intros Hne.
  destruct (String.eqb_spec section' section) as [->|Hsec].
  - rewrite dict_get_set_same, Hs.
    apply dict_get_set_other. congruence.
  - rewrite dict_get_set_other by exact Hsec. reflexivity.
Qed.

Lemma assign_fixed (section key : string) (v : value) (cfg : pydict) :
  cell section key cfg = Some v -> assign section key v cfg = (cfg, None).
Proof.
  unfold assign, cell.
  destruct (dict_get section cfg) as [[| | | | | |d]|] eqn:Hs;
    try discriminate.
  intros H. rewrite (dict_set_same key v d H).
  rewrite (dict_set_same section (VDict d) cfg Hs). reflexivity.
Qed.

Lemma assign_sections (section key : string) (v : value)
    (cfg cfg' : pydict) (raised : option config_exn) :
  assign section key v cfg = (cfg', raised) ->
  map fst cfg' = map fst cfg /\
  forall section', section' <> section ->
    dict_get section' cfg' = dict_get section' cfg.
Proof.
  unfold assign.
  destruct (dict_get section cfg) as [[| | | | | |d]|] eqn:Hs;
    intros H; injection H as <- _; try (split; reflexivity).
  split.
  - apply dict_set_keys. congruence.
  - intros section' Hne. apply dict_get_set_other. exact Hne.
Qed.

Lemma then_do_returns (first second : statement) (cfg cfg' : pydict) :
  (first ;; second) cfg = (cfg', None) ->
  exists mid, first cfg = (mid, None) /\ second mid = (cfg', None).
Proof.
  unfold then_do. destruct (first cfg) as [mid [err|]]; [discriminate|].
  intros H. exists mid. auto.
Qed.

Lemma then_do_fixed (first second : statement) (cfg : pydict) :
  first cfg = (cfg, None) -> second cfg = (cfg, None) ->
  (first ;; second) cfg = (cfg, None).
Proof. unfold then_do. intros -> ->. reflexivity. Qed.

(** ** Statements and the cells they write *)

Lemma writes_only_skip : writes_only skip [].
Proof. intros cfg cfg' raised s k H _. injection H as <- _. reflexivity. Qed.

Lemma writes_only_assign (section key : string) (v : value) :
  writes_only (assign section key v) [(section, key)].
Proof.
  intros cfg cfg' raised s k H Hout.
  apply (assign_other_cell _ _ _ _ _ _ _ _ H).
  intros Heq. apply Hout. left. symmetry. exact Heq.
Qed.

Lemma writes_only_then (first second : statement)
    (cells1 cells2 : list (string * string)) :
  writes_only first cells1 -> writes_only second cells2 ->
  writes_only (first ;; second) (cells1 ++ cells2).
Proof.
  intros H1 H2 cfg cfg' raised s k H Hout. unfold then_do in H.
  destruct (first cfg) as [mid [err|]] eqn:Hfirst.
  - injection H as <- _. apply (H1 _ _ _ _ _ Hfirst).
    intros Hin. apply Hout, in_or_app. auto.
  - rewrite (H2 _ _ _ _ _ H) by (intros Hin; apply Hout, in_or_app; auto).
    apply (H1 _ _ _ _ _ Hfirst).
    intros Hin. apply Hout, in_or_app. auto.
Qed.

Lemma writes_only_when (condition : bool) (body : statement)
    (cells : list (string * string)) :
  writes_only body cells -> writes_only (when condition body) cells.
Proof.
  intros H. destruct condition; [exact H|].
  intros cfg cfg' raised s k Hs _. injection Hs as <- _. reflexivity.
Qed.

Lemma writes_only_more (st : statement) (cells cells' : list (string * string)) :
  incl cells cells' -> writes_only st cells -> writes_only st cells'.
Proof.
  intros Hincl H cfg cfg' raised s k Hs Hout.
  apply (H _ _ _ _ _ Hs). intros Hin. apply Hout, Hincl, Hin.
Qed.

Lemma keeps_sections_skip : keeps_sections skip [].
Proof. intros cfg cfg' raised H. injection H as <- _. auto. Qed.

Lemma keeps_sections_assign (section key : string) (v : value) :
  keeps_sections (assign section key v) [section].
Proof.
  intros cfg cfg' raised H.
  destruct (assign_sections _ _ _ _ _ _ H) as [Hkeys Hother].
  split; [exact Hkeys|]. intros s Hout. apply Hother.
  intros ->. apply Hout. left. reflexivity.
Qed.

Lemma keeps_sections_then (first second : statement)
    (sections1 sections2 : list string) :
  keeps_sections first sections1 -> keeps_sections second sections2 ->
  keeps_sections (first ;; second) (sections1 ++ sections2).
Proof.
  intros H1 H2 cfg cfg' raised H. unfold then_do in H.
  destruct (first cfg) as [mid [err|]] eqn:Hfirst.
  - injection H as <- _. destruct (H1 _ _ _ Hfirst) as [Hk Ho].
    split; [exact Hk|]. intros s Hout. apply Ho.
    intros Hin. apply Hout, in_or_app. auto.
  - destruct (H1 _ _ _ Hfirst) as [Hk1 Ho1].
    destruct (H2 _ _ _ H) as [Hk2 Ho2].
    split; [congruence|]. intros s Hout.
    rewrite Ho2 by (intros Hin; apply Hout, in_or_app; auto).
    apply Ho1. intros Hin. apply Hout, in_or_app. auto.
Qed.

Lemma keeps_sections_when (condition : bool) (body : statement)
    (sections : list string) :
  keeps_sections body sections -> keeps_sections (when condition body) sections.
Proof.
  intros H. destruct condition; [exact H|].
  intros cfg cfg' raised Hs. injection Hs as <- _. auto.
Qed.

Lemma keeps_sections_more (st : statement) (sections sections' : list string) :
  incl sections sections' ->
  keeps_sections st sections -> keeps_sections st sections'.
Proof.
  intros Hincl H cfg cfg' raised Hs. destruct (H _ _ _ Hs) as [Hk Ho].
  split; [exact Hk|]. intros s Hout. apply Ho.
  intros Hin. apply Hout, Hincl, Hin.
Qed.

Section CommandLineProperties.

Variable CONFIG_BACKTESTING : string.
Variable CONFIG_BACKTESTING_DATA_FILES : string.
Variable CONFIG_ENABLED_OPTION : string.
Variable CONFIG_TRADER : string.
Variable CONFIG_SIMULATOR : string.
Variable CONFIG_TRADING : string.
Variable CONFIG_TRADER_RISK : string.

Lemma simulator_only_writes :
  writes_only
    (simulator_only CONFIG_ENABLED_OPTION CONFIG_TRADER CONFIG_SIMULATOR)
    (simulator_cells CONFIG_ENABLED_OPTION CONFIG_TRADER CONFIG_SIMULATOR).
Proof.
  unfold simulator_only.
  apply (writes_only_then _ _ [_] [_]); apply writes_only_assign.
Qed.

Lemma update_config_with_args_writes (args : starting_args) :
  writes_only
    (update_config_with_args CONFIG_BACKTESTING
       CONFIG_BACKTESTING_DATA_FILES CONFIG_ENABLED_OPTION CONFIG_TRADER
       CONFIG_SIMULATOR CONFIG_TRADING CONFIG_TRADER_RISK args)
    (update_cells CONFIG_BACKTESTING CONFIG_BACKTESTING_DATA_FILES
       CONFIG_ENABLED_OPTION CONFIG_TRADER CONFIG_SIMULATOR CONFIG_TRADING
       CONFIG_TRADER_RISK).
Proof.
  unfold update_config_with_args.
  apply (writes_only_more _
           ((([(CONFIG_BACKTESTING, CONFIG_BACKTESTING_DATA_FILES)] ++
              [(CONFIG_BACKTESTING, CONFIG_ENABLED_OPTION)] ++
              simulator_cells CONFIG_ENABLED_OPTION CONFIG_TRADER
                CONFIG_SIMULATOR) ++
             simulator_cells CONFIG_ENABLED_OPTION CONFIG_TRADER
               CONFIG_SIMULATOR ++
             [(CONFIG_TRADING, CONFIG_TRADER_RISK)]))).
  { intros x Hx. unfold update_cells, simulator_cells in *.
    simpl in Hx |- *. tauto. }
  apply writes_only_then; [|apply writes_only_then].
  - apply writes_only_when. apply writes_only_then; [|apply writes_only_then].
    + destruct (args_backtesting_files args) as [[|file files]|].
      * apply (writes_only_more _ []); [intros x []|apply writes_only_skip].
      * apply writes_only_assign.
      * apply (writes_only_more _ []); [intros x []|apply writes_only_skip].
    + apply writes_only_assign.
    + apply simulator_only_writes.
  - apply writes_only_when, simulator_only_writes.
  - destruct (args_risk args) as [risk|].
    + apply writes_only_when, writes_only_assign.
    + apply (writes_only_more _ []); [intros x []|apply writes_only_skip].
Qed.

Lemma update_config_with_args_sections (args : starting_args) :
  keeps_sections
    (update_config_with_args CONFIG_BACKTESTING
       CONFIG_BACKTESTING_DATA_FILES CONFIG_ENABLED_OPTION CONFIG_TRADER
       CONFIG_SIMULATOR CONFIG_TRADING CONFIG_TRADER_RISK args)
    [CONFIG_BACKTESTING; CONFIG_TRADER; CONFIG_SIMULATOR; CONFIG_TRADING].
Proof.
  unfold update_config_with_args, simulator_only.
  apply (keeps_sections_more _
           (([CONFIG_BACKTESTING] ++ [CONFIG_BACKTESTING] ++
             [CONFIG_TRADER] ++ [CONFIG_SIMULATOR]) ++
            ([CONFIG_TRADER] ++ [CONFIG_SIMULATOR]) ++ [CONFIG_TRADING])).
  { intros x Hx. simpl in Hx |- *. tauto. }
  apply keeps_sections_then; [|apply keeps_sections_then].
  - apply keeps_sections_when.
    apply keeps_sections_then; [|apply keeps_sections_then;
                                  [|apply keeps_sections_then]];
      try apply keeps_sections_assign.
    destruct (args_backtesting_files args) as [[|file files]|];
      try apply keeps_sections_assign;
      apply (keeps_sections_more _ []);
      try (intros x []); apply keeps_sections_skip.
  - apply keeps_sections_when.
    apply keeps_sections_then; apply keeps_sections_assign.
  - destruct (args_risk args) as [risk|].
    + apply keeps_sections_when, keeps_sections_assign.
    + apply (keeps_sections_more _ []);
        [intros x [] | apply keeps_sections_skip].
Qed.

(** X18.  [update_config_with_args], for all arguments and every
    configuration, whether it returns or raises: no section is added,
    removed or moved; a section other than the backtesting, trader,
    simulator and trading ones is left as it was; and in every section a key
    other than the data files, the enabled flag and the risk keeps its
    value. *)
Theorem X18_update_config_frame (args : starting_args) (cfg : pydict) :
  let cfg' :=
    fst (update_config_with_args CONFIG_BACKTESTING
           CONFIG_BACKTESTING_DATA_FILES CONFIG_ENABLED_OPTION CONFIG_TRADER
           CONFIG_SIMULATOR CONFIG_TRADING CONFIG_TRADER_RISK args cfg) in
  map fst cfg' = map fst cfg /\
  (forall section,
     ~ In section [CONFIG_BACKTESTING; CONFIG_TRADER; CONFIG_SIMULATOR;
                   CONFIG_TRADING] ->
     dict_get section cfg' = dict_get section cfg) /\
  (forall section key,
     ~ In key [CONFIG_BACKTESTING_DATA_FILES; CONFIG_ENABLED_OPTION;
               CONFIG_TRADER_RISK] ->
     cell section key cfg' = cell section key cfg).
Proof.
  cbv zeta.
  destruct (update_config_with_args CONFIG_BACKTESTING
              CONFIG_BACKTESTING_DATA_FILES CONFIG_ENABLED_OPTION
              CONFIG_TRADER CONFIG_SIMULATOR CONFIG_TRADING
              CONFIG_TRADER_RISK args cfg) as [cfg' raised] eqn:Hrun.
  simpl fst.
  destruct (update_config_with_args_sections args _ _ _ Hrun) as [Hk Ho].
  split; [exact Hk|]. split; [exact Ho|].
  intros section key Hout.
  apply (update_config_with_args_writes args _ _ _ _ _ Hrun).
  intros Hin. apply Hout. unfold update_cells in Hin. simpl in Hin |- *.
  repeat (destruct Hin as [Hin|Hin]; [injection Hin as _ <-; tauto|]).
  destruct Hin.
Qed.

Ltac not_in_cells :=
  unfold simulator_cells; simpl;
  let Hc := fresh "Hc" in
  intro Hc;
  repeat (destruct Hc as [Hc|Hc]; [injection Hc; intros; congruence|]);
  exact Hc.

Lemma simulator_only_fixed (cfg : pydict) :
  cell CONFIG_TRADER CONFIG_ENABLED_OPTION cfg = Some (VBool false) ->
  cell CONFIG_SIMULATOR CONFIG_ENABLED_OPTION cfg = Some (VBool true) ->
  simulator_only CONFIG_ENABLED_OPTION CONFIG_TRADER CONFIG_SIMULATOR cfg =
    (cfg, None).
Proof.
  intros Ht Hs. unfold simulator_only.
  apply then_do_fixed; apply assign_fixed; assumption.
Qed.

Hypothesis trader_is_not_simulator : CONFIG_TRADER <> CONFIG_SIMULATOR.

Lemma simulator_only_returns (cfg cfg' : pydict) :
  simulator_only CONFIG_ENABLED_OPTION CONFIG_TRADER CONFIG_SIMULATOR cfg =
    (cfg', None) ->
  cell CONFIG_TRADER CONFIG_ENABLED_OPTION cfg' = Some (VBool false) /\
  cell CONFIG_SIMULATOR CONFIG_ENABLED_OPTION cfg' = Some (VBool true).
Proof.
  unfold simulator_only. intros H.
  destruct (then_do_returns _ _ _ _ H) as (mid & H1 & H2).
  split; [|exact (assign_cell _ _ _ _ _ H2)].
  rewrite (assign_other_cell _ _ _ _ _ _ CONFIG_TRADER CONFIG_ENABLED_OPTION
             H2) by congruence.
  exact (assign_cell _ _ _ _ _ H1).
Qed.

Hypothesis risk_is_not_enabled : CONFIG_TRADER_RISK <> CONFIG_ENABLED_OPTION.

(** Lines 62-63 as a statement. *)
Lemma risk_statement_writes (args : starting_args) :
  writes_only
    match args_risk args with
    | Some risk =>
        when (risk_in_range risk)
          (assign CONFIG_TRADING CONFIG_TRADER_RISK (VFloat risk))
    | None => skip
    end
    [(CONFIG_TRADING, CONFIG_TRADER_RISK)].
Proof.
  destruct (args_risk args) as [risk|].
  - apply writes_only_when, writes_only_assign.
  - apply (writes_only_more _ []); [intros x []|apply writes_only_skip].
Qed.

(** X19.  [update_config_with_args] with [backtesting] or [simulate] set:
    whenever it returns, the trader section has its enabled flag false and
    the simulator section has it true, whatever the configuration held and
    whatever risk was given. *)
Theorem X19_update_config_simulator_only (args : starting_args)
    (cfg cfg' : pydict) :
  args_backtesting args || args_simulate args = true ->
  update_config_with_args CONFIG_BACKTESTING CONFIG_BACKTESTING_DATA_FILES
    CONFIG_ENABLED_OPTION CONFIG_TRADER CONFIG_SIMULATOR CONFIG_TRADING
    CONFIG_TRADER_RISK args cfg = (cfg', None) ->
  cell CONFIG_TRADER CONFIG_ENABLED_OPTION cfg' = Some (VBool false) /\
  cell CONFIG_SIMULATOR CONFIG_ENABLED_OPTION cfg' = Some (VBool true).
Proof.
  intros Hmode Hrun. unfold update_config_with_args in Hrun.
  destruct (then_do_returns _ _ _ _ Hrun) as (c1 & HB & Hrest).
  destruct (then_do_returns _ _ _ _ Hrest) as (c2 & HS & HR).
  pose proof (risk_statement_writes args _ _ _ CONFIG_TRADER
                CONFIG_ENABLED_OPTION HR ltac:(not_in_cells)) as Rt.
  pose proof (risk_statement_writes args _ _ _ CONFIG_SIMULATOR
                CONFIG_ENABLED_OPTION HR ltac:(not_in_cells)) as Rs.
  rewrite Rt, Rs.
  destruct (args_simulate args).
  - exact (simulator_only_returns _ _ HS).
  - injection HS as <-. rewrite orb_false_r in Hmode. rewrite Hmode in HB.
    unfold when in HB.
    destruct (then_do_returns _ _ _ _ HB) as (c0 & _ & HB').
    destruct (then_do_returns _ _ _ _ HB') as (c0' & _ & HSO).
    exact (simulator_only_returns _ _ HSO).
Qed.

Hypothesis risk_is_not_files :
  CONFIG_TRADER_RISK <> CONFIG_BACKTESTING_DATA_FILES.

(** X20.  [update_config_with_args] and the trading risk.  A risk [r] with
    [0 < r <= 1] is stored as it is: whenever the function returns, the
    risk of the trading section is [r].  With no risk, or a risk outside
    that range (0, a negative, a value above 1, a NaN), the risk of the
    trading section keeps the value it had, whether the function returns or
    raises. *)
Theorem X20_update_config_risk (args : starting_args) (cfg : pydict) :
  let '(cfg', raised) :=
    update_config_with_args CONFIG_BACKTESTING CONFIG_BACKTESTING_DATA_FILES
      CONFIG_ENABLED_OPTION CONFIG_TRADER CONFIG_SIMULATOR CONFIG_TRADING
      CONFIG_TRADER_RISK args cfg in
  match args_risk args with
  | Some risk =>
      if risk_in_range risk then
        raised = None ->
        cell CONFIG_TRADING CONFIG_TRADER_RISK cfg' = Some (VFloat risk)
      else
        cell CONFIG_TRADING CONFIG_TRADER_RISK cfg' =
        cell CONFIG_TRADING CONFIG_TRADER_RISK cfg
  | None =>
      cell CONFIG_TRADING CONFIG_TRADER_RISK cfg' =
      cell CONFIG_TRADING CONFIG_TRADER_RISK cfg
  end.
Proof.
  assert (Hfront : forall files,
    writes_only
      (when (args_backtesting args)
         (match files with
          | Some (file :: rest) =>
              assign CONFIG_BACKTESTING CONFIG_BACKTESTING_DATA_FILES
                (VList (map VStr (file :: rest)))
          | _ => skip
          end ;;
          assign CONFIG_BACKTESTING CONFIG_ENABLED_OPTION (VBool true) ;;
          simulator_only CONFIG_ENABLED_OPTION CONFIG_TRADER CONFIG_SIMULATOR)
       ;;
       when (args_simulate args)
         (simulator_only CONFIG_ENABLED_OPTION CONFIG_TRADER CONFIG_SIMULATOR)
       ;; skip)
      (([(CONFIG_BACKTESTING, CONFIG_BACKTESTING_DATA_FILES)] ++
        [(CONFIG_BACKTESTING, CONFIG_ENABLED_OPTION)] ++
        simulator_cells CONFIG_ENABLED_OPTION CONFIG_TRADER CONFIG_SIMULATOR)
       ++ simulator_cells CONFIG_ENABLED_OPTION CONFIG_TRADER CONFIG_SIMULATOR
       ++ [])).
  { intros files.
    apply writes_only_then; [|apply writes_only_then].
    - apply writes_only_when.
      apply writes_only_then; [|apply writes_only_then].
      + destruct files as [[|file rest]|];
          try apply writes_only_assign;
          apply (writes_only_more _ []);
          try (intros x []); apply writes_only_skip.
      + apply writes_only_assign.
      + apply simulator_only_writes.
    - apply writes_only_when, simulator_only_writes.
    - apply writes_only_skip. }
  unfold update_config_with_args.
  destruct (args_risk args) as [risk|].
  - destruct (risk_in_range risk) eqn:Hrange.
    + match goal with
      | |- context [(?b ;; ?s ;; ?r) cfg] =>
          destruct ((b ;; s ;; r) cfg) as [cfg' raised] eqn:Hrun
      end.
      intros ->.
      destruct (then_do_returns _ _ _ _ Hrun) as (c1 & _ & Hrest).
      destruct (then_do_returns _ _ _ _ Hrest) as (c2 & _ & HR).
      exact (assign_cell _ _ _ _ _ HR).
    + unfold when at 3.
      match goal with
      | |- context [(?b ;; ?s ;; ?r) cfg] =>
          destruct ((b ;; s ;; r) cfg) as [cfg' raised] eqn:Hrun
      end.
      apply (Hfront _ _ _ _ _ _ Hrun). not_in_cells.
  - match goal with
    | |- context [(?b ;; ?s ;; ?r) cfg] =>
        destruct ((b ;; s ;; r) cfg) as [cfg' raised] eqn:Hrun
    end.
    apply (Hfront _ _ _ _ _ _ Hrun). not_in_cells.
Qed.

Lemma assign_returns (section key : string) (v : value) (cfg : pydict)
    (d : pydict) :
  dict_get section cfg = Some (VDict d) ->
  exists cfg',
    assign section key v cfg = (cfg', None) /\
    dict_get section cfg' = Some (VDict (dict_set key v d)).
Proof.
  intros H. unfold assign. rewrite H. eexists. split; [reflexivity|].
  apply dict_get_set_same.
Qed.

Hypothesis backtesting_is_not_trader : CONFIG_BACKTESTING <> CONFIG_TRADER.
Hypothesis backtesting_is_not_simulator :
  CONFIG_BACKTESTING <> CONFIG_SIMULATOR.

(** X21.  [update_config_with_args] with [backtesting] set, on a
    configuration that has the backtesting section but no trader section:
    it raises [KeyError] on the trader key after it has switched
    backtesting on; the simulator is not switched on. *)
Theorem X21_update_config_raises_half_way (args : starting_args)
    (cfg : pydict) (d : pydict) :
  args_backtesting args = true ->
  dict_get CONFIG_BACKTESTING cfg = Some (VDict d) ->
  dict_get CONFIG_TRADER cfg = None ->
  exists cfg',
    update_config_with_args CONFIG_BACKTESTING CONFIG_BACKTESTING_DATA_FILES
      CONFIG_ENABLED_OPTION CONFIG_TRADER CONFIG_SIMULATOR CONFIG_TRADING
      CONFIG_TRADER_RISK args cfg =
      (cfg', Some (ConfigKeyError CONFIG_TRADER)) /\
    cell CONFIG_BACKTESTING CONFIG_ENABLED_OPTION cfg' = Some (VBool true) /\
    cell CONFIG_SIMULATOR CONFIG_ENABLED_OPTION cfg' =
      cell CONFIG_SIMULATOR CONFIG_ENABLED_OPTION cfg.
Proof.
  intros Hbt Hsection Hmissing.
  assert (Hfiles : exists c0 d0,
    match args_backtesting_files args with
    | Some (file :: files) =>
        assign CONFIG_BACKTESTING CONFIG_BACKTESTING_DATA_FILES
          (VList (map VStr (file :: files)))
    | _ => skip
    end cfg = (c0, None) /\
    dict_get CONFIG_BACKTESTING c0 = Some (VDict d0) /\
    dict_get CONFIG_TRADER c0 = None /\
    cell CONFIG_SIMULATOR CONFIG_ENABLED_OPTION c0 =
      cell CONFIG_SIMULATOR CONFIG_ENABLED_OPTION cfg).
  { destruct (args_backtesting_files args) as [[|file files]|];
      [exists cfg, d; repeat split; assumption | |
       exists cfg, d; repeat split; assumption].
    destruct (assign_returns CONFIG_BACKTESTING CONFIG_BACKTESTING_DATA_FILES
                (VList (map VStr (file :: files))) cfg d Hsection)
      as (c0 & H0 & Hd0).
    exists c0, (dict_set CONFIG_BACKTESTING_DATA_FILES
                  (VList (map VStr (file :: files))) d).
    split; [exact H0|]. split; [exact Hd0|]. split.
    - destruct (assign_sections _ _ _ _ _ _ H0) as [_ Ho].
      rewrite Ho by congruence. exact Hmissing.
    - apply (assign_other_cell _ _ _ _ _ _ _ _ H0). congruence. }
  destruct Hfiles as (c0 & d0 & H0 & Hd0 & Ht0 & Hs0).
  destruct (assign_returns CONFIG_BACKTESTING CONFIG_ENABLED_OPTION
              (VBool true) c0 d0 Hd0) as (c1 & H1 & Hd1).
  assert (Ht1 : dict_get CONFIG_TRADER c1 = None).
  { destruct (assign_sections _ _ _ _ _ _ H1) as [_ Ho].
    rewrite Ho by congruence. exact Ht0. }
  exists c1. split; [|split].
  - unfold update_config_with_args. rewrite Hbt. unfold when at 1.
    unfold then_do at 1 2 3. rewrite H0.
    unfold then_do at 1. rewrite H1.
    unfold simulator_only, then_do, assign. rewrite Ht1. reflexivity.
  - exact (assign_cell _ _ _ _ _ H1).
  - rewrite (assign_other_cell _ _ _ _ _ _ CONFIG_SIMULATOR
               CONFIG_ENABLED_OPTION H1) by congruence.
    exact Hs0.
Qed.

Hypothesis files_is_not_enabled :
  CONFIG_BACKTESTING_DATA_FILES <> CONFIG_ENABLED_OPTION.

(** X22.  [update_config_with_args] is idempotent: whenever it returns,
    calling it again with the same arguments on the configuration it left
    returns that configuration unchanged. *)
Theorem X22_update_config_idempotent (args : starting_args)
    (cfg cfg' : pydict) :
  update_config_with_args CONFIG_BACKTESTING CONFIG_BACKTESTING_DATA_FILES
    CONFIG_ENABLED_OPTION CONFIG_TRADER CONFIG_SIMULATOR CONFIG_TRADING
    CONFIG_TRADER_RISK args cfg = (cfg', None) ->
  update_config_with_args CONFIG_BACKTESTING CONFIG_BACKTESTING_DATA_FILES
    CONFIG_ENABLED_OPTION CONFIG_TRADER CONFIG_SIMULATOR CONFIG_TRADING
    CONFIG_TRADER_RISK args cfg' = (cfg', None).
Proof.
  intros Hrun. unfold update_config_with_args in *.
  destruct (then_do_returns _ _ _ _ Hrun) as (c1 & HB & Hrest).
  destruct (then_do_returns _ _ _ _ Hrest) as (c2 & HS & HR).
  (* what the risk statement and the simulate statement leave alone *)
  assert (KR : forall s k, (s, k) <> (CONFIG_TRADING, CONFIG_TRADER_RISK) ->
                           cell s k cfg' = cell s k c2).
  { intros s k Hne. apply (risk_statement_writes args _ _ _ _ _ HR).
    simpl. intros [Heq|[]]. apply Hne. symmetry. exact Heq. }
  assert (KS : forall s k,
             ~ In (s, k) (simulator_cells CONFIG_ENABLED_OPTION CONFIG_TRADER
                            CONFIG_SIMULATOR) ->
             cell s k c2 = cell s k c1).
  { intros s k Hout.
    exact (writes_only_when _ _ _ simulator_only_writes _ _ _ _ _ HS Hout). }
  (* the simulate statement holds its cells afterwards *)
  assert (FS : args_simulate args = true ->
               cell CONFIG_TRADER CONFIG_ENABLED_OPTION cfg' =
                 Some (VBool false) /\
               cell CONFIG_SIMULATOR CONFIG_ENABLED_OPTION cfg' =
                 Some (VBool true)).
  { intros Hsim. rewrite Hsim in HS.
    rewrite !KR by congruence. exact (simulator_only_returns _ _ HS). }
  apply then_do_fixed; [|apply then_do_fixed].
  - destruct (args_backtesting args); [|reflexivity].
    unfold when in HB |- *.
    destruct (then_do_returns _ _ _ _ HB) as (c0 & HF & HB').
    destruct (then_do_returns _ _ _ _ HB') as (c0' & HE & HSO).
    assert (KSO : forall s k,
               ~ In (s, k) (simulator_cells CONFIG_ENABLED_OPTION
                              CONFIG_TRADER CONFIG_SIMULATOR) ->
               cell s k c1 = cell s k c0')
      by (intros s k Hout; exact (simulator_only_writes _ _ _ _ _ HSO Hout)).
    apply then_do_fixed; [|apply then_do_fixed].
    + destruct (args_backtesting_files args) as [[|file files]|];
        try reflexivity.
      apply assign_fixed.
      rewrite KR by congruence.
      rewrite KS by not_in_cells. rewrite KSO by not_in_cells.
      rewrite (assign_other_cell _ _ _ _ _ _ CONFIG_BACKTESTING
                 CONFIG_BACKTESTING_DATA_FILES HE) by congruence.
      exact (assign_cell _ _ _ _ _ HF).
    + apply assign_fixed.
      rewrite KR by congruence.
      rewrite KS by not_in_cells. rewrite KSO by not_in_cells.
      exact (assign_cell _ _ _ _ _ HE).
    + destruct (simulator_only_returns _ _ HSO) as [Ht Hs].
      destruct (args_simulate args) eqn:Hsim.
      * destruct (FS eq_refl) as [Ht' Hs'].
        apply simulator_only_fixed; assumption.
      * injection HS as <-.
        apply simulator_only_fixed; rewrite KR by congruence; assumption.
  - destruct (args_simulate args); [|reflexivity].
    destruct (FS eq_refl) as [Ht Hs].
    apply simulator_only_fixed; assumption.
  - destruct (args_risk args) as [risk|]; [|reflexivity].
    destruct (risk_in_range risk); [|reflexivity].
    apply assign_fixed. exact (assign_cell _ _ _ _ _ HR).
Qed.

End CommandLineProperties.

(** Backtesting on the live configuration: the [exchanges] section stays. *)
Lemma X18_update_config_frame_witness :
  dict_get "exchanges" (fst (real_update backtesting_args live_config)) =
  Some (VDict []).
Proof.
  destruct (X18_update_config_frame "backtesting" "files" "enabled" "trader"
              "trader-simulator" "trading" "risk" backtesting_args
              live_config) as (_ & H & _).
  apply (H "exchanges"%string).
  simpl. intros [H1|[H1|[H1|[H1|[]]]]]; discriminate H1.
Defined.

(** Backtesting on the live configuration: real trading goes off. *)
Lemma X19_update_config_simulator_only_witness :
  cell "trader" "enabled" (fst (real_update backtesting_args live_config)) =
    Some (VBool false) /\
  cell "trader-simulator" "enabled"
    (fst (real_update backtesting_args live_config)) = Some (VBool true).
Proof.
  apply (X19_update_config_simulator_only "backtesting" "files" "enabled"
           "trader" "trader-simulator" "trading" "risk")
    with (args := backtesting_args) (cfg := live_config).
  - discriminate.
  - discriminate.
  - reflexivity.
  - reflexivity.
Defined.

(** A risk of one half is stored; the range excludes 0, 2 and NaN. *)
Lemma X20_update_config_risk_witness :
  cell "trading" "risk" (fst (real_update backtesting_args live_config)) =
    Some (VFloat half) /\
  risk_in_range PrimFloat.zero = false /\
  risk_in_range PrimFloat.two = false /\
  risk_in_range PrimFloat.nan = false.
Proof.
  split; [|repeat split].
  assert (H1 : "risk"%string <> "enabled"%string) by discriminate.
  assert (H2 : "risk"%string <> "files"%string) by discriminate.
  pose proof (X20_update_config_risk "backtesting" "files" "enabled" "trader"
                "trader-simulator" "trading" "risk" H1 H2
                backtesting_args live_config) as H.
  exact (H eq_refl).
Defined.

(** Backtesting without the trader section. *)
Lemma X21_update_config_raises_half_way_witness :
  exists cfg',
    real_update backtesting_args no_trader_config =
      (cfg', Some (ConfigKeyError "trader")) /\
    cell "backtesting" "enabled" cfg' = Some (VBool true) /\
    cell "trader-simulator" "enabled" cfg' = Some (VBool false).
Proof.
  assert (H2 : "backtesting"%string <> "trader-simulator"%string)
    by discriminate.
  exact (X21_update_config_raises_half_way "backtesting" "files" "enabled"
           "trader" "trader-simulator" "trading" "risk" H2
           backtesting_args no_trader_config
           [("enabled"%string, VBool false)] eq_refl eq_refl eq_refl).
Defined.

(** Backtesting on the live configuration, twice. *)
Lemma X22_update_config_idempotent_witness :
  real_update backtesting_args
    (fst (real_update backtesting_args live_config)) =
    (fst (real_update backtesting_args live_config), None).
Proof.
  apply (X22_update_config_idempotent "backtesting" "files" "enabled"
           "trader" "trader-simulator" "trading" "risk")
    with (cfg := live_config); try discriminate.
  reflexivity.
Defined.

(** ** The aggregate is drawn from the requests *)

Lemma skipn_incl {A : Type} (n : nat) (l : list A) :
  incl (skipn n l) l.
Proof.
  intros x Hx. rewrite <- (firstn_skipn n l). apply in_or_app.
  right. exact Hx.
Qed.

Lemma slice_from_incl {A : Type} (k : Z) (l : list A) :
  incl (slice_from k l) l.
Proof.
  unfold slice_from. destruct (k <? 0); apply skipn_incl.
Qed.

Section AggregateFromRequests.

Variable list_of_set : list TimeFrames -> list TimeFrames.

Hypothesis list_of_set_In :
  forall (s : list TimeFrames) (tf : TimeFrames),
    In tf (list_of_set s) <-> In tf s.

Lemma admit_time_frames_within (limit : Z) (all : list TimeFrames)
    (flag : bool) (config_time_frames union : list TimeFrames) :
  incl all union -> incl config_time_frames union ->
  incl (fst (admit_time_frames list_of_set limit all flag config_time_frames))
    union.
Proof.
  intros Hall Hcfg. unfold admit_time_frames, set_of_list.
  assert (Hcomb : incl (all ++ config_time_frames) union)
    by (apply incl_app; assumption).
  destruct (len (nodup _ (all ++ config_time_frames)) <? limit).
  - intros x Hx. simpl in Hx.
    apply (proj1 (sort_time_frames_In _ _)) in Hx.
    apply (proj1 (list_of_set_In _ _)) in Hx.
    apply (proj1 (nodup_In _ _ _)) in Hx. auto.
  - destruct (len (nodup _ (all ++ config_time_frames)) >? limit).
    + destruct (len all =? limit); [exact Hall|].
      intros x Hx. simpl in Hx.
      apply (proj1 (sort_time_frames_In _ _)) in Hx.
      apply in_app_or in Hx. destruct Hx as [Hx|Hx]; [auto|].
      apply slice_from_incl in Hx.
      apply (proj1 (sort_time_frames_In _ _)) in Hx.
      apply filter_In in Hx. apply Hcfg. tauto.
    + intros x Hx. simpl in Hx.
      apply (proj1 (list_of_set_In _ _)) in Hx.
      apply (proj1 (nodup_In _ _ _)) in Hx. auto.
Qed.

Lemma time_frames_loop_within (limit : Z) (strategies : strategies_map)
    (union : list TimeFrames) :
  incl (all_required strategies) union ->
  forall (all : list TimeFrames) (flag : bool),
    incl all union ->
    let '(_, _, final, _) :=
      time_frames_loop list_of_set limit strategies all flag in
    incl final union.
Proof.
  induction strategies as [|[name config_time_frames] rest IH];
    intros Hreq all flag Hall; simpl.
  - exact Hall.
  - unfold all_required in Hreq. simpl in Hreq.
    assert (Hcfg : incl config_time_frames union)
      by (intros x Hx; apply Hreq, in_or_app; auto).
    assert (Hrest : incl (all_required rest) union)
      by (intros x Hx; apply Hreq, in_or_app; auto).
    unfold strategy_step. simpl snd.
    pose proof (admit_time_frames_within limit all flag config_time_frames
                  union Hall Hcfg) as Ha.
    destruct (admit_time_frames list_of_set limit all flag config_time_frames)
      as [all' flag'].
    simpl in Ha.
    destruct (if flag' then prune_strategy all' (name, config_time_frames)
              else ((name, config_time_frames), [])) as [strategy' effects].
    specialize (IH Hrest all' flag' Ha).
    destruct (time_frames_loop list_of_set limit rest all' flag')
      as [[[rest' effects'] final] final_flag].
    exact IH.
Qed.

(** X23.  Timeframe limiter, any ceiling: the final aggregate, which the
    message lists, holds only time frames that some activated strategy
    requires. *)
Theorem X23_aggregate_from_requests (limit : Z) (strategies : strategies_map) :
  let '(_, _, final, _) :=
    time_frames_loop list_of_set limit strategies [] false in
  incl final (all_required strategies).
Proof.
  apply time_frames_loop_within; [apply incl_refl | apply incl_nil_l].
Qed.

End AggregateFromRequests.

(** Scenario 4 under ceiling 3. *)
Lemma X23_aggregate_from_requests_witness :
  incl [ONE_MINUTE; ONE_HOUR; ONE_WEEK] (all_required two_strategies).
Proof.
  assert (Horder : forall (s : list TimeFrames) (tf : TimeFrames),
             In tf (stored_order s) <-> In tf s)
    by (intros s tf; reflexivity).
  exact (X23_aggregate_from_requests stored_order Horder 3 two_strategies).
Defined.
